(** * SequenceParsing: a shallow embedding of [SequenceParsing.cpp]

    The development follows the layout of the C++ file: the primitive string
    helpers of the anonymous namespace, the pattern compiler
    ([extractCommonPartsAndVariablesFromPattern]), the variable validator
    ([checkVariable]), the pattern/filename matcher (the static
    [matchesPattern]), the filename tokenizer ([FileNameContent]) and the
    sequence aggregator ([SequenceFromFiles]).

    Conventions.
    - [std::string] is [string]; [size_t] positions are [nat], with
      [std::string::npos] rendered as [None].
    - [int] is [Z].  The conversions of [operator>>], which clamp to the
      range of a 32-bit [int], are written out in [stringToInt]; the numbers
      of digit runs are never negative, so that their differences stay in
      range ([collected_diff_range]).  The counters of the loops of
      [generateUserFriendlySequencePattern] are added with [int_add], which
      tells a signed overflow apart; it is reached once [INT_MAX] is a
      frame of the sequence.
    - [assert] is compiled out ([NDEBUG]).
    - functions whose loops are not structural take fuel; for each of them a
      lemma ([removeAllLoop_total], [matchLoop_total], [chunksLoop_total])
      shows that the fuel they are called with is never exhausted.
    - a [bool] result with an [int*] out-parameter is an [option Z];
      a C++ exception is the [Throw] constructor of [result], which in
      [generateUserFriendlySequencePattern] also reports the signed
      overflow of a counter. *)

From Stdlib Require Import ZArith List Bool Lia Ascii String.
From Stdlib Require Import Numbers.DecimalString.
From Stdlib Require DecimalPos DecimalFacts.
Import ListNotations.

Open Scope string_scope.
Open Scope Z_scope.

(** ** Limits and character classes (the "C" locale) *)

Definition INT_MAX : Z := 2147483647.
Definition INT_MIN : Z := -2147483648.

(** [NATRON_DIALOG_MAX_SEQUENCES_HOLE] *)
Definition NATRON_DIALOG_MAX_SEQUENCES_HOLE : nat := 1000.

Definition isdigit (c : ascii) : bool :=
  let n := nat_of_ascii c in ((48 <=? n) && (n <=? 57))%nat.

Definition isupper (c : ascii) : bool :=
  let n := nat_of_ascii c in ((65 <=? n) && (n <=? 90))%nat.

Definition islower (c : ascii) : bool :=
  let n := nat_of_ascii c in ((97 <=? n) && (n <=? 122))%nat.

Definition isalpha (c : ascii) : bool := isupper c || islower c.

Definition isspace (c : ascii) : bool :=
  let n := nat_of_ascii c in ((n =? 32) || ((9 <=? n) && (n <=? 13)))%nat.

Definition toupper (c : ascii) : ascii :=
  if islower c then ascii_of_nat (nat_of_ascii c - 32) else c.

Definition tolower (c : ascii) : ascii :=
  if isupper c then ascii_of_nat (nat_of_ascii c + 32) else c.

(** ** Primitive string helpers *)

(** [std::string::find(toSearch, pos)] *)
Definition str_find (from toSearch : string) (pos : nat) : option nat :=
  index pos toSearch from.

(** [std::string::find(char)] used as a containment test *)
Fixpoint contains_char (c : ascii) (s : string) : bool :=
  match s with
  | EmptyString => false
  | String a r => Ascii.eqb a c || contains_char c r
  end.

(** [std::string::erase(pos, n)] *)
Definition erase (s : string) (pos n : nat) : string :=
  substring 0 pos s ++ substring (pos + n) (length s - (pos + n)) s.

(** [std::string::substr(pos)] *)
Definition substr_from (s : string) (pos : nat) : string :=
  substring pos (length s - pos) s.

(** [my_equal]: equality of the upper-cased characters *)
Definition my_equal (ch1 ch2 : ascii) : bool :=
  Ascii.eqb (toupper ch1) (toupper ch2).

(** Does [str2] occur at the very beginning of [str1], up to case? *)
Fixpoint ci_match_here (str1 str2 : string) : bool :=
  match str2, str1 with
  | EmptyString, _ => true
  | String _ _, EmptyString => false
  | String b r2, String a r1 => my_equal a b && ci_match_here r1 r2
  end.

(** [std::search] with [my_equal]: the offset of the returned iterator,
    which is [length str1] (the end iterator) when there is no occurrence. *)
Fixpoint ci_search (str1 str2 : string) : nat :=
  if ci_match_here str1 str2 then 0%nat
  else match str1 with
       | EmptyString => 0%nat
       | String _ r => S (ci_search r str2)
       end.

Definition ci_find_substr (str1 str2 : string) : option nat :=
  let it := ci_search str1 str2 in
  if (it =? length str1)%nat then None else Some it.

(** [findStr]: the case-insensitive variant ignores [pos], as in the source. *)
Definition findStr (from toSearch : string) (pos : nat) (caseSensitive : bool)
  : option nat :=
  if caseSensitive then str_find from toSearch pos
  else ci_find_substr from toSearch.

Definition startsWith (str prefix : string) (caseSensitive : bool) : bool :=
  match findStr str prefix 0 caseSensitive with
  | Some 0%nat => true
  | _ => false
  end.

Definition endsWith (str suffix : string) : bool :=
  (length suffix <=? length str)%nat
  && String.eqb (substring (length str - length suffix) (length suffix) str) suffix.

(** The loop of [removeAllOccurences]; [None] only when the fuel is exhausted. *)
Fixpoint removeAllLoop (fuel : nat) (str toRemove : string) (i : nat)
         (caseSensitive : bool) : option string :=
  match fuel with
  | O => None
  | S fuel' =>
      match findStr str toRemove i caseSensitive with
      | None => Some str
      | Some j =>
          removeAllLoop fuel' (erase str j (length toRemove)) toRemove j caseSensitive
      end
  end.

Definition removeAllOccurences (str toRemove : string) (caseSensitive : bool)
  : string :=
  if (length str =? 0)%nat then str
  else match removeAllLoop (S (length str)) str toRemove 0 caseSensitive with
       | Some r => r
       | None => str
       end.

(** *** [stringToInt]: formatted extraction [ss >> ret] of an [int]

    Leading white space is skipped, an optional sign and the longest run of
    decimal digits are read.  When no digit is read the extraction fails and
    [0] is stored; a value outside the range of [int] is stored as
    [INT_MAX] / [INT_MIN] (the stream throws nothing since no exception mask
    is set). *)

Definition digitValue (c : ascii) : Z := Z.of_nat (nat_of_ascii c) - 48.

Fixpoint skipws (s : string) : string :=
  match s with
  | EmptyString => EmptyString
  | String c r => if isspace c then skipws r else s
  end.

Fixpoint readDigits (s : string) (acc : Z) : Z :=
  match s with
  | EmptyString => acc
  | String c r => if isdigit c then readDigits r (10 * acc + digitValue c) else acc
  end.

Definition clampInt (v : Z) : Z :=
  if v >? INT_MAX then INT_MAX else if v <? INT_MIN then INT_MIN else v.

Definition stringToInt (str : string) : Z :=
  match skipws str with
  | String "-"%char r => clampInt (- readDigits r 0)
  | String "+"%char r => clampInt (readDigits r 0)
  | s => clampInt (readDigits s 0)
  end.

(** [stringFromInt]: [ss << nb] *)
Definition stringFromInt (nb : Z) : string :=
  NilZero.string_of_int (Z.to_int nb).

(** ** Results of fallible code *)

Inductive result (A : Type) : Type :=
| Ret (a : A)
| Throw (msg : string).
Arguments Ret {A} a.
Arguments Throw {A} msg.

(** ** The variable validator *)

(** The [while] loop counting [prepending0s]. *)
Fixpoint countPrepending0s (variable : string) : nat :=
  match variable with
  | String "0"%char r => S (countPrepending0s r)
  | _ => 0%nat
  end.

(** [checkVariable]: [Ret (Some n)] is [true] with [*frameNumberOrViewNumber = n],
    [Ret None] is [false], [Throw] is [std::invalid_argument]. *)
Definition checkVariable (variableToken variable : string) (type : Z)
  : result (option Z) :=
  if (variableToken =? "%v")%string then
    if negb (type =? 1)%Z then Ret None
    else if (variable =? "r")%string then Ret (Some 1)
    else if (variable =? "l")%string then Ret (Some 0)
    else if startsWith variable "view" false then
      Ret (Some (stringToInt (removeAllOccurences variable "view" false)))
    else Ret None
  else if (variableToken =? "%V")%string then
    if negb (type =? 2)%Z then Ret None
    else if (variable =? "right")%string then Ret (Some 1)
    else if (variable =? "left")%string then Ret (Some 0)
    else if startsWith variable "view" false then
      Ret (Some (stringToInt (removeAllOccurences variable "view" false)))
    else Ret None
  else if contains_char "#" variableToken then
    if negb (type =? 0)%Z then Ret None
    else if (length variable <? length variableToken)%nat then Ret None
    else
      let prepending0s := countPrepending0s variable in
      if (length variableToken <? length variable)%nat && (0 <? prepending0s)%nat
      then Ret None
      else Ret (Some (stringToInt variable))
  else if startsWith variableToken "%0" false && endsWith variableToken "d" then
    if negb (type =? 0)%Z then Ret None
    else
      let extraPaddingCountStr :=
        removeAllOccurences (removeAllOccurences variableToken "%0" false) "d" false in
      let extraPaddingCount := stringToInt extraPaddingCountStr in
      if Z.of_nat (length variable) <? extraPaddingCount then Ret None
      else
        let prepending0s := countPrepending0s variable in
        if (extraPaddingCount <? Z.of_nat (length variable)) && (0 <? prepending0s)%nat
        then Ret None
        else Ret (Some (stringToInt variable))
  else if (variableToken =? "%d")%string then
    Ret (Some (stringToInt variable))
  else Throw ("Variable token unrecognized: " ++ variableToken).

(** ** The pattern compiler *)

Record PatternState : Type := mkPatternState {
  inPrintfLikeArg : bool;
  printfLikeArgIndex : Z;
  commonPart : string;
  variable : string;
  commonCharactersFound : Z;
  previousCharIsSharp : bool;
  commonParts : list string;
  variablesByOrder : list (string * Z)
}.

Definition initPatternState : PatternState :=
  mkPatternState false 0 "" "" 0 false [] [].

Definition push_back (s : string) (c : ascii) : string := s ++ String c "".

Definition strEmpty (s : string) : bool :=
  match s with EmptyString => true | _ => false end.

(** [if (!commonPart.empty()) { push; count; clear }] *)
Definition flushCommonPart (st : PatternState) : PatternState :=
  if strEmpty (commonPart st) then st
  else mkPatternState (inPrintfLikeArg st) (printfLikeArgIndex st) ""
         (variable st)
         (commonCharactersFound st + Z.of_nat (length (commonPart st)))
         (previousCharIsSharp st)
         (commonParts st ++ [commonPart st]) (variablesByOrder st).

(** [if (!variable.empty()) { push; clear }] *)
Definition flushVariable (st : PatternState) : PatternState :=
  if strEmpty (variable st) then st
  else mkPatternState (inPrintfLikeArg st) (printfLikeArgIndex st)
         (commonPart st) "" (commonCharactersFound st) (previousCharIsSharp st)
         (commonParts st)
         (variablesByOrder st ++ [(variable st, commonCharactersFound st)]).

Definition appendCommonPart (st : PatternState) (c : ascii) : PatternState :=
  mkPatternState (inPrintfLikeArg st) (printfLikeArgIndex st)
    (push_back (commonPart st) c) (variable st) (commonCharactersFound st)
    (previousCharIsSharp st) (commonParts st) (variablesByOrder st).

Definition appendVariable (st : PatternState) (c : ascii) : PatternState :=
  mkPatternState (inPrintfLikeArg st) (printfLikeArgIndex st)
    (commonPart st) (push_back (variable st) c) (commonCharactersFound st)
    (previousCharIsSharp st) (commonParts st) (variablesByOrder st).

Definition setPrintf (st : PatternState) (inArg : bool) (idx : Z) : PatternState :=
  mkPatternState inArg idx (commonPart st) (variable st)
    (commonCharactersFound st) (previousCharIsSharp st)
    (commonParts st) (variablesByOrder st).

Definition setSharp (st : PatternState) : PatternState :=
  mkPatternState (inPrintfLikeArg st) (printfLikeArgIndex st) (commonPart st)
    (variable st) (commonCharactersFound st) true
    (commonParts st) (variablesByOrder st).

(** The unsupported printf field is pushed among the common parts. *)
Definition variableToCommonParts (st : PatternState) : PatternState :=
  mkPatternState false (printfLikeArgIndex st) (commonPart st) ""
    (commonCharactersFound st + Z.of_nat (length (variable st)))
    (previousCharIsSharp st)
    (commonParts st ++ [variable st]) (variablesByOrder st).

(** One turn of the [while] loop: [prev] and [next] are the neighbours of
    [c], the NUL character standing for "none".  [None] is [return false]. *)
Definition patternStep (prev c next : ascii) (st : PatternState)
  : option PatternState :=
  if Ascii.eqb c "#" then
    let st1 := flushCommonPart st in
    let st2 := if negb (previousCharIsSharp st1) then flushVariable st1 else st1 in
    Some (setSharp (appendVariable st2 c))
  else if Ascii.eqb c "%" then
    if Ascii.eqb next zero then Some (appendCommonPart st c)
    else if Ascii.eqb prev "%" then Some (appendCommonPart st c)
    else if negb (Ascii.eqb next "%") then
      if inPrintfLikeArg st then None
      else
        let st1 := setPrintf st true 0 in
        let st2 := flushVariable (flushCommonPart st1) in
        Some (appendVariable st2 c)
    else Some st
  else if (Ascii.eqb c "d" || Ascii.eqb c "v" || Ascii.eqb c "V")
          && inPrintfLikeArg st then
    Some (flushVariable (appendVariable (setPrintf st false (printfLikeArgIndex st)) c))
  else if inPrintfLikeArg st then
    let st1 := appendVariable (setPrintf st true (printfLikeArgIndex st + 1)) c in
    if isalpha c || ((printfLikeArgIndex st1 =? 1) && negb (Ascii.eqb c "0"))
    then Some (variableToCommonParts st1)
    else Some st1
  else Some (flushVariable (appendCommonPart st c)).

Fixpoint patternLoop (prev : ascii) (rest : string) (st : PatternState)
  : option PatternState :=
  match rest with
  | EmptyString => Some st
  | String c rest' =>
      let next := match rest' with String n _ => n | EmptyString => zero end in
      match patternStep prev c next st with
      | None => None
      | Some st' => patternLoop c rest' st'
      end
  end.

(** [extractCommonPartsAndVariablesFromPattern]: the two output vectors,
    which the callers pass empty, or [None] for [false]. *)
Definition extractCommonPartsAndVariablesFromPattern
           (patternUnPathedWithoutExt patternExtension : string)
  : option (list string * list (string * Z)) :=
  match patternLoop zero patternUnPathedWithoutExt initPatternState with
  | None => None
  | Some st =>
      let st1 := flushVariable (flushCommonPart st) in
      let parts :=
        if strEmpty patternExtension then commonParts st1
        else (commonParts st1 ++ [String "." patternExtension])%list in
      Some (parts, variablesByOrder st1)
  end.

(** ** The filename matcher (pattern against filename) *)

Inductive MatchResult : Type :=
| Matched (frameNumber : option Z) (viewNumber : Z)
    (** [true]; [frameNumber] is [None] when [*frameNumber] was never written *)
| NoMatch
    (** [false] *)
| Thrown (msg : string)
    (** the exception of [checkVariable] *)
| OutOfBounds.
    (** [variablesOrdered[nextVariableIndex]] read past the end of the vector *)

(** The literal-containment loop.  [lastPartPos] is threaded through the
    iterations exactly as the source does: it is read, and never assigned. *)
Fixpoint commonPartsLoop (filename : string) (commonPartsOrdered : list string)
         (lastPartPos : Z) : bool :=
  match commonPartsOrdered with
  | [] => true
  | part :: parts =>
      match findStr filename part
                    (if lastPartPos =? -1 then 0%nat else Z.to_nat lastPartPos)
                    true with
      | None => false
      | Some pos =>
          if Z.of_nat pos <=? lastPartPos then false
          else commonPartsLoop filename parts lastPartPos
      end
  end.

Record MatchState : Type := mkMatchState {
  m_i : nat;
  m_variable : string;
  m_commonCharactersFound : Z;
  m_previousCharIsDigit : bool;
  m_wasFrameNumberSet : bool;
  m_wasViewNumberSet : bool;
  m_variableChecked : Z;
  m_nextVariableIndex : nat;
  m_frameNumber : option Z;
  m_viewNumber : Z
}.

Definition initMatchState : MatchState :=
  mkMatchState 0 "" 0 false false false 0 0 None (-1).

Inductive MatchStep : Type :=
| Continue (st : MatchState)
| Stop (r : MatchResult).

(** [wasFrameNumberSet && fnumber != *frameNumber] *)
Definition frameDisagrees (st : MatchState) (fnumber : Z) : bool :=
  m_wasFrameNumberSet st
  && match m_frameNumber st with
     | Some f => negb (fnumber =? f)
     | None => false
     end.

(** [wasViewNumberSet && viewNo != *viewNumber] *)
Definition viewDisagrees (st : MatchState) (viewNo : Z) : bool :=
  m_wasViewNumberSet st && negb (viewNo =? m_viewNumber st).

(** A frame number was validated: the bookkeeping of lines 486-490. *)
Definition frameChecked (st : MatchState) (fnumber : Z) : MatchState :=
  mkMatchState (m_i st) "" (m_commonCharactersFound st) (m_previousCharIsDigit st)
    true (m_wasViewNumberSet st) (m_variableChecked st + 1)
    (S (m_nextVariableIndex st)) (Some fnumber) (m_viewNumber st).

(** A view was validated; the cursor moves by [adv] characters. *)
Definition viewChecked (st : MatchState) (viewNo : Z) (adv : nat) : MatchState :=
  mkMatchState (m_i st + adv) "" (m_commonCharactersFound st)
    (m_previousCharIsDigit st) (m_wasFrameNumberSet st) true
    (m_variableChecked st + 1) (S (m_nextVariableIndex st))
    (m_frameNumber st) viewNo.

(** [cnt] ordinary characters are skipped. *)
Definition commonSkipped (st : MatchState) (cnt : nat) : MatchState :=
  mkMatchState (m_i st + cnt) "" (m_commonCharactersFound st + Z.of_nat cnt)
    (m_previousCharIsDigit st) (m_wasFrameNumberSet st) (m_wasViewNumberSet st)
    (m_variableChecked st) (m_nextVariableIndex st)
    (m_frameNumber st) (m_viewNumber st).

(** The digit run collected in [variable] is checked against the expected
    variable (lines 470-491). *)
Definition flushDigits (variablesOrdered : list (string * Z)) (st : MatchState)
  : MatchStep :=
  if strEmpty (m_variable st) then Continue st
  else
    match nth_error variablesOrdered (m_nextVariableIndex st) with
    | None => Stop OutOfBounds
    | Some (token, cnt) =>
        if negb (cnt =? m_commonCharactersFound st) then Stop NoMatch
        else
          match checkVariable token (m_variable st) 0 with
          | Throw msg => Stop (Thrown msg)
          | Ret None => Stop NoMatch
          | Ret (Some fnumber) =>
              if frameDisagrees st fnumber then Stop NoMatch
              else Continue (frameChecked st fnumber)
          end
    end.

(** A lone [l] or [r] (lines 501-538); [viewNo] is 0 for [l] and 1 for [r]. *)
Definition shortView (variablesOrdered : list (string * Z)) (st : MatchState)
           (viewNo : Z) : MatchStep :=
  match nth_error variablesOrdered (m_nextVariableIndex st) with
  | None => Stop OutOfBounds
  | Some (token, cnt) =>
      if (token =? "%v")%string && (cnt =? m_commonCharactersFound st) then
        if m_wasViewNumberSet st && negb (m_viewNumber st =? viewNo)
        then Stop NoMatch
        else Continue (viewChecked st viewNo 1)
      else Continue (commonSkipped st 1)
  end.

(** [left], [right] and [view<N>] (lines 539-614): [text] is what is handed
    to [checkVariable], [type] the kind it is validated as. *)
Definition longView (variablesOrdered : list (string * Z)) (st : MatchState)
           (text : string) (type : string -> Z) : MatchStep :=
  match nth_error variablesOrdered (m_nextVariableIndex st) with
  | None => Stop OutOfBounds
  | Some (token, cnt) =>
      if negb (cnt =? m_commonCharactersFound st) then Stop NoMatch
      else
        match checkVariable token text (type token) with
        | Throw msg => Stop (Thrown msg)
        | Ret None => Stop NoMatch
        | Ret (Some viewNo) =>
            if viewDisagrees st viewNo then Stop NoMatch
            else Continue (viewChecked st viewNo (length text))
        end
  end.

(** The digits that follow [view] in [mid]. *)
Fixpoint takeDigits (s : string) : string :=
  match s with
  | EmptyString => EmptyString
  | String c r => if isdigit c then String c (takeDigits r) else EmptyString
  end.

(** The part of the loop body that looks for a view name (lines 493-628). *)
Definition viewPhase (filename : string) (variablesOrdered : list (string * Z))
           (c : ascii) (st : MatchState) : MatchStep :=
  let clower := tolower c in
  if Ascii.eqb clower "l" || Ascii.eqb clower "r" || Ascii.eqb clower "v" then
    let mid := substr_from filename (m_i st) in
    let startsWithLeft := startsWith mid "left" false in
    let startsWithRight := startsWith mid "right" false in
    let startsWithView := startsWith mid "view" false in
    if startsWith mid "l" false && negb startsWithLeft then
      shortView variablesOrdered st 0
    else if startsWith mid "r" false && negb startsWithRight then
      shortView variablesOrdered st 1
    else if startsWithLeft then
      longView variablesOrdered st "left" (fun _ => 2)
    else if startsWithRight then
      longView variablesOrdered st "right" (fun _ => 2)
    else if startsWithView then
      let viewNumberStr := takeDigits (substr_from mid 4) in
      if negb (strEmpty viewNumberStr) then
        longView variablesOrdered st ("view" ++ viewNumberStr)
                 (fun token => if (token =? "%v")%string then 1 else 2)
      else Continue (commonSkipped st 4)
    else Continue (commonSkipped st 1)
  else Continue (commonSkipped st 1).

(** One turn of the main [while] loop, at a position [m_i st] inside
    [filename]. *)
Definition matchStep (filename : string) (variablesOrdered : list (string * Z))
           (st : MatchState) : MatchStep :=
  match get (m_i st) filename with
  | None => Stop NoMatch
  | Some c =>
      if isdigit c then
        Continue (mkMatchState (S (m_i st)) (push_back (m_variable st) c)
                    (m_commonCharactersFound st) true
                    (m_wasFrameNumberSet st) (m_wasViewNumberSet st)
                    (m_variableChecked st) (m_nextVariableIndex st)
                    (m_frameNumber st) (m_viewNumber st))
      else
        let st0 :=
          mkMatchState (m_i st) (m_variable st) (m_commonCharactersFound st)
            false (m_wasFrameNumberSet st)
            (m_wasViewNumberSet st) (m_variableChecked st)
            (m_nextVariableIndex st) (m_frameNumber st) (m_viewNumber st) in
        match flushDigits variablesOrdered st0 with
        | Stop r => Stop r
        | Continue st1 => viewPhase filename variablesOrdered c st1
        end
  end.

(** The main loop; [None] only when the fuel is exhausted. *)
Fixpoint matchLoop (fuel : nat) (filename : string)
         (variablesOrdered : list (string * Z)) (st : MatchState)
  : option MatchResult :=
  match fuel with
  | O => None
  | S fuel' =>
      if (m_i st <? length filename)%nat then
        match matchStep filename variablesOrdered st with
        | Stop r => Some r
        | Continue st' => matchLoop fuel' filename variablesOrdered st'
        end
      else if m_variableChecked st =? Z.of_nat (List.length variablesOrdered)
      then Some (Matched (m_frameNumber st) (m_viewNumber st))
      else Some NoMatch
  end.

(** The static [matchesPattern]. *)
Definition matchesPattern (filename : string) (commonPartsOrdered : list string)
           (variablesOrdered : list (string * Z)) : MatchResult :=
  if negb (commonPartsLoop filename commonPartsOrdered (-1)) then NoMatch
  else
    match variablesOrdered with
    | [] => Matched None (-1)
    | _ =>
        match matchLoop (S (length filename)) filename variablesOrdered
                        initMatchState with
        | Some r => r
        | None => NoMatch
        end
    end.

(** ** The filename tokenizer *)

(** [std::string::find_last_of(char)] *)
Fixpoint find_last_of (c : ascii) (s : string) : option nat :=
  match s with
  | EmptyString => None
  | String a r =>
      match find_last_of c r with
      | Some n => Some (S n)
      | None => if Ascii.eqb a c then Some 0%nat else None
      end
  end.

(** [removePath]: the pair of the returned path and of the new value of the
    in-out argument [filename]. *)
Definition removePath (filename : string) : string * string :=
  let pos :=
    match find_last_of "/" filename with
    | Some p => Some p
    | None => find_last_of "\" filename
    end in
  match pos with
  | None => ("", filename)
  | Some p =>
      let path := substring 0 (p + 1) filename in
      (path, removeAllOccurences filename path true)
  end.

(** [std::string::replace(pos, n, str)] *)
Definition replace (s : string) (pos n : nat) (str : string) : string :=
  substring 0 pos s ++ str ++ substring (pos + n) (length s - (pos + n)) s.

Fixpoint hashes (n : nat) : string :=
  match n with
  | O => EmptyString
  | S n' => String "#" (hashes n')
  end.

(** The number of ['#'] a string starts with. *)
Fixpoint countHashes (s : string) : nat :=
  match s with
  | String "#"%char r => S (countHashes r)
  | _ => 0%nat
  end.

Notation "x <- c1 ;; c2" :=
  (match c1 with Ret x => c2 | Throw msg => Throw msg end)
  (at level 61, c1 at next level, right associativity).

Module FileNameContent.

Inductive Type_ : Type := TEXT | FRAME_NUMBER.

Definition Type_eqb (a b : Type_) : bool :=
  match a, b with
  | TEXT, TEXT | FRAME_NUMBER, FRAME_NUMBER => true
  | _, _ => false
  end.

Record FileNameElement : Type := mkElement {
  data : string;
  type : Type_
}.

(** [FileNameContentPrivate] *)
Record t : Type := mkContent {
  orderedElements : list FileNameElement;
  absoluteFileName : string;
  filePath : string;
  filename : string;
  extension : string;
  hasSingleNumber : bool;
  generatedPattern : string
}.

(** The local state of the tokenizing loop of [parse]. *)
Record ParseState : Type := mkParseState {
  lastNumberStr : string;
  lastTextPart : string;
  p_elements : list FileNameElement;
  p_hasSingleNumber : bool
}.

(** [if (!lastTextPart.empty()) { push TEXT; clear }] *)
Definition flushText (st : ParseState) : ParseState :=
  if strEmpty (lastTextPart st) then st
  else mkParseState (lastNumberStr st) ""
         (p_elements st ++ [mkElement (lastTextPart st) TEXT])
         (p_hasSingleNumber st).

(** [if (!lastNumberStr.empty()) { push FRAME_NUMBER; flip; clear }] *)
Definition flushNumber (st : ParseState) : ParseState :=
  if strEmpty (lastNumberStr st) then st
  else mkParseState "" (lastTextPart st)
         (p_elements st ++ [mkElement (lastNumberStr st) FRAME_NUMBER])
         (if negb (p_hasSingleNumber st) then true else false).

Definition parseStep (c : ascii) (st : ParseState) : ParseState :=
  if isdigit c then
    flushText (mkParseState (push_back (lastNumberStr st) c) (lastTextPart st)
                 (p_elements st) (p_hasSingleNumber st))
  else
    let st1 := flushNumber st in
    mkParseState (lastNumberStr st1) (push_back (lastTextPart st1) c)
      (p_elements st1) (p_hasSingleNumber st1).

Fixpoint parseLoop (rest : string) (st : ParseState) : ParseState :=
  match rest with
  | EmptyString => st
  | String c rest' => parseLoop rest' (parseStep c st)
  end.

(** The loop that collects the extension, [j] running down from
    [size - 1] while [j > 0]. *)
Fixpoint extensionLoop (filename : string) (j : nat) (extension : string)
  : string :=
  match j with
  | O => extension
  | S j' =>
      match get j filename with
      | Some c =>
          if Ascii.eqb c "." then extension
          else extensionLoop filename j' (String c extension)
      | None => extension
      end
  end.

(** The loop that builds [generatedPattern]. *)
Fixpoint patternOfElements (elements : list FileNameElement) (numberIndex : Z)
  : string :=
  match elements with
  | [] => ""
  | e :: rest =>
      match type e with
      | TEXT => data e ++ patternOfElements rest numberIndex
      | FRAME_NUMBER =>
          (hashes (length (data e)) ++ stringFromInt numberIndex)
            ++ patternOfElements rest (numberIndex + 1)
      end
  end.

(** [FileNameContentPrivate::parse], that is the constructor. *)
Definition parse (absoluteFileName : string) : t :=
  let (filePath, filename) := removePath absoluteFileName in
  let st := parseLoop filename (mkParseState "" "" [] false) in
  let st := flushText (flushNumber st) in
  let extension :=
    match find_last_of "." filename with
    | Some _ => extensionLoop filename (length filename - 1) ""
    | None => ""
    end in
  mkContent (p_elements st) absoluteFileName filePath filename extension
            (p_hasSingleNumber st) (patternOfElements (p_elements st) 0).

Definition getPath (c : t) : string := filePath c.
Definition getExtension (c : t) : string := extension c.
Definition getFilePattern (c : t) : string := generatedPattern c.

Fixpoint getNumberLoop (elements : list FileNameElement)
         (numbersElementsIndex index : Z) : option string :=
  match elements with
  | [] => None
  | e :: rest =>
      match type e with
      | FRAME_NUMBER =>
          if numbersElementsIndex =? index then Some (data e)
          else getNumberLoop rest (numbersElementsIndex + 1) index
      | TEXT => getNumberLoop rest numbersElementsIndex index
      end
  end.

Definition getNumberByIndex (c : t) (index : Z) : option string :=
  getNumberLoop (orderedElements c) 0 index.

(** [s.at(0) == '0']; [at] throws on the empty string. *)
Definition at0IsZero (s : string) : result bool :=
  match s with
  | EmptyString => Throw "basic_string::at"
  | String c _ => Ret (Ascii.eqb c "0")
  end.

(** The padding rule when [longer] has more characters than [shorter]
    (lines 915-928 and, with the roles exchanged, 930-942): the inner
    [while] runs at most once, as it ends with [break]. *)
Definition paddingValid (longer shorter : string) : result bool :=
  z <- at0IsZero shorter ;;
  if z && (1 <? length shorter)%nat then Ret false
  else
    let diff := (length longer - length shorter)%nat in
    if (0 <? length longer)%nat && (0 <? diff)%nat then
      z' <- at0IsZero longer ;; Ret (negb z')
    else Ret true.

(** The local [valid] for two frame-number strings that differ. *)
Definition validPair (mine other : string) : result bool :=
  if negb (length mine =? length other)%nat then
    if (length other <? length mine)%nat then paddingValid mine other
    else paddingValid other mine
  else Ret true.

Definition Potential : Type := (Z * (string * string))%type.

(** The first loop of [matchesPattern] over the paired elements;
    [Ret None] is [return false]. *)
Fixpoint potentialLoop (pairs : list (FileNameElement * FileNameElement))
         (numbersCount : Z) (potentialFrameNumbers : list Potential)
  : result (option (list Potential)) :=
  match pairs with
  | [] => Ret (Some potentialFrameNumbers)
  | (e, o) :: rest =>
      if negb (Type_eqb (type e) (type o)) then Ret None
      else
        match type e with
        | FRAME_NUMBER =>
            if negb (data e =? data o)%string then
              valid <- validPair (data e) (data o) ;;
              potentialLoop rest (numbersCount + 1)
                (if valid
                 then potentialFrameNumbers ++ [(numbersCount, (data e, data o))]
                 else potentialFrameNumbers)
            else potentialLoop rest (numbersCount + 1) potentialFrameNumbers
        | TEXT =>
            if negb (data e =? data o)%string then Ret None
            else potentialLoop rest numbersCount potentialFrameNumbers
        end
  end.

(** [std::abs(thisNumber - otherNumber)] *)
Definition potentialDiff (p : Potential) : Z :=
  Z.abs (stringToInt (fst (snd p)) - stringToInt (snd (snd p))).

(** The second loop: the positions, in [potentialFrameNumbers], of the
    pairs of minimal difference. *)
Fixpoint minLoop (potentials : list Potential) (i : nat) (minimum : Z)
         (minIndexes : list nat) : list nat :=
  match potentials with
  | [] => minIndexes
  | p :: rest =>
      let diff := potentialDiff p in
      if diff <? minimum then minLoop rest (S i) diff [i]
      else if diff =? minimum then minLoop rest (S i) minimum (minIndexes ++ [i])
      else minLoop rest (S i) minimum minIndexes
  end.

(** [matchesPattern]: [Ret (Some l)] is [true], [l] being what is pushed
    on [numberIndexesToVary]; [Ret None] is [false]. *)
Definition matchesPattern (this other : t) : result (option (list Z)) :=
  if negb (List.length (orderedElements other)
           =? List.length (orderedElements this))%nat
  then Ret None
  else
    r <- potentialLoop (combine (orderedElements this) (orderedElements other))
                       0 [] ;;
    match r with
    | None => Ret None
    | Some [] => Ret None
    | Some potentialFrameNumbers =>
        let minIndexes := minLoop potentialFrameNumbers 0 INT_MAX [] in
        Ret (Some (map (fun i => fst (nth i potentialFrameNumbers (0, ("", ""))))
                       minIndexes))
    end.

Record TagState : Type := mkTagState {
  numbersCount : Z;
  lastNumberPos : nat;
  indexedPattern : string
}.

(** The body of the loop of [generatePatternWithFrameNumberAtIndexes] for
    one [FRAME_NUMBER] element.  The [assert]s are compiled out; when no
    ['#'] is found, [at] is called with [npos] and throws. *)
Definition tagStep (indexes : list Z) (e : FileNameElement) (st : TagState)
  : result TagState :=
  match findStr (indexedPattern st) "#" (lastNumberPos st) true with
  | None => Throw "basic_string::at"
  | Some pos =>
      let endTagPos :=
        (pos + countHashes (substr_from (indexedPattern st) pos))%nat in
      let isNumberAFrameNumber := existsb (Z.eqb (numbersCount st)) indexes in
      let pattern' :=
        if negb isNumberAFrameNumber then
          replace (indexedPattern st) pos (endTagPos - pos + 1) (data e)
        else if (endTagPos <? length (indexedPattern st))%nat then
          erase (indexedPattern st) endTagPos 1
        else indexedPattern st in
      Ret (mkTagState (numbersCount st + 1) endTagPos pattern')
  end.

Fixpoint tagLoop (indexes : list Z) (elements : list FileNameElement)
         (st : TagState) : result TagState :=
  match elements with
  | [] => Ret st
  | e :: rest =>
      match type e with
      | FRAME_NUMBER =>
          st' <- tagStep indexes e st ;; tagLoop indexes rest st'
      | TEXT => tagLoop indexes rest st
      end
  end.

(** [generatePatternWithFrameNumberAtIndexes]: [Ret (Some p)] is [true]
    with [*pattern = p]. *)
Definition generatePatternWithFrameNumberAtIndexes (c : t) (indexes : list Z)
  : result (option string) :=
  st <- tagLoop indexes (orderedElements c) (mkTagState 0 0 (getFilePattern c)) ;;
  if existsb (fun idx => numbersCount st <=? idx) indexes then Ret None
  else Ret (Some (getPath c ++ indexedPattern st)).

End FileNameContent.

(** ** The sequence aggregator *)

(** [std::map<int,std::string>]: the entries in increasing key order. *)
Definition IntMap : Type := list (Z * string).

Fixpoint map_find (k : Z) (m : IntMap) : option string :=
  match m with
  | [] => None
  | (k', v) :: rest => if k =? k' then Some v else map_find k rest
  end.

Fixpoint map_place (k : Z) (v : string) (m : IntMap) : IntMap :=
  match m with
  | [] => [(k, v)]
  | (k', v') :: rest =>
      if k <? k' then (k, v) :: m else (k', v') :: map_place k v rest
  end.

(** [std::map::insert]: nothing happens when the key is present. *)
Definition map_insert (k : Z) (v : string) (m : IntMap) : IntMap :=
  match map_find k m with
  | Some _ => m
  | None => map_place k v m
  end.

Definition map_keys (m : IntMap) : list Z := map fst m.

(** Addition of two [int].  A sum outside of the range of [int] is a signed
    overflow, which C++ leaves undefined: it is [None]. *)
Definition int_add (a b : Z) : option Z :=
  if (INT_MIN <=? a + b) && (a + b <=? INT_MAX) then Some (a + b) else None.

(** What a loop over [int] counters ends with: its result, a signed
    overflow of one of the counters, or, for the model only, the end of
    the fuel. *)
Inductive Counted (A : Type) : Type :=
| Finished (a : A)
| SignedOverflow
| NoFuel.

Arguments Finished {A} a.
Arguments SignedOverflow {A}.
Arguments NoFuel {A}.

Module SequenceFromFiles.

(** [SequenceFromFilesPrivate] *)
Record t : Type := mkSequence {
  sequence : list FileNameContent.t;
  filesList : list string;
  filesMap : IntMap;
  frameNumberStringIndexes : list Z;
  totalSize : Z;
  sizeEstimationEnabled : bool
}.

Definition isInSequence (s : t) (index : Z) : bool :=
  match map_find index (filesMap s) with
  | Some _ => true
  | None => false
  end.

(** [SequenceFromFiles(bool enableSizeEstimation)] *)
Definition create (enableSizeEstimation : bool) : t :=
  mkSequence [] [] [] [] 0 enableSizeEstimation.

(** [totalSize += f.tellg()], on an [unsigned long long]; [tellg] gives
    the position at the end of the file named, [-1] when it cannot be
    opened. *)
Definition addSize (tellg : string -> Z) (name : string) (s : t) : Z :=
  if sizeEstimationEnabled s then (totalSize s + tellg name) mod 2 ^ 64
  else totalSize s.

(** [sequence.push_back(file); filesList.push_back(...)] and the size. *)
Definition pushFile (tellg : string -> Z) (file : FileNameContent.t) (s : t)
  : t :=
  mkSequence (sequence s ++ [file])
             (filesList s ++ [FileNameContent.absoluteFileName file])
             (filesMap s) (frameNumberStringIndexes s)
             (addSize tellg (FileNameContent.absoluteFileName file) s)
             (sizeEstimationEnabled s).

Definition insertFrame (k : Z) (v : string) (s : t) : t :=
  mkSequence (sequence s) (filesList s) (map_insert k v (filesMap s))
             (frameNumberStringIndexes s) (totalSize s)
             (sizeEstimationEnabled s).

Definition setIndexes (indexes : list Z) (s : t) : t :=
  mkSequence (sequence s) (filesList s) (filesMap s) indexes (totalSize s)
             (sizeEstimationEnabled s).

(** [SequenceFromFiles(const FileNameContent& firstFile, bool)] *)
Definition createWith (tellg : string -> Z) (firstFile : FileNameContent.t)
           (enableSizeEstimation : bool) : t :=
  pushFile tellg firstFile (create enableSizeEstimation).

(** The two [for] loops of [tryInsertFile] over the frame-number indexes.
    [content] is the file whose numbers are read and [record] what is done
    with the first number found.  The boolean is [false] when the loop is
    left by [return false]; the state is the one reached at that point. *)
Fixpoint frameLoop (content : FileNameContent.t) (record : string -> t -> t)
         (indexes : list Z) (firstFrameNumberStr : string) (s : t)
  : bool * t :=
  match indexes with
  | [] => (true, s)
  | index :: rest =>
      let ok_str :=
        match FileNameContent.getNumberByIndex content index with
        | Some d => (true, d)
        | None => (false, "")
        end in
      let ok := fst ok_str in
      let frameNumberStr := snd ok_str in
      if ok && strEmpty firstFrameNumberStr then
        frameLoop content record rest frameNumberStr (record frameNumberStr s)
      else if negb (strEmpty firstFrameNumberStr)
              && negb (stringToInt frameNumberStr =? stringToInt firstFrameNumberStr)
      then (false, s)
      else frameLoop content record rest firstFrameNumberStr s
  end.

(** The second loop (lines 1323-1344), run when [insert] is [true]. *)
Definition insertMember (tellg : string -> Z) (file : FileNameContent.t)
           (indexes : list Z) (s : t) : bool * t :=
  frameLoop file
    (fun frameNumberStr s' =>
       insertFrame (stringToInt frameNumberStr)
                   (FileNameContent.absoluteFileName file)
                   (pushFile tellg file s'))
    indexes "" s.

(** [std::find(filesList.begin(), filesList.end(), name) != filesList.end()] *)
Definition inFilesList (name : string) (s : t) : bool :=
  existsb (String.eqb name) (filesList s).

Definition listZ_eqb (a b : list Z) : bool :=
  if list_eq_dec Z.eq_dec a b then true else false.

(** [tryInsertFile]: the returned boolean and the state after the call;
    [Throw] when [FileNameContent::matchesPattern] throws, which happens
    before anything is written.  [sequence[0]] exists whenever
    [filesList] is not empty, both being filled together. *)
Definition tryInsertFile (tellg : string -> Z) (file : FileNameContent.t)
           (s : t) : result (bool * t) :=
  match filesList s, sequence s with
  | [], _ => Ret (true, pushFile tellg file s)
  | _ :: _, [] => Throw "sequence[0]"
  | _ :: _, first :: _ =>
      if negb (FileNameContent.getPath file =? FileNameContent.getPath first)%string
      then Ret (false, s)
      else
        m <- FileNameContent.matchesPattern file first ;;
        match m with
        | None => Ret (false, s)
        | Some frameNumberIndexes =>
            if inFilesList (FileNameContent.absoluteFileName file) s
            then Ret (false, s)
            else
              match frameNumberStringIndexes s with
              | [] =>
                  let s1 := setIndexes frameNumberIndexes s in
                  let r :=
                    frameLoop first
                      (fun frameNumberStr s' =>
                         insertFrame (stringToInt frameNumberStr)
                                     (FileNameContent.absoluteFileName file) s')
                      frameNumberIndexes "" s1 in
                  if fst r
                  then Ret (insertMember tellg file frameNumberIndexes (snd r))
                  else Ret (false, snd r)
              | _ :: _ =>
                  if listZ_eqb frameNumberIndexes (frameNumberStringIndexes s)
                  then Ret (insertMember tellg file frameNumberIndexes s)
                  else Ret (false, s)
              end
        end
  end.


Definition count (s : t) : Z := Z.of_nat (List.length (filesList s)).


Definition getFirstFrame (s : t) : Z :=
  match filesMap s with
  | [] => INT_MIN
  | (k, _) :: _ => k
  end.

Definition getLastFrame (s : t) : Z :=
  match filesMap s with
  | [] => INT_MAX
  | e :: rest => fst (last rest e)
  end.


(** The first inner loop: at most [NATRON_DIALOG_MAX_SEQUENCES_HOLE]
    absent frames are skipped; [budget] is what [breakCounter] may still
    grow by, so that [++breakCounter] stays far from the limits of [int].
    [None] is the signed overflow of [++first]. *)
Fixpoint skipHole (s : t) (budget : nat) (first breakCounter : Z)
  : option (Z * Z) :=
  match budget with
  | O => Some (first, breakCounter)
  | S budget' =>
      if negb (isInSequence s first)
      then
        match int_add first 1 with
        | Some first' => skipHole s budget' first' (breakCounter + 1)
        | None => None
        end
      else Some (first, breakCounter)
  end.

(** The second inner loop, which extends a chunk; it gives the final
    [next] and [count].  The three conjuncts of the condition are evaluated
    from the left; [prev + 1], [++next] and [++count] are additions of
    [int]. *)
Fixpoint extendChunk (s : t) (fuel : nat) (next prev count : Z)
  : Counted (Z * Z) :=
  match fuel with
  | O => NoFuel
  | S fuel' =>
      if (next <=? getLastFrame s) && isInSequence s next then
        match int_add prev 1 with
        | None => SignedOverflow
        | Some prev1 =>
            if next =? prev1 then
              match int_add next 1, int_add count 1 with
              | Some next', Some count' => extendChunk s fuel' next' next count'
              | _, _ => SignedOverflow
              end
            else Finished (next, count)
        end
      else Finished (next, count)
  end.

(** The outer loop building [chunks]; [int next = first + 1] and
    [first += count] are additions of [int], [--next] undoes an addition
    that was done. *)
Fixpoint chunksLoop (s : t) (fuel : nat) (first : Z) (chunks : list (Z * Z))
  : Counted (list (Z * Z)) :=
  match fuel with
  | O => NoFuel
  | S fuel' =>
      if first <=? getLastFrame s then
        match skipHole s NATRON_DIALOG_MAX_SEQUENCES_HOLE first 0 with
        | None => SignedOverflow
        | Some (first1, breakCounter) =>
            if Z.of_nat NATRON_DIALOG_MAX_SEQUENCES_HOLE <=? breakCounter
            then Finished chunks
            else
              match int_add first1 1 with
              | None => SignedOverflow
              | Some next0 =>
                  match extendChunk s (S (Z.to_nat (getLastFrame s - first1)))
                                    next0 first1 1 with
                  | Finished (next, count) =>
                      match int_add first1 count with
                      | Some first2 =>
                          chunksLoop s fuel' first2
                                     (chunks ++ [(first1, next - 1)])
                      | None => SignedOverflow
                      end
                  | SignedOverflow => SignedOverflow
                  | NoFuel => NoFuel
                  end
              end
        end
      else Finished chunks
  end.

Definition computeChunks (s : t) : Counted (list (Z * Z)) :=
  chunksLoop s (S (Z.to_nat (getLastFrame s - getFirstFrame s + 1)))
             (getFirstFrame s) [].




End SequenceFromFiles.

(** Inserting a list of absolute file names one after the other, as
    [getSequenceOutOfFile] does with the entries of a directory. *)
Fixpoint insertAll (tellg : string -> Z) (names : list string)
         (s : SequenceFromFiles.t) : result SequenceFromFiles.t :=
  match names with
  | [] => Ret s
  | name :: rest =>
      r <- SequenceFromFiles.tryInsertFile tellg (FileNameContent.parse name) s ;;
      insertAll tellg rest (snd r)
  end.

(** A prober for which no file can be opened. *)
Definition noSize : string -> Z := fun _ => -1.

(** The state a [result] holds, the empty sequence standing for [Throw]. *)
Definition stateOf (r : result SequenceFromFiles.t) : SequenceFromFiles.t :=
  match r with
  | Ret s => s
  | Throw _ => SequenceFromFiles.create false
  end.

(** ** Further helpers of the anonymous namespace *)

(** The loop of [removeFileExtension]: [n] is [i + 1], so that [0] stands for
    [i = -1]; the loop stops on a dot, or when [i] gets below [0]. *)
Fixpoint removeExtLoop (filename : string) (n : nat) (extension : string)
  : nat * string :=
  match n with
  | O => (O, extension)
  | S i =>
      match get i filename with
      | Some c =>
          if Ascii.eqb c "." then (n, extension)
          else removeExtLoop filename i (String c extension)
      | None => (n, extension)
      end
  end.

(** [removeFileExtension]: the pair of the returned extension and of the new
    value of the in-out argument [filename].  [substr(0, i)] with [i = -1]
    is [substr(0, npos)], the whole string. *)
Definition removeFileExtension (filename : string) : string * string :=
  let (n, extension) := removeExtLoop filename (length filename) "" in
  (extension,
   match n with
   | O => filename
   | S i => substring 0 i filename
   end).

(** ** Rendering a file name from a pattern *)

(** [extractCommonPartsAndVariablesFromPattern] for the callers that ignore
    the returned boolean: the loop with the state it stops in. *)
Fixpoint patternLoopPartial (prev : ascii) (rest : string) (st : PatternState)
  : bool * PatternState :=
  match rest with
  | EmptyString => (true, st)
  | String c rest' =>
      let next := match rest' with String n _ => n | EmptyString => zero end in
      match patternStep prev c next st with
      | None => (false, st)
      | Some st' => patternLoopPartial c rest' st'
      end
  end.

(** The returned boolean and the two vectors, which keep what was pushed
    before a [return false]. *)
Definition extractVectors (patternUnPathedWithoutExt patternExtension : string)
  : bool * (list string * list (string * Z)) :=
  match patternLoopPartial zero patternUnPathedWithoutExt initPatternState with
  | (false, st) => (false, (commonParts st, variablesByOrder st))
  | (true, st) =>
      let st1 := flushVariable (flushCommonPart st) in
      (true,
       (if strEmpty patternExtension then commonParts st1
        else (commonParts st1 ++ [String "." patternExtension])%list,
        variablesByOrder st1))
  end.

(** The loops that prepend ['0'] while the number is shorter than the
    field: [k] is the number of turns. *)
Fixpoint prependZeros (k : nat) (frameNoStr : string) : string :=
  match k with
  | O => frameNoStr
  | S k' => prependZeros k' (String "0" frameNoStr)
  end.

Definition padFrame (width : nat) (frameNoStr : string) : string :=
  prependZeros (width - length frameNoStr) frameNoStr.

(** The text of a view, short ([%v]) or long ([%V]). *)
Definition viewText (long : bool) (viewNumber : Z) : string :=
  if viewNumber =? 0 then (if long then "left" else "l")
  else if viewNumber =? 1 then (if long then "right" else "r")
  else "view" ++ stringFromInt viewNumber.

(** What replaces one variable (lines 1156-1200), [Throw] for a variable of
    no known kind. *)
Definition renderVariable (pattern variable : string) (frameNumber viewNumber : Z)
  : result string :=
  if contains_char "#" variable then
    Ret (padFrame (length variable) (stringFromInt frameNumber))
  else if match str_find variable "%v" 0 with Some _ => true | None => false end
  then Ret (viewText false viewNumber)
  else if match str_find variable "%V" 0 with Some _ => true | None => false end
  then Ret (viewText true viewNumber)
  else if startsWith variable "%0" false && endsWith variable "d" then
    let digitsCountStr :=
      removeAllOccurences (removeAllOccurences variable "%0" false) "d" false in
    let digitsCount := stringToInt digitsCountStr in
    Ret (padFrame (Z.to_nat digitsCount) (stringFromInt frameNumber))
  else if (variable =? "%d")%string then Ret (stringFromInt frameNumber)
  else Throw ("Unrecognized pattern: " ++ pattern).

(** The loop over the variables: each is searched in [output], whatever the
    case and from the beginning since [findStr] is called without case, and
    replaced there.  When it is not found, [replace] is called with [npos]
    and throws, unless the variable is of no known kind, which is thrown
    first. *)
Fixpoint renderLoop (pattern : string) (variables : list (string * Z))
         (frameNumber viewNumber : Z) (lastVariablePos : option nat)
         (output : string) : result string :=
  match variables with
  | [] => Ret output
  | (variable, _) :: rest =>
      text <- renderVariable pattern variable frameNumber viewNumber ;;
      match findStr output variable
                    (match lastVariablePos with Some p => p | None => 0%nat end)
                    false with
      | None => Throw "basic_string::replace"
      | Some pos =>
          renderLoop pattern rest frameNumber viewNumber (Some pos)
                     (replace output pos (length variable) text)
      end
  end.

(** [generateFileNameFromPattern] *)
Definition generateFileNameFromPattern (pattern : string)
           (frameNumber viewNumber : Z) : result string :=
  let patternUnPathed := snd (removePath pattern) in
  let (patternExtension, patternUnPathed) := removeFileExtension patternUnPathed in
  let (patternUnPathed, patternExtension) :=
    if strEmpty patternUnPathed then (patternExtension, "")
    else (patternUnPathed, patternExtension) in
  let variablesByOrder :=
    snd (snd (extractVectors patternUnPathed patternExtension)) in
  renderLoop pattern variablesByOrder frameNumber viewNumber None pattern.

(** ** Collecting the sequence of a file *)

(** [getFilesFromDir]: the names of the entries of a directory, as
    [tinydir] lists them with the flag [is_dir], that are files. *)
Fixpoint getFilesFromDir (dir : list (string * bool)) : list string :=
  match dir with
  | [] => []
  | (filename, is_dir) :: rest =>
      if is_dir then getFilesFromDir rest
      else if (filename =? ".")%string || (filename =? "..")%string
      then getFilesFromDir rest
      else filename :: getFilesFromDir rest
  end.

(** [SequenceFromFiles::getSequenceOutOfFile]; [opendir] is [tinydir_open]
    followed by the reading of the entries, [None] when it returns [-1].
    The returned boolean and the sequence after the call. *)
Definition getSequenceOutOfFile (tellg : string -> Z)
           (opendir : string -> option (list (string * bool)))
           (absoluteFileName : string) (sequence : SequenceFromFiles.t)
  : result (bool * SequenceFromFiles.t) :=
  let firstFile := FileNameContent.parse absoluteFileName in
  r <- SequenceFromFiles.tryInsertFile tellg firstFile sequence ;;
  match opendir (FileNameContent.getPath firstFile) with
  | None => Ret (false, snd r)
  | Some dir =>
      s <- insertAll tellg
             (map (fun name => FileNameContent.getPath firstFile ++ name)
                  (getFilesFromDir dir))
             (snd r) ;;
      Ret (true, s)
  end.

(** ** Concrete inputs *)

(** One member. *)
Definition seq_seeded : SequenceFromFiles.t :=
  stateOf (insertAll noSize ["/d/a1.png"] (SequenceFromFiles.create false)).

(** Frames 1, 2, 3, 7, 8 and 9 of [/d/a#.png]. *)
Definition seq_1_3_7_9 : SequenceFromFiles.t :=
  stateOf (insertAll noSize
             ["/d/a1.png"; "/d/a2.png"; "/d/a3.png";
              "/d/a7.png"; "/d/a8.png"; "/d/a9.png"]
             (SequenceFromFiles.create false)).

(** Baseline [a1_b1.png], then [a1_b2.png]: locked on the second number. *)
Definition seq_locked : SequenceFromFiles.t :=
  stateOf (insertAll noSize ["/d/a1_b1.png"; "/d/a1_b2.png"]
                     (SequenceFromFiles.create false)).

(** One member, [a1_b2.png]. *)
Definition seq_a1_b2 : SequenceFromFiles.t :=
  stateOf (insertAll noSize ["/d/a1_b2.png"] (SequenceFromFiles.create false)).

(** One member, [a5_b5.png]. *)
Definition seq_a5_b5 : SequenceFromFiles.t :=
  stateOf (insertAll noSize ["/d/a5_b5.png"] (SequenceFromFiles.create false)).

(** Two members, [a1.png] and [a2.png]. *)
Definition seq_a1_a2 : SequenceFromFiles.t :=
  stateOf (insertAll noSize ["/d/a1.png"; "/d/a2.png"]
                     (SequenceFromFiles.create false)).

(** The state after a call, the state before it standing for [Throw]. *)
Definition after (r : result (bool * SequenceFromFiles.t))
           (s : SequenceFromFiles.t) : SequenceFromFiles.t :=
  match r with
  | Ret (_, s') => s'
  | Throw _ => s
  end.

(** The boolean a call returned. *)
Definition returned (r : result (bool * SequenceFromFiles.t)) : option bool :=
  match r with
  | Ret (b, _) => Some b
  | Throw _ => None
  end.

(** The calls examined below. *)
Definition call_a2_b3 : result (bool * SequenceFromFiles.t) :=
  SequenceFromFiles.tryInsertFile
    noSize (FileNameContent.parse "/d/a2_b3.png") seq_a1_b2.

Definition call_a4_b6 : result (bool * SequenceFromFiles.t) :=
  SequenceFromFiles.tryInsertFile
    noSize (FileNameContent.parse "/d/a4_b6.png") seq_a5_b5.

Definition call_a5_b2 : result (bool * SequenceFromFiles.t) :=
  SequenceFromFiles.tryInsertFile
    noSize (FileNameContent.parse "/d/a5_b2.png") seq_locked.

(** ** Vocabulary of the statements *)

(** Every character is a decimal digit. *)
Definition allDigits (s : string) : bool :=
  forallb isdigit (list_ascii_of_string s).

(** Is the element a digit run? *)
Definition isFrame (e : FileNameContent.FileNameElement) : bool :=
  FileNameContent.Type_eqb (FileNameContent.type e) FileNameContent.FRAME_NUMBER.

(** The number of digit runs among the elements. *)
Definition digitRunsOf (elements : list FileNameContent.FileNameElement) : nat :=
  List.length (filter isFrame elements).

Definition digitRuns (c : FileNameContent.t) : nat :=
  digitRunsOf (FileNameContent.orderedElements c).

(** The text the elements spell, one after the other. *)
Fixpoint concatData (elements : list FileNameContent.FileNameElement) : string :=
  match elements with
  | [] => ""
  | e :: rest => FileNameContent.data e ++ concatData rest
  end.

(** No character is a decimal digit. *)
Definition noDigits (s : string) : bool :=
  forallb (fun c => negb (isdigit c)) (list_ascii_of_string s).

(** An element is a run: it is not empty, and holds digits only when it is
    a [FRAME_NUMBER], no digit at all when it is a [TEXT]. *)
Definition isRun (e : FileNameContent.FileNameElement) : bool :=
  negb (strEmpty (FileNameContent.data e))
  && match FileNameContent.type e with
     | FileNameContent.FRAME_NUMBER => allDigits (FileNameContent.data e)
     | FileNameContent.TEXT => noDigits (FileNameContent.data e)
     end.

(** No two neighbours have the same kind. *)
Fixpoint alternating (elements : list FileNameContent.FileNameElement) : bool :=
  match elements with
  | e1 :: rest =>
      match rest with
      | e2 :: _ =>
          negb (FileNameContent.Type_eqb (FileNameContent.type e1)
                                         (FileNameContent.type e2))
          && alternating rest
      | [] => true
      end
  | [] => true
  end.

(** The kind of the last element. *)
Fixpoint lastType (elements : list FileNameContent.FileNameElement)
  : option FileNameContent.Type_ :=
  match elements with
  | [] => None
  | e :: rest =>
      match rest with
      | [] => Some (FileNameContent.type e)
      | _ :: _ => lastType rest
      end
  end.

(** What stands for an element in the canonical pattern: a text as it is,
    a digit run as one ['#'] per digit followed by its ordinal. *)
Definition canonicalPiece (ordinal : nat) (e : FileNameContent.FileNameElement)
  : string :=
  match FileNameContent.type e with
  | FileNameContent.TEXT => FileNameContent.data e
  | FileNameContent.FRAME_NUMBER =>
      hashes (length (FileNameContent.data e)) ++ stringFromInt (Z.of_nat ordinal)
  end.

(** The canonical pattern of [rest], the elements [seen] coming before:
    the ordinal of a digit run is the number of digit runs before it. *)
Fixpoint canonicalOf (seen rest : list FileNameContent.FileNameElement) : string :=
  match rest with
  | [] => ""
  | e :: rest' =>
      canonicalPiece (digitRunsOf seen) e ++ canonicalOf (seen ++ [e]) rest'
  end.

(** [part] occurs somewhere in [filename]. *)
Definition occursIn (filename part : string) : bool :=
  match str_find filename part 0 with
  | Some _ => true
  | None => false
  end.

(** The string in upper case. *)
Fixpoint upcase (s : string) : string :=
  match s with
  | EmptyString => EmptyString
  | String c r => String (toupper c) (upcase r)
  end.

(** [s] begins with [p], letter case being ignored. *)
Definition ciPrefix (p s : string) : Prop :=
  exists p' rest, s = p' ++ rest /\ upcase p' = upcase p.

(** The files list names the members, in order. *)
Definition Members (s : SequenceFromFiles.t) : Prop :=
  SequenceFromFiles.filesList s
  = map FileNameContent.absoluteFileName (SequenceFromFiles.sequence s).

(** [std::abs(thisNumber - otherNumber)], on what [stringToInt] reads. *)
Definition readDiff (a b : string) : Z :=
  Z.abs (stringToInt a - stringToInt b).

(** What the first loop of [matchesPattern] collects at the ordinal [n]:
    the digit runs [a] of [this] and [b] of [other], when they differ and
    the local [valid] is left [true]. *)
Definition collected (this other : FileNameContent.t) (n : Z) (a b : string)
  : Prop :=
  FileNameContent.getNumberByIndex this n = Some a
  /\ FileNameContent.getNumberByIndex other n = Some b
  /\ a <> b
  /\ FileNameContent.validPair a b = Ret true.

(** The same over two lists of elements, the first digit run having the
    ordinal [k]. *)
Definition collectedFrom (mine others : list FileNameContent.FileNameElement)
           (k n : Z) (a b : string) : Prop :=
  FileNameContent.getNumberLoop mine k n = Some a
  /\ FileNameContent.getNumberLoop others k n = Some b
  /\ a <> b
  /\ FileNameContent.validPair a b = Ret true.








(** Neither ['#'] nor ['%'] occurs in the string. *)
Definition plainText (s : string) : bool :=
  negb (contains_char "#" s) && negb (contains_char "%" s).

(** The last character of [s], or [prev] when [s] is empty. *)
Fixpoint lastChar (s : string) (prev : ascii) : ascii :=
  match s with
  | EmptyString => prev
  | String c r => lastChar r c
  end.

(** The literal tokens a list of texts gives: the empty ones are not
    tokens. *)
Definition literals (texts : list string) : list string :=
  filter (fun t => negb (strEmpty t)) texts.

(** The trailing literal of the extension. *)
Definition extensionLiteral (patternExtension : string) : list string :=
  if strEmpty patternExtension then [] else [String "." patternExtension].

(** What may stand between ['%'] and the closing letter of a printf-like
    field: nothing, or a ['0'] followed by digits. *)
Definition fieldBody (body : string) : bool :=
  match body with
  | EmptyString => true
  | String c digits => Ascii.eqb c "0" && allDigits digits
  end.

(** The letters that close a printf-like field. *)
Definition closingLetter (t : ascii) : bool :=
  Ascii.eqb t "d" || Ascii.eqb t "v" || Ascii.eqb t "V".

(** Neither ['/'] nor a backslash occurs in the string. *)
Definition noSeparator (s : string) : bool :=
  negb (contains_char "/" s) && negb (contains_char "\" s).

(** The characters at which the matcher starts looking for a view name. *)
Definition viewTrigger (c : ascii) : bool :=
  let clower := tolower c in
  Ascii.eqb clower "l" || Ascii.eqb clower "r" || Ascii.eqb clower "v".

(** A text the matcher walks over one character at a time: no digit, and
    no letter that may open a view name. *)
Fixpoint quietText (s : string) : bool :=
  match s with
  | EmptyString => true
  | String c r => negb (isdigit c) && negb (viewTrigger c) && quietText r
  end.

(** The main loop of the matcher, started in [st], ends with [r]. *)
Definition runs (filename : string) (variablesOrdered : list (string * Z))
           (st : MatchState) (r : MatchResult) : Prop :=
  exists fuel, matchLoop fuel filename variablesOrdered st = Some r.

(** The verdict of the matcher that goes with a verdict of [checkVariable]. *)
Definition verdictOf (checked : result (option Z)) : MatchResult :=
  match checked with
  | Ret (Some fnumber) => Matched (Some fnumber) (-1)
  | Ret None => NoMatch
  | Throw msg => Thrown msg
  end.

(** A candidate with the two numbers exchanged. *)
Definition swapPotential (p : FileNameContent.Potential)
  : FileNameContent.Potential :=
  (fst p, (snd (snd p), fst (snd p))).

(** The digit runs of the elements, from the left. *)
Definition numbersOf (elements : list FileNameContent.FileNameElement)
  : list string :=
  map FileNameContent.data (filter isFrame elements).

(** The elements written as a pattern: a text as it is, and the digit run
    of ordinal [n] as one ['#'] per digit when [n] is among [indexes], as
    it is otherwise. *)
Fixpoint patternWith (indexes : list Z)
         (elements : list FileNameContent.FileNameElement) (n : Z) : string :=
  match elements with
  | [] => ""
  | e :: rest =>
      match FileNameContent.type e with
      | FileNameContent.TEXT =>
          FileNameContent.data e ++ patternWith indexes rest n
      | FileNameContent.FRAME_NUMBER =>
          (if existsb (Z.eqb n) indexes
           then hashes (length (FileNameContent.data e))
           else FileNameContent.data e)
            ++ patternWith indexes rest (n + 1)
      end
  end.

(** [s'] holds what [s] holds and possibly more: members and files are
    appended, the entries of the frame map are kept, the frame slots stay
    once they are fixed, and the size estimation is not switched. *)
Definition Extends (s s' : SequenceFromFiles.t) : Prop :=
  (exists added,
      SequenceFromFiles.sequence s' = (SequenceFromFiles.sequence s ++ added)%list
      /\ SequenceFromFiles.filesList s'
         = (SequenceFromFiles.filesList s
              ++ map FileNameContent.absoluteFileName added)%list)
  /\ (forall k v,
         map_find k (SequenceFromFiles.filesMap s) = Some v ->
         map_find k (SequenceFromFiles.filesMap s') = Some v)
  /\ (SequenceFromFiles.frameNumberStringIndexes s <> [] ->
      SequenceFromFiles.frameNumberStringIndexes s'
      = SequenceFromFiles.frameNumberStringIndexes s)
  /\ SequenceFromFiles.sizeEstimationEnabled s'
     = SequenceFromFiles.sizeEstimationEnabled s.

(** The first digit run, among those of the given ordinals, that
    [getNumberByIndex] can read. *)
Fixpoint firstNumber (content : FileNameContent.t) (indexes : list Z)
  : option string :=
  match indexes with
  | [] => None
  | index :: rest =>
      match FileNameContent.getNumberByIndex content index with
      | Some d => Some d
      | None => firstNumber content rest
      end
  end.

(** [(a, b)] is a range of frames of the sequence: every frame from [a] to
    [b] is there, [b] is not above the last frame, and the frame after
    [b] is missing unless [b] is the last frame. *)
Definition isRange (s : SequenceFromFiles.t) (chunk : Z * Z) : Prop :=
  fst chunk <= snd chunk <= SequenceFromFiles.getLastFrame s
  /\ (forall k, fst chunk <= k <= snd chunk ->
                SequenceFromFiles.isInSequence s k = true)
  /\ (snd chunk = SequenceFromFiles.getLastFrame s
      \/ SequenceFromFiles.isInSequence s (snd chunk + 1) = false).

(** The keys grow strictly from each one to the next. *)
Fixpoint increasing (keys : list Z) : Prop :=
  match keys with
  | [] => True
  | a :: rest =>
      match rest with
      | b :: _ => a < b
      | [] => True
      end
      /\ increasing rest
  end.

(** The sequence collected around the file [path0]: the files list names
    the members, the first member is [path0] tokenized, every member is in
    its directory, and no file is listed twice. *)
Definition Listed (path0 : string) (s : SequenceFromFiles.t) : Prop :=
  Members s
  /\ (exists rest,
         SequenceFromFiles.sequence s = FileNameContent.parse path0 :: rest)
  /\ Forall (fun c => FileNameContent.getPath c
                      = FileNameContent.getPath (FileNameContent.parse path0))
            (SequenceFromFiles.sequence s)
  /\ NoDup (SequenceFromFiles.filesList s).

(** What holds of the state of the tokenizing loop once [consumed] has
    been read. *)
Record ParseInvariant (consumed : string) (st : FileNameContent.ParseState)
  : Prop := mkParseInvariant {
  inv_spelled :
    concatData (FileNameContent.p_elements st)
    ++ FileNameContent.lastNumberStr st ++ FileNameContent.lastTextPart st
    = consumed;
  inv_one_pending :
    FileNameContent.lastNumberStr st = "" \/ FileNameContent.lastTextPart st = "";
  inv_fresh :
    FileNameContent.lastNumberStr st = "" ->
    FileNameContent.lastTextPart st = "" ->
    FileNameContent.p_elements st = [];
  inv_number : allDigits (FileNameContent.lastNumberStr st) = true;
  inv_text : noDigits (FileNameContent.lastTextPart st) = true;
  inv_runs : forallb isRun (FileNameContent.p_elements st) = true;
  inv_alternating : alternating (FileNameContent.p_elements st) = true;
  inv_before_number :
    FileNameContent.lastNumberStr st <> "" ->
    lastType (FileNameContent.p_elements st) <> Some FileNameContent.FRAME_NUMBER;
  inv_before_text :
    FileNameContent.lastTextPart st <> "" ->
    lastType (FileNameContent.p_elements st) <> Some FileNameContent.TEXT;
  inv_flag :
    FileNameContent.p_hasSingleNumber st
    = Nat.odd (digitRunsOf (FileNameContent.p_elements st))
}.

(** What the second loop has selected once the pairs [pre] are behind:
    [minimum] bounds their differences from below, it is one of them unless
    it still is [INT_MAX], and [minIndexes] holds the positions where it is
    reached. *)
Definition MinInvariant (pre : list FileNameContent.Potential) (minimum : Z)
           (minIndexes : list nat) : Prop :=
  (forall p, In p pre -> minimum <= FileNameContent.potentialDiff p)
  /\ ((exists p0, In p0 pre /\ FileNameContent.potentialDiff p0 = minimum)
      \/ minimum = INT_MAX)
  /\ (forall j, In j minIndexes <->
                exists p, nth_error pre j = Some p
                          /\ FileNameContent.potentialDiff p = minimum).

(** The fields of the state of the tokenizing loop are computed away. *)
Ltac parse_fields :=
  cbn [FileNameContent.lastNumberStr FileNameContent.lastTextPart
       FileNameContent.p_elements FileNameContent.p_hasSingleNumber].

Ltac parse_fields_all :=
  cbn [FileNameContent.lastNumberStr FileNameContent.lastTextPart
       FileNameContent.p_elements FileNameContent.p_hasSingleNumber] in *.

(** * Properties *)

(** ** Strings *)

Lemma str_length_app (a b : string) : length (a ++ b) = (length a + length b)%nat.
Proof. induction a as [|c a IH]; simpl; [reflexivity | now rewrite IH]. Qed.

Lemma string_app_assoc (a b c : string) : (a ++ b) ++ c = a ++ b ++ c.
Proof. induction a as [|x a IH]; simpl; [reflexivity | now rewrite IH]. Qed.

Lemma string_app_nil_r (a : string) : a ++ "" = a.
Proof. induction a as [|x a IH]; simpl; [reflexivity | now rewrite IH]. Qed.

Lemma length_substring (s : string) :
  forall n m, length (substring n m s) = Nat.min m (length s - n).
Proof.
  induction s as [|c s IH]; intros [|n] [|m]; cbn [substring length];
    rewrite ?IH; lia.
Qed.

Lemma substring_all (s : string) : substring 0 (length s) s = s.
Proof. induction s as [|c s IH]; simpl; [reflexivity | now rewrite IH]. Qed.


(** *** Case-insensitive search *)






(** [startsWith] without case: the needle matches at the very beginning. *)
Lemma startsWith_ci (str prefix : string) :
  prefix <> "" -> startsWith str prefix false = ci_match_here str prefix.
Proof.
  intros Hne. unfold startsWith, findStr, ci_find_substr.
  destruct str as [|a r].
  - destruct prefix; [contradiction | reflexivity].
  - cbn [ci_search].
    destruct (ci_match_here (String a r) prefix); cbn [length Nat.eqb];
      [reflexivity|].
    now destruct (ci_search r prefix =? length r)%nat.
Qed.

Lemma upcase_length (s : string) : length (upcase s) = length s.
Proof. induction s as [|c s IH]; simpl; [reflexivity | now rewrite IH]. Qed.

Lemma ci_match_here_spec (str1 str2 : string) :
  ci_match_here str1 str2 = true <-> ciPrefix str2 str1.
Proof.
  unfold ciPrefix. revert str1.
  induction str2 as [|b r2 IH]; intros str1; simpl.
  - split; [intros _; now exists "", str1 | intros _; now destruct str1].
  - destruct str1 as [|a r1].
    + split; [discriminate|]. intros (p' & rest & H1 & H2).
      destruct p'; simpl in *; discriminate.
    + cbn [ci_match_here]. unfold my_equal.
      rewrite andb_true_iff, Ascii.eqb_eq, IH. split.
      * intros (Hc & p' & rest & -> & Hu).
        exists (String a p'), rest. simpl. now rewrite Hc, Hu.
      * intros (p' & rest & H1 & H2).
        destruct p' as [|c p']; simpl in *; [discriminate|].
        injection H1 as <- ->. injection H2 as Hc Hu.
        split; [exact Hc|]. now exists p', rest.
Qed.

(** *** Digits *)

Lemma isdigit_not_view (a : ascii) : isdigit a = true -> my_equal a "v" = false.
Proof.
  destruct a as [[] [] [] [] [] [] [] []]; intros H; try discriminate H;
    reflexivity.
Qed.

Lemma isdigit_plain (a : ascii) :
  isdigit a = true ->
  isspace a = false /\ a <> "-"%char /\ a <> "+"%char /\ 0 <= digitValue a <= 9.
Proof.
  destruct a as [[] [] [] [] [] [] [] []]; intros H; try discriminate H;
    (repeat split; [discriminate | discriminate | vm_compute; discriminate
                    | vm_compute; discriminate]).
Qed.

Lemma allDigits_cons (a : ascii) (s : string) :
  allDigits (String a s) = isdigit a && allDigits s.
Proof. reflexivity. Qed.

(** A run of digits holds no occurrence of [view]. *)
Lemma ci_search_digits (digits : string) :
  allDigits digits = true -> ci_search digits "view" = length digits.
Proof.
  induction digits as [|a r IH]; [reflexivity|].
  rewrite allDigits_cons, andb_true_iff. intros [Ha Hr].
  cbn [ci_search ci_match_here length].
  now rewrite (isdigit_not_view a Ha), (IH Hr).
Qed.

Lemma removeAll_view_digits (digits : string) :
  allDigits digits = true ->
  removeAllOccurences ("view" ++ digits) "view" false = digits.
Proof.
  intros H. unfold removeAllOccurences.
  cbn [append length Nat.eqb removeAllLoop].
  assert (E1 : findStr (String "v" (String "i" (String "e" (String "w" digits))))
                       "view" 0 false = Some 0%nat).
  { unfold findStr, ci_find_substr. cbn [ci_search ci_match_here].
    replace (my_equal "v" "v") with true by reflexivity.
    replace (my_equal "i" "i") with true by reflexivity.
    replace (my_equal "e" "e") with true by reflexivity.
    replace (my_equal "w" "w") with true by reflexivity.
    destruct digits; reflexivity. }
  rewrite E1.
  assert (E2 : erase (String "v" (String "i" (String "e" (String "w" digits))))
                     0 4 = digits).
  { unfold erase. cbn [length substring Nat.add Nat.sub append].
    rewrite Nat.sub_0_r. apply substring_all. }
  rewrite E2.
  assert (E3 : findStr digits "view" 0 false = None).
  { unfold findStr, ci_find_substr. rewrite (ci_search_digits _ H).
    now rewrite Nat.eqb_refl. }
  now rewrite E3.
Qed.

Lemma readDigits_nonneg (s : string) :
  forall acc, 0 <= acc -> 0 <= readDigits s acc.
Proof.
  induction s as [|a r IH]; intros acc Hacc; cbn [readDigits]; [exact Hacc|].
  destruct (isdigit a) eqn:E; [|exact Hacc].
  apply IH. destruct (isdigit_plain a E) as (_ & _ & _ & Hd). lia.
Qed.

(** On a run of digits [stringToInt] reads the whole number and clamps it. *)
Lemma stringToInt_digits (digits : string) :
  allDigits digits = true ->
  stringToInt digits = Z.min (readDigits digits 0) INT_MAX.
Proof.
  intros H. unfold stringToInt.
  assert (E : skipws digits = digits).
  { destruct digits as [|a r]; [reflexivity|].
    rewrite allDigits_cons, andb_true_iff in H. destruct H as [Ha _].
    simpl. now destruct (isdigit_plain a Ha) as (-> & _). }
  rewrite E.
  assert (R : clampInt (readDigits digits 0) = Z.min (readDigits digits 0) INT_MAX).
  { pose proof (readDigits_nonneg digits 0 (Z.le_refl 0)) as Hn.
    unfold clampInt, INT_MAX, INT_MIN in *.
    destruct (Z.gtb_spec (readDigits digits 0) 2147483647);
      destruct (Z.ltb_spec (readDigits digits 0) (-2147483648)); lia. }
  destruct digits as [|a r]; [exact R|].
  rewrite allDigits_cons, andb_true_iff in H. destruct H as [Ha _].
  destruct (isdigit_plain a Ha) as (_ & Hm & Hp & _).
  destruct (Ascii.eqb_spec a "-"); [contradiction|].
  destruct (Ascii.eqb_spec a "+"); [contradiction|].
  destruct a as [[] [] [] [] [] [] [] []]; try exact R; contradiction.
Qed.

Lemma stringToInt_digits_range (digits : string) :
  allDigits digits = true -> 0 <= stringToInt digits <= INT_MAX.
Proof.
  intros H. rewrite (stringToInt_digits _ H).
  pose proof (readDigits_nonneg digits 0 (Z.le_refl 0)).
  unfold INT_MAX. lia.
Qed.

(** ** The variable validator *)

(** C7 (as amended). Validated as a short view, a substring is accepted by
    the [%v] token exactly when it is ["l"] (value 0), ["r"] (value 1), or
    begins with ["view"] in any letter case; in the last case the value is
    what [stringToInt] reads once every occurrence of ["view"] is removed,
    which for ["view"] followed by decimal digits is the number these digits
    spell.  Every other substring is refused. *)
Theorem C7_short_view_validation :
  (forall variable : string,
      (variable = "l" /\ checkVariable "%v" variable 1 = Ret (Some 0))
      \/ (variable = "r" /\ checkVariable "%v" variable 1 = Ret (Some 1))
      \/ (ciPrefix "view" variable
          /\ checkVariable "%v" variable 1
             = Ret (Some (stringToInt (removeAllOccurences variable "view" false))))
      \/ (variable <> "l" /\ variable <> "r" /\ ~ ciPrefix "view" variable
          /\ checkVariable "%v" variable 1 = Ret None))
  /\ (forall digits : string,
         allDigits digits = true ->
         checkVariable "%v" ("view" ++ digits) 1 = Ret (Some (stringToInt digits))).
Proof.
  assert (Hview : "view" <> "") by discriminate.
  split.
  - intros variable. unfold checkVariable. cbn [String.eqb Ascii.eqb Bool.eqb].
    cbn [Z.eqb Pos.eqb negb].
    destruct (String.eqb_spec variable "r") as [->|Hr].
    { right; left. split; reflexivity. }
    destruct (String.eqb_spec variable "l") as [->|Hl].
    { left. split; reflexivity. }
    rewrite (startsWith_ci variable "view" Hview).
    destruct (ci_match_here variable "view") eqn:E.
    + right; right; left. split; [now apply ci_match_here_spec | reflexivity].
    + right; right; right. repeat split; try assumption.
      intros Hc. apply ci_match_here_spec in Hc. congruence.
  - intros digits H. unfold checkVariable. cbn [String.eqb Ascii.eqb Bool.eqb].
    cbn [Z.eqb Pos.eqb negb].
    replace (("view" ++ digits =? "r")%string) with false by reflexivity.
    replace (("view" ++ digits =? "l")%string) with false by reflexivity.
    rewrite (startsWith_ci _ "view" Hview).
    replace (ci_match_here ("view" ++ digits) "view") with true.
    + now rewrite (removeAll_view_digits _ H).
    + symmetry. apply ci_match_here_spec. now exists "view", digits.
Qed.

(** C7 (as stated) fails: ["viewx"] is neither ["l"], nor ["r"], nor
    ["view"] followed by digits, and yet it is accepted, with value 0. *)
Lemma C7_counterexample :
  checkVariable "%v" "viewx" 1 = Ret (Some 0)
  /\ checkVariable "%v" "viewx" 1 <> Ret None.
Proof. split; [reflexivity | discriminate]. Qed.

(** The tokens other than [%d] refuse a kind that is not theirs. *)
Lemma checkVariable_kind_checked (variable : string) (type : Z) :
  (type <> 1 -> checkVariable "%v" variable type = Ret None)
  /\ (type <> 2 -> checkVariable "%V" variable type = Ret None)
  /\ (type <> 0 -> forall n, checkVariable (hashes (S n)) variable type = Ret None)
  /\ (type <> 0 -> checkVariable "%04d" variable type = Ret None).
Proof.
  repeat split; intros H; try intros n; unfold checkVariable;
    cbn [String.eqb Ascii.eqb Bool.eqb hashes contains_char orb];
    try (replace (startsWith "%04d" "%0" false && endsWith "%04d" "d")
          with true by reflexivity);
    destruct (Z.eqb_spec type 1); destruct (Z.eqb_spec type 2);
    destruct (Z.eqb_spec type 0); try contradiction; try lia; reflexivity.
Qed.

(** C8. The [%d] branch of [checkVariable] never looks at the kind it is
    asked to validate: whatever the kind, the substring is accepted with the
    value [stringToInt] reads.  So ["left"] is validated as a long view
    against [%d], and the pattern [a%d] matches the file name [aleft] with
    view 0. *)
Theorem C8_loose_d_ignores_kind :
  (forall (variable : string) (type : Z),
      checkVariable "%d" variable type = Ret (Some (stringToInt variable)))
  /\ checkVariable "%d" "left" 2 = Ret (Some 0)
  /\ checkVariable "%d" "12" 1 = Ret (Some 12)
  /\ extractCommonPartsAndVariablesFromPattern "a%d" "" = Some (["a"], [("%d", 1)])
  /\ matchesPattern "aleft" ["a"] [("%d", 1)] = Matched None 0.
Proof. repeat split. Qed.

(** ** The filename matcher *)

(** The literal-containment loop only asks that each common part occurs
    somewhere in the file name. *)
Lemma commonPartsLoop_occurs (filename : string) (parts : list string) :
  commonPartsLoop filename parts (-1) = forallb (occursIn filename) parts.
Proof.
  induction parts as [|part parts IH]; [reflexivity|].
  cbn [commonPartsLoop forallb]. unfold findStr, occursIn.
  replace (-1 =? -1) with true by reflexivity.
  destruct (str_find filename part 0) as [pos|]; [|reflexivity].
  destruct (Z.leb_spec (Z.of_nat pos) (-1)); [lia | exact IH].
Qed.

(** C1. The order of the literal tokens is not enforced: [lastPartPos] is
    never assigned, so every literal is searched from the beginning of the
    file name and the test [pos <= lastPartPos] never holds.  The tokens of
    the pattern [a#b] are the literals [a], [b] and the variable [#]; the
    file name [b1a] holds [b] before [a] and is accepted, with frame 1. *)
Theorem C1_literal_order_not_enforced :
  (forall (filename : string) (parts : list string),
      commonPartsLoop filename parts (-1)
      = commonPartsLoop filename (rev parts) (-1))
  /\ extractCommonPartsAndVariablesFromPattern "a#b" ""
     = Some (["a"; "b"], [("#", 1)])
  /\ str_find "b1a" "a" 0 = Some 2%nat
  /\ str_find "b1a" "b" 0 = Some 0%nat
  /\ matchesPattern "b1a" ["a"; "b"] [("#", 1)] = Matched (Some 1) (-1).
Proof.
  split; [|repeat split].
  intros filename parts. rewrite !commonPartsLoop_occurs.
  induction parts as [|part parts IH]; [reflexivity|].
  cbn [rev forallb]. rewrite forallb_app. cbn [forallb].
  rewrite IH. destruct (occursIn filename part), (forallb (occursIn filename) (rev parts));
    reflexivity.
Qed.

(** *** The main loop ends within its fuel *)

Lemma flushDigits_cursor (vars : list (string * Z)) (st st' : MatchState) :
  flushDigits vars st = Continue st' -> m_i st' = m_i st.
Proof.
  unfold flushDigits. destruct (strEmpty (m_variable st)); [now intros [= <-]|].
  destruct (nth_error vars (m_nextVariableIndex st)) as [[token cnt]|];
    [|discriminate].
  destruct (negb (cnt =? m_commonCharactersFound st)); [discriminate|].
  destruct (checkVariable token (m_variable st) 0) as [[fnumber|]|];
    try discriminate.
  destruct (frameDisagrees st fnumber); [discriminate|]. now intros [= <-].
Qed.

Lemma shortView_cursor (vars : list (string * Z)) (st st' : MatchState) (v : Z) :
  shortView vars st v = Continue st' -> (m_i st < m_i st')%nat.
Proof.
  unfold shortView.
  destruct (nth_error vars (m_nextVariableIndex st)) as [[token cnt]|];
    [|discriminate].
  destruct ((token =? "%v")%string && (cnt =? m_commonCharactersFound st)).
  - destruct (m_wasViewNumberSet st && negb (m_viewNumber st =? v));
      [discriminate|]. intros [= <-]. simpl. lia.
  - intros [= <-]. simpl. lia.
Qed.

Lemma longView_cursor (vars : list (string * Z)) (st st' : MatchState)
      (text : string) (type : string -> Z) :
  (0 < length text)%nat ->
  longView vars st text type = Continue st' -> (m_i st < m_i st')%nat.
Proof.
  intros Hlen. unfold longView.
  destruct (nth_error vars (m_nextVariableIndex st)) as [[token cnt]|];
    [|discriminate].
  destruct (negb (cnt =? m_commonCharactersFound st)); [discriminate|].
  destruct (checkVariable token text (type token)) as [[viewNo|]|];
    try discriminate.
  destruct (viewDisagrees st viewNo); [discriminate|].
  intros [= <-]. simpl. lia.
Qed.

Lemma viewPhase_cursor (filename : string) (vars : list (string * Z))
      (c : ascii) (st st' : MatchState) :
  viewPhase filename vars c st = Continue st' -> (m_i st < m_i st')%nat.
Proof.
  unfold viewPhase.
  repeat match goal with
         | |- context [if ?b then _ else _] => destruct b
         end;
    try (apply shortView_cursor);
    try (apply longView_cursor; cbn [length append]; lia);
    intros [= <-]; simpl; lia.
Qed.

Lemma matchStep_cursor (filename : string) (vars : list (string * Z))
      (st st' : MatchState) :
  matchStep filename vars st = Continue st' -> (m_i st < m_i st')%nat.
Proof.
  unfold matchStep. destruct (get (m_i st) filename) as [c|]; [|discriminate].
  destruct (isdigit c).
  - intros [= <-]. simpl. lia.
  - match goal with
    | |- context [flushDigits vars ?s0] =>
        destruct (flushDigits vars s0) as [st1|] eqn:E; [|discriminate]
    end.
    apply flushDigits_cursor in E. simpl in E.
    intros H. apply viewPhase_cursor in H. lia.
Qed.

Lemma matchLoop_total (filename : string) (vars : list (string * Z)) :
  forall fuel st,
    (length filename - m_i st < fuel)%nat ->
    matchLoop fuel filename vars st <> None.
Proof.
  induction fuel as [|fuel IH]; intros st Hlt; [lia|].
  cbn [matchLoop].
  destruct (Nat.ltb_spec (m_i st) (length filename)) as [Hin|Hout].
  - destruct (matchStep filename vars st) as [st'|r] eqn:E; [|discriminate].
    apply IH. apply matchStep_cursor in E. lia.
  - destruct (m_variableChecked st =? Z.of_nat (List.length vars)); discriminate.
Qed.

(** ** Sentinel frames of a sequence without frame numbers *)

Lemma create_filesMap (b : bool) :
  SequenceFromFiles.filesMap (SequenceFromFiles.create b) = [].
Proof. reflexivity. Qed.

Lemma first_insertion (tellg : string -> Z) (file : FileNameContent.t) (b : bool) :
  SequenceFromFiles.tryInsertFile tellg file (SequenceFromFiles.create b)
  = Ret (true, SequenceFromFiles.createWith tellg file b).
Proof. reflexivity. Qed.

Lemma createWith_filesMap (tellg : string -> Z) (file : FileNameContent.t) (b : bool) :
  SequenceFromFiles.filesMap (SequenceFromFiles.createWith tellg file b) = []
  /\ SequenceFromFiles.sequence (SequenceFromFiles.createWith tellg file b) = [file].
Proof. split; reflexivity. Qed.

(** C10. A sequence whose frame-number map is empty reports [INT_MIN] as its
    first frame and [INT_MAX] as its last frame, and the map is empty in the
    empty sequence and after the first insertion.  A sequence with one
    accepted member can hold a frame all the same: with the single member
    [a1_b2.png], the call for [a2_b3.png] maps frame 1 before it returns
    [false], which leaves one member and 1 as first and as last frame. *)
Theorem C10_one_member_with_a_frame :
  (forall s : SequenceFromFiles.t,
      SequenceFromFiles.filesMap s = [] ->
      SequenceFromFiles.getFirstFrame s = INT_MIN
      /\ SequenceFromFiles.getLastFrame s = INT_MAX
      /\ SequenceFromFiles.getFirstFrame s < SequenceFromFiles.getLastFrame s)
  /\ (forall (tellg : string -> Z) (file : FileNameContent.t) (b : bool),
         SequenceFromFiles.filesMap (SequenceFromFiles.create b) = []
         /\ SequenceFromFiles.filesMap
              (after (SequenceFromFiles.tryInsertFile
                        tellg file (SequenceFromFiles.create b))
                     (SequenceFromFiles.create b)) = [])
  /\ SequenceFromFiles.sequence seq_a1_b2 = [FileNameContent.parse "/d/a1_b2.png"]
  /\ returned call_a2_b3 = Some false
  /\ SequenceFromFiles.sequence (after call_a2_b3 seq_a1_b2)
     = [FileNameContent.parse "/d/a1_b2.png"]
  /\ SequenceFromFiles.filesList (after call_a2_b3 seq_a1_b2) = ["/d/a1_b2.png"]
  /\ SequenceFromFiles.filesMap (after call_a2_b3 seq_a1_b2)
     = [(1, "/d/a2_b3.png")]
  /\ SequenceFromFiles.getFirstFrame (after call_a2_b3 seq_a1_b2) = 1
  /\ SequenceFromFiles.getLastFrame (after call_a2_b3 seq_a1_b2) = 1.
Proof.
  split; [|split].
  - intros s E.
    unfold SequenceFromFiles.getFirstFrame, SequenceFromFiles.getLastFrame.
    rewrite E. repeat split.
  - intros tellg file b. rewrite first_insertion. cbn [after].
    split; [apply create_filesMap | apply createWith_filesMap].
  - vm_compute. repeat split.
Qed.

(** ** The range summary *)


(** *** The loops end within their fuel *)

Lemma int_add_sum (a b r : Z) : int_add a b = Some r -> r = a + b.
Proof.
  unfold int_add.
  destruct ((INT_MIN <=? a + b) && (a + b <=? INT_MAX)); [|discriminate].
  now intros [= <-].
Qed.

Lemma int_add_in_range (a b : Z) :
  INT_MIN <= a + b <= INT_MAX -> int_add a b = Some (a + b).
Proof.
  intros [H1 H2]. unfold int_add.
  apply Z.leb_le in H1, H2. now rewrite H1, H2.
Qed.

Lemma extendChunk_total (s : SequenceFromFiles.t) :
  forall (fuel : nat) (next prev count : Z),
    Z.max 0 (SequenceFromFiles.getLastFrame s - next + 1) < Z.of_nat fuel ->
    SequenceFromFiles.extendChunk s fuel next prev count <> NoFuel.
Proof.
  induction fuel as [|fuel IH]; intros next prev count Hlt; [lia|].
  cbn [SequenceFromFiles.extendChunk].
  destruct (Z.leb_spec next (SequenceFromFiles.getLastFrame s)); cbn [andb];
    [|discriminate].
  destruct (SequenceFromFiles.isInSequence s next); [|discriminate].
  destruct (int_add prev 1) as [prev1|]; [|discriminate].
  destruct (next =? prev1); [|discriminate].
  destruct (int_add next 1) as [next'|] eqn:En; [|discriminate].
  destruct (int_add count 1) as [count'|]; [|discriminate].
  apply int_add_sum in En. subst next'. apply IH. lia.
Qed.

Lemma extendChunk_count (s : SequenceFromFiles.t) :
  forall (fuel : nat) (next prev count next' count' : Z),
    SequenceFromFiles.extendChunk s fuel next prev count
    = Finished (next', count') ->
    count <= count'.
Proof.
  induction fuel as [|fuel IH]; intros next prev count next' count';
    [discriminate|].
  cbn [SequenceFromFiles.extendChunk].
  destruct ((next <=? SequenceFromFiles.getLastFrame s)
            && SequenceFromFiles.isInSequence s next);
    [|intros [= _ <-]; lia].
  destruct (int_add prev 1) as [prev1|]; [|discriminate].
  destruct (next =? prev1); [|intros [= _ <-]; lia].
  destruct (int_add next 1) as [next1|]; [|discriminate].
  destruct (int_add count 1) as [count1|] eqn:Ec; [|discriminate].
  apply int_add_sum in Ec. intros H. apply IH in H. lia.
Qed.

Lemma skipHole_forward (s : SequenceFromFiles.t) :
  forall (budget : nat) (first breakCounter first1 breakCounter1 : Z),
    SequenceFromFiles.skipHole s budget first breakCounter
    = Some (first1, breakCounter1) ->
    first <= first1.
Proof.
  induction budget as [|budget IH]; intros first bc first1 bc1;
    cbn [SequenceFromFiles.skipHole]; [intros [= <- _]; lia|].
  destruct (negb (SequenceFromFiles.isInSequence s first));
    [|intros [= <- _]; lia].
  destruct (int_add first 1) as [first'|] eqn:E; [|discriminate].
  apply int_add_sum in E. intros H. apply IH in H. lia.
Qed.

Lemma chunksLoop_total (s : SequenceFromFiles.t) :
  forall (fuel : nat) (first : Z) (chunks : list (Z * Z)),
    Z.max 0 (SequenceFromFiles.getLastFrame s - first + 1) < Z.of_nat fuel ->
    SequenceFromFiles.chunksLoop s fuel first chunks <> NoFuel.
Proof.
  induction fuel as [|fuel IH]; intros first chunks Hlt; [lia|].
  cbn [SequenceFromFiles.chunksLoop].
  destruct (Z.leb_spec first (SequenceFromFiles.getLastFrame s)) as [Hin|Hout];
    [|discriminate].
  destruct (SequenceFromFiles.skipHole s NATRON_DIALOG_MAX_SEQUENCES_HOLE first 0)
    as [[first1 breakCounter]|] eqn:Es; [|discriminate].
  apply skipHole_forward in Es.
  destruct (Z.of_nat NATRON_DIALOG_MAX_SEQUENCES_HOLE <=? breakCounter);
    [discriminate|].
  destruct (int_add first1 1) as [next0|] eqn:En; [|discriminate].
  apply int_add_sum in En. subst next0.
  destruct (SequenceFromFiles.extendChunk
              s (S (Z.to_nat (SequenceFromFiles.getLastFrame s - first1)))
              (first1 + 1) first1 1) as [[next count]| |] eqn:E.
  - apply extendChunk_count in E.
    destruct (int_add first1 count) as [first2|] eqn:Ef; [|discriminate].
    apply int_add_sum in Ef. subst first2. apply IH. lia.
  - discriminate.
  - exfalso. revert E. apply extendChunk_total. lia.
Qed.

(** The fuel of the model is never what ends the computation of the
    chunks. *)
Lemma computeChunks_total (s : SequenceFromFiles.t) :
  SequenceFromFiles.computeChunks s <> NoFuel.
Proof. unfold SequenceFromFiles.computeChunks. apply chunksLoop_total. lia. Qed.





(** ** The aggregator: rejections and collisions *)

(** The rejections that come before anything is written: another
    directory, a file that does not match the baseline, a path already in
    the list, and, once the slots are fixed, other slots than those. *)
Lemma early_rejections_keep_state
      (tellg : string -> Z) (file first : FileNameContent.t)
      (s : SequenceFromFiles.t) (name : string) (names : list string)
      (rest : list FileNameContent.t) :
  SequenceFromFiles.filesList s = name :: names ->
  SequenceFromFiles.sequence s = first :: rest ->
  (FileNameContent.getPath file <> FileNameContent.getPath first
   \/ FileNameContent.matchesPattern file first = Ret None
   \/ (exists l, FileNameContent.matchesPattern file first = Ret (Some l)
                 /\ SequenceFromFiles.inFilesList
                      (FileNameContent.absoluteFileName file) s = true)
   \/ (exists l, FileNameContent.matchesPattern file first = Ret (Some l)
                 /\ SequenceFromFiles.frameNumberStringIndexes s <> []
                 /\ l <> SequenceFromFiles.frameNumberStringIndexes s)) ->
  SequenceFromFiles.tryInsertFile tellg file s = Ret (false, s).
Proof.
  intros Hfl Hsq H. unfold SequenceFromFiles.tryInsertFile. rewrite Hfl, Hsq.
  destruct (String.eqb_spec (FileNameContent.getPath file)
                            (FileNameContent.getPath first)) as [Hp|Hp];
    [|reflexivity]. cbn [negb].
  destruct H as [H | [H | [(l & Hm & H) | (l & Hm & Hne & Hl)]]].
  - contradiction.
  - now rewrite H.
  - now rewrite Hm, H.
  - rewrite Hm.
    destruct (SequenceFromFiles.inFilesList (FileNameContent.absoluteFileName file) s);
      [reflexivity|].
    destruct (SequenceFromFiles.frameNumberStringIndexes s) as [|i0 is0] eqn:Ei;
      [contradiction|].
    unfold SequenceFromFiles.listZ_eqb.
    destruct (list_eq_dec Z.eq_dec l (i0 :: is0)); [contradiction | reflexivity].
Qed.

(** C3. A rejection can leave the sequence changed.  With the baseline
    [a1_b2.png], the file [a2_b3.png] fixes the slots to both numbers and
    maps frame 1 to its own path before the baseline's two numbers are
    found to disagree and [false] is returned.  With the baseline
    [a5_b5.png], the file [a4_b6.png] is appended to the members and to the
    files before its own two numbers are found to disagree. *)
Theorem C3_rejection_changes_state :
  returned call_a2_b3 = Some false
  /\ SequenceFromFiles.frameNumberStringIndexes seq_a1_b2 = []
  /\ SequenceFromFiles.frameNumberStringIndexes (after call_a2_b3 seq_a1_b2) = [0; 1]
  /\ SequenceFromFiles.filesMap seq_a1_b2 = []
  /\ SequenceFromFiles.filesMap (after call_a2_b3 seq_a1_b2) = [(1, "/d/a2_b3.png")]
  /\ returned call_a4_b6 = Some false
  /\ SequenceFromFiles.filesList seq_a5_b5 = ["/d/a5_b5.png"]
  /\ SequenceFromFiles.filesList (after call_a4_b6 seq_a5_b5)
     = ["/d/a5_b5.png"; "/d/a4_b6.png"]
  /\ SequenceFromFiles.filesMap (after call_a4_b6 seq_a5_b5)
     = [(4, "/d/a4_b6.png"); (5, "/d/a4_b6.png")].
Proof. vm_compute. repeat split. Qed.

(** [std::map::insert] on a key that is present. *)
Lemma map_insert_present (k : Z) (v : string) (m : IntMap) :
  map_find k m <> None -> map_insert k v m = m.
Proof.
  unfold map_insert. destruct (map_find k m); [reflexivity | contradiction].
Qed.

(** What [record] preserves, on the numbers the loop can hand to it, the
    loop over the indexes preserves. *)
Lemma frameLoop_preserves
      (P : SequenceFromFiles.t -> Prop) (content : FileNameContent.t)
      (record : string -> SequenceFromFiles.t -> SequenceFromFiles.t) :
  forall (indexes : list Z) (firstFrameNumberStr : string)
         (s : SequenceFromFiles.t),
    (forall index str s',
        In index indexes ->
        FileNameContent.getNumberByIndex content index = Some str ->
        P s' -> P (record str s')) ->
    P s ->
    P (snd (SequenceFromFiles.frameLoop content record indexes
                                        firstFrameNumberStr s)).
Proof.
  induction indexes as [|index rest IH]; intros first s Hrec Hs; [exact Hs|].
  cbn [SequenceFromFiles.frameLoop].
  assert (Hrest : forall index' str s',
             In index' rest ->
             FileNameContent.getNumberByIndex content index' = Some str ->
             P s' -> P (record str s')).
  { intros index' str s' Hin. apply Hrec. now right. }
  destruct (FileNameContent.getNumberByIndex content index) as [d|] eqn:E;
    cbn [fst snd andb].
  - destruct (strEmpty first); cbn [negb andb].
    + apply IH; [exact Hrest|]. apply (Hrec index); [now left | exact E | exact Hs].
    + destruct (negb (stringToInt d =? stringToInt first)); [exact Hs|].
      now apply IH.
  - destruct (negb (strEmpty first)
              && negb (stringToInt "" =? stringToInt first)); [exact Hs|].
    now apply IH.
Qed.

(** The loop that inserts a member leaves the map as it is when every
    number it can read is a key already. *)
Lemma insertMember_collision
      (tellg : string -> Z) (file : FileNameContent.t) (indexes : list Z)
      (s : SequenceFromFiles.t) :
  (forall index str,
      In index indexes ->
      FileNameContent.getNumberByIndex file index = Some str ->
      map_find (stringToInt str) (SequenceFromFiles.filesMap s) <> None) ->
  SequenceFromFiles.filesMap
    (snd (SequenceFromFiles.insertMember tellg file indexes s))
  = SequenceFromFiles.filesMap s.
Proof.
  intros Hk. unfold SequenceFromFiles.insertMember.
  apply (frameLoop_preserves
           (fun s' => SequenceFromFiles.filesMap s' = SequenceFromFiles.filesMap s));
    [|reflexivity].
  intros index str s' Hin Hnum Hs'.
  cbn [SequenceFromFiles.insertFrame SequenceFromFiles.pushFile
       SequenceFromFiles.filesMap].
  rewrite Hs'. apply map_insert_present. now apply (Hk index).
Qed.

(** The files list and the members are filled together: [sequence[0]] is
    there whenever the files list is not empty. *)
Lemma tryInsertFile_members
      (tellg : string -> Z) (file : FileNameContent.t) (s : SequenceFromFiles.t) :
  Members s ->
  Members (after (SequenceFromFiles.tryInsertFile tellg file s) s).
Proof.
  intros Hm.
  assert (Hpush : forall s', Members s' ->
                             Members (SequenceFromFiles.pushFile tellg file s')).
  { unfold Members. intros s' H. cbn [SequenceFromFiles.pushFile
      SequenceFromFiles.filesList SequenceFromFiles.sequence].
    now rewrite H, map_app. }
  assert (Hins : forall indexes s',
             Members s' ->
             Members (snd (SequenceFromFiles.insertMember tellg file indexes s'))).
  { intros indexes s' H. unfold SequenceFromFiles.insertMember.
    apply (frameLoop_preserves Members); [|exact H].
    intros _ str s'' _ _ H'. apply Hpush in H'. exact H'. }
  unfold SequenceFromFiles.tryInsertFile.
  destruct (SequenceFromFiles.filesList s) as [|name names] eqn:Ef.
  { cbn [after]. now apply Hpush. }
  destruct (SequenceFromFiles.sequence s) as [|first rest]; [exact Hm|].
  destruct (negb (FileNameContent.getPath file =? FileNameContent.getPath first)%string);
    [exact Hm|].
  destruct (FileNameContent.matchesPattern file first) as [[l|]|msg];
    try exact Hm.
  destruct (SequenceFromFiles.inFilesList (FileNameContent.absoluteFileName file) s);
    [exact Hm|].
  destruct (SequenceFromFiles.frameNumberStringIndexes s) as [|i0 is0].
  - match goal with
    | |- context [SequenceFromFiles.frameLoop first ?rec l "" ?s1] =>
        assert (Hb : Members (snd (SequenceFromFiles.frameLoop first rec l "" s1)))
    end.
    { apply (frameLoop_preserves Members); [|exact Hm].
      intros _ str s' _ _ H'. exact H'. }
    match goal with
    | |- context [if fst ?r then _ else _] => destruct (fst r)
    end.
    + specialize (Hins l _ Hb). cbn [after].
      now destruct (SequenceFromFiles.insertMember tellg file l _).
    + exact Hb.
  - destruct (SequenceFromFiles.listZ_eqb l (i0 :: is0)); [|exact Hm].
    specialize (Hins l s Hm). cbn [after].
    now destruct (SequenceFromFiles.insertMember tellg file l s).
Qed.

(** C2 (as amended). Once the frame slots are fixed, a call with a file
    whose numbers at these slots are all keys of the frame-number map leaves
    this map as it is: the entry of a frame number already present is never
    overwritten.  Nothing more is promised: the call may return [true] and
    append the file to the members and to the files. *)
Theorem C2_collision_keeps_map
        (tellg : string -> Z) (file : FileNameContent.t)
        (s : SequenceFromFiles.t)
        (Hlocked : SequenceFromFiles.frameNumberStringIndexes s <> [])
        (Hcollision :
           forall index str,
             In index (SequenceFromFiles.frameNumberStringIndexes s) ->
             FileNameContent.getNumberByIndex file index = Some str ->
             SequenceFromFiles.isInSequence s (stringToInt str) = true) :
  SequenceFromFiles.filesMap
    (after (SequenceFromFiles.tryInsertFile tellg file s) s)
  = SequenceFromFiles.filesMap s.
Proof.
  unfold SequenceFromFiles.tryInsertFile.
  destruct (SequenceFromFiles.filesList s) as [|name names]; [reflexivity|].
  destruct (SequenceFromFiles.sequence s) as [|first rest]; [reflexivity|].
  destruct (negb (FileNameContent.getPath file =? FileNameContent.getPath first)%string);
    [reflexivity|].
  destruct (FileNameContent.matchesPattern file first) as [[l|]|msg];
    try reflexivity.
  destruct (SequenceFromFiles.inFilesList (FileNameContent.absoluteFileName file) s);
    [reflexivity|].
  destruct (SequenceFromFiles.frameNumberStringIndexes s) as [|i0 is0] eqn:Ei;
    [contradiction|].
  unfold SequenceFromFiles.listZ_eqb.
  destruct (list_eq_dec Z.eq_dec l (i0 :: is0)) as [->|]; [|reflexivity].
  unfold after.
  match goal with
  | |- SequenceFromFiles.filesMap (let (_, s') := ?p in s') = _ =>
      replace (let (_, s') := p in s') with (snd p) by (now destruct p)
  end.
  apply insertMember_collision.
  intros index str Hin Hnum. specialize (Hcollision index str Hin Hnum).
  unfold SequenceFromFiles.isInSequence in Hcollision.
  destruct (map_find (stringToInt str) (SequenceFromFiles.filesMap s));
    [discriminate | discriminate Hcollision].
Qed.

Lemma C2_collision_keeps_map_witness :
  SequenceFromFiles.filesMap (after call_a5_b2 seq_locked)
  = [(1, "/d/a1_b2.png"); (2, "/d/a1_b2.png")].
Proof.
  apply (C2_collision_keeps_map noSize (FileNameContent.parse "/d/a5_b2.png")
                                seq_locked).
  - discriminate.
  - intros index str [<- | []] H. vm_compute in H. injection H as <-.
    reflexivity.
Defined.

(** C2 (as stated) fails: in the sequence of [a1_b1.png] and [a1_b2.png],
    locked on the second number, frame 2 is taken; [a5_b2.png] has 2 at that
    slot and is accepted all the same. *)
Lemma C2_counterexample :
  SequenceFromFiles.frameNumberStringIndexes seq_locked = [1]
  /\ SequenceFromFiles.filesList seq_locked = ["/d/a1_b1.png"; "/d/a1_b2.png"]
  /\ SequenceFromFiles.isInSequence seq_locked 2 = true
  /\ FileNameContent.getNumberByIndex (FileNameContent.parse "/d/a5_b2.png") 1
     = Some "2"
  /\ returned call_a5_b2 = Some true
  /\ SequenceFromFiles.filesList (after call_a5_b2 seq_locked)
     = ["/d/a1_b1.png"; "/d/a1_b2.png"; "/d/a5_b2.png"]
  /\ List.length (SequenceFromFiles.sequence (after call_a5_b2 seq_locked)) = 3%nat.
Proof. vm_compute. repeat split. Qed.

(** ** [removePath] splits at the last separator *)

Lemma find_last_of_split (c : ascii) (s : string) (p : nat) :
  find_last_of c s = Some p ->
  exists pre rest,
    s = pre ++ String c rest /\ length pre = p /\ contains_char c rest = false.
Proof.
  revert p. induction s as [|a s IH]; intros p; [discriminate|].
  cbn [find_last_of]. destruct (find_last_of c s) as [n|] eqn:E.
  - intros [= <-]. destruct (IH n eq_refl) as (pre & rest & -> & <- & Hr).
    now exists (String a pre), rest.
  - destruct (Ascii.eqb_spec a c) as [->|]; [|discriminate].
    intros [= <-]. exists "", s. repeat split.
    clear IH. induction s as [|b s IHs]; [reflexivity|].
    cbn [find_last_of] in E. cbn [contains_char].
    destruct (find_last_of c s); [discriminate E|].
    destruct (Ascii.eqb b c); [discriminate E|]. now apply IHs.
Qed.

Lemma contains_char_app (c : ascii) (a b : string) :
  contains_char c (a ++ b) = contains_char c a || contains_char c b.
Proof.
  induction a as [|x a IH]; [reflexivity|].
  cbn [append contains_char]. now rewrite IH, orb_assoc.
Qed.

Lemma contains_char_substring (c : ascii) (s : string) :
  forall n m, contains_char c (substring n m s) = true -> contains_char c s = true.
Proof.
  induction s as [|a s IH]; intros [|n] [|m]; cbn [substring contains_char];
    try discriminate.
  - intros H. apply orb_true_iff in H as [H|H].
    + now rewrite H.
    + apply IH in H. rewrite H. apply orb_true_r.
  - intros H. apply IH in H. rewrite H. apply orb_true_r.
  - intros H. apply IH in H. rewrite H. apply orb_true_r.
Qed.

(** A string that holds a character cannot be found in one that lacks it. *)
Lemma str_find_absent (c : ascii) (from toSearch : string) (pos : nat) :
  contains_char c toSearch = true ->
  contains_char c from = false ->
  str_find from toSearch pos = None.
Proof.
  intros Hs Hf. unfold str_find.
  destruct (index pos toSearch from) as [m|] eqn:E; [|reflexivity].
  apply index_correct1 in E. rewrite <- E in Hs.
  apply contains_char_substring in Hs. congruence.
Qed.

Lemma substring_app_left (a b : string) : substring 0 (length a) (a ++ b) = a.
Proof. induction a as [|x a IH]; cbn; [now destruct b | now rewrite IH]. Qed.

Lemma substring_app_right (a b : string) :
  substring (length a) (length b) (a ++ b) = b.
Proof. induction a as [|x a IH]; cbn; [apply substring_all | exact IH]. Qed.

Lemma str_find_prefix (a b : string) : a <> "" -> str_find (a ++ b) a 0 = Some 0%nat.
Proof.
  intros Hne. unfold str_find. destruct a as [|x a]; [contradiction|].
  cbn [append index].
  assert (E : prefix (String x a) (String x (a ++ b)) = true).
  { apply prefix_correct. apply (substring_app_left (String x a) b). }
  now rewrite E.
Qed.

(** Removing the occurrences of a directory that ends with the separator
    [c] from a path whose last part holds no [c] leaves this last part. *)
Lemma removeAll_directory (c : ascii) (pre rest : string) :
  contains_char c rest = false ->
  removeAllOccurences ((pre ++ String c "") ++ rest) (pre ++ String c "") true
  = rest.
Proof.
  intros Hr. set (path := pre ++ String c "").
  assert (Hne : path <> "") by (unfold path; destruct pre; discriminate).
  assert (Hc : contains_char c path = true).
  { unfold path. rewrite contains_char_app. cbn [contains_char].
    rewrite Ascii.eqb_refl. apply orb_true_r. }
  unfold removeAllOccurences.
  destruct (Nat.eqb_spec (length (path ++ rest)) 0) as [E|_].
  { rewrite str_length_app in E. destruct path; [contradiction | discriminate E]. }
  cbn [removeAllLoop]. unfold findStr at 1.
  rewrite (str_find_prefix path rest Hne).
  assert (Ee : erase (path ++ rest) 0 (length path) = rest).
  { unfold erase. cbn [substring Nat.add append].
    destruct (path ++ rest) eqn:E'.
    - destruct path; [contradiction | discriminate E'].
    - rewrite <- E'. rewrite str_length_app.
      replace (length path + length rest - length path)%nat with (length rest) by lia.
      cbn [substring append]. replace (substring 0 0 (path ++ rest)) with "".
      + apply substring_app_right.
      + now destruct (path ++ rest). }
  rewrite Ee.
  destruct (length (path ++ rest)) as [|fuel] eqn:El.
  { rewrite str_length_app in El. destruct path; [contradiction | discriminate El]. }
  cbn [removeAllLoop]. unfold findStr.
  now rewrite (str_find_absent c rest path 0 Hc Hr).
Qed.

(** [removePath] cuts its argument after the last ['/'], or after the last
    backslash when there is no ['/'], and does not touch it when there is
    neither. *)
Lemma removePath_spec (filename : string) :
  fst (removePath filename) ++ snd (removePath filename) = filename
  /\ (fst (removePath filename) = ""
      \/ exists pre c,
          fst (removePath filename) = pre ++ String c ""
          /\ (c = "/"%char \/ c = "\"%char)
          /\ contains_char c (snd (removePath filename)) = false).
Proof.
  unfold removePath.
  assert (Hcut : forall c p,
             find_last_of c filename = Some p ->
             exists pre rest,
               filename = (pre ++ String c "") ++ rest
               /\ substring 0 (p + 1) filename = pre ++ String c ""
               /\ contains_char c rest = false).
  { intros c p H. destruct (find_last_of_split c filename p H)
      as (pre & rest & -> & <- & Hr).
    exists pre, rest. repeat split; [now rewrite string_app_assoc | | exact Hr].
    replace (pre ++ String c rest) with ((pre ++ String c "") ++ rest)
      by now rewrite string_app_assoc.
    replace (length pre + 1)%nat with (length (pre ++ String c ""))
      by (rewrite str_length_app; reflexivity).
    apply substring_app_left. }
  destruct (find_last_of "/" filename) as [p|] eqn:E1.
  - destruct (Hcut _ _ E1) as (pre & rest & Hf & Hs & Hr).
    assert (Hrem : removeAllOccurences filename (pre ++ "/") true = rest)
      by (rewrite Hf at 1; apply removeAll_directory, Hr).
    rewrite Hs, Hrem. cbn [fst snd]. split; [now symmetry|].
    right. exists pre, "/"%char. repeat split; [now left | exact Hr].
  - destruct (find_last_of "\" filename) as [p|] eqn:E2.
    + destruct (Hcut _ _ E2) as (pre & rest & Hf & Hs & Hr).
      assert (Hrem : removeAllOccurences filename (pre ++ "\") true = rest)
        by (rewrite Hf at 1; apply removeAll_directory, Hr).
      rewrite Hs, Hrem. cbn [fst snd]. split; [now symmetry|].
      right. exists pre, "\"%char. repeat split; [now right | exact Hr].
    + cbn [fst snd]. split; [reflexivity | now left].
Qed.

(** ** The tokenizer: what the elements are *)

Lemma strEmpty_spec (s : string) : strEmpty s = true <-> s = "".
Proof. destruct s; simpl; split; congruence. Qed.

Lemma push_back_not_empty (s : string) (c : ascii) : strEmpty (push_back s c) = false.
Proof. destruct s; reflexivity. Qed.

Lemma allDigits_push_back (s : string) (c : ascii) :
  allDigits (push_back s c) = allDigits s && isdigit c.
Proof.
  unfold push_back. induction s as [|x s IH].
  - cbn. now rewrite andb_true_r.
  - cbn [append]. rewrite !allDigits_cons, IH. now rewrite andb_assoc.
Qed.

Lemma noDigits_push_back (s : string) (c : ascii) :
  noDigits (push_back s c) = noDigits s && negb (isdigit c).
Proof.
  unfold push_back, noDigits. induction s as [|x s IH].
  - cbn. now rewrite andb_true_r.
  - cbn [append list_ascii_of_string forallb]. rewrite IH. now rewrite andb_assoc.
Qed.

Lemma concatData_snoc (l : list FileNameContent.FileNameElement)
      (e : FileNameContent.FileNameElement) :
  concatData (l ++ [e]) = concatData l ++ FileNameContent.data e.
Proof.
  induction l as [|x l IH]; cbn [app concatData].
  - apply string_app_nil_r.
  - now rewrite IH, string_app_assoc.
Qed.

Lemma lastType_snoc (l : list FileNameContent.FileNameElement)
      (e : FileNameContent.FileNameElement) :
  lastType (l ++ [e]) = Some (FileNameContent.type e).
Proof.
  induction l as [|x l IH]; [reflexivity|].
  cbn [app lastType]. destruct (l ++ [e])%list eqn:E; [|exact IH].
  destruct l; discriminate E.
Qed.

Lemma alternating_snoc (l : list FileNameContent.FileNameElement)
      (e : FileNameContent.FileNameElement) :
  alternating (l ++ [e])
  = alternating l
    && match lastType l with
       | Some ty => negb (FileNameContent.Type_eqb ty (FileNameContent.type e))
       | None => true
       end.
Proof.
  induction l as [|x l IH]; [reflexivity|].
  destruct l as [|y l].
  - cbn. now rewrite andb_true_r.
  - change ((x :: y :: l) ++ [e])%list with (x :: (y :: l) ++ [e])%list.
    cbn [alternating]. cbn [app]. cbn [app] in IH.
    change (lastType (x :: y :: l)) with (lastType (y :: l)).
    rewrite IH. now rewrite andb_assoc.
Qed.

Lemma digitRunsOf_snoc (l : list FileNameContent.FileNameElement)
      (e : FileNameContent.FileNameElement) :
  digitRunsOf (l ++ [e]) = (digitRunsOf l + if isFrame e then 1 else 0)%nat.
Proof.
  unfold digitRunsOf. rewrite filter_app, List.length_app. cbn [filter].
  now destruct (isFrame e).
Qed.

Lemma ParseInvariant_init :
  ParseInvariant "" (FileNameContent.mkParseState "" "" [] false).
Proof. constructor; cbn; auto; congruence. Qed.

Lemma push_back_app (a b : string) (c : ascii) :
  a ++ push_back b c = push_back (a ++ b) c.
Proof. unfold push_back. now rewrite string_app_assoc. Qed.

Lemma odd_succ_negb (n : nat) : Nat.odd (n + 1) = negb (Nat.odd n).
Proof. rewrite Nat.add_1_r, Nat.odd_succ. now rewrite <- Nat.negb_odd. Qed.

(** After a text, a digit run may come; after a digit run, a text. *)
Lemma alternating_after (l : list FileNameContent.FileNameElement)
      (e : FileNameContent.FileNameElement) :
  alternating l = true ->
  lastType l <> Some (FileNameContent.type e) ->
  alternating (l ++ [e]) = true.
Proof.
  intros Ha Hl. rewrite alternating_snoc, Ha. cbn [andb].
  destruct (lastType l) as [ty|]; [|reflexivity].
  destruct ty, (FileNameContent.type e); try reflexivity; congruence.
Qed.

Lemma parseStep_invariant (consumed : string) (st : FileNameContent.ParseState)
      (c : ascii) :
  ParseInvariant consumed st ->
  ParseInvariant (push_back consumed c) (FileNameContent.parseStep c st).
Proof.
  destruct st as [num text elems h].
  intros [H1 H2 H3 H4 H5 H6 H7 H8 H9 H10].
  parse_fields_all.
  unfold FileNameContent.parseStep.
  parse_fields.
  destruct (isdigit c) eqn:Ec.
  - unfold FileNameContent.flushText.
    parse_fields.
    destruct text as [|t ts]; cbn [strEmpty].
    + constructor;
        parse_fields;
        try assumption.
      * rewrite string_app_nil_r in *. rewrite push_back_app. now rewrite H1.
      * now right.
      * intros E _. apply strEmpty_spec in E. now rewrite push_back_not_empty in E.
      * now rewrite allDigits_push_back, H4, Ec.
      * intros _. destruct num as [|n ns]; [|apply H8; discriminate].
        now rewrite H3.
    + assert (num = "") as -> by (destruct H2 as [E|E]; [exact E | discriminate E]).
      constructor;
        parse_fields.
      * rewrite concatData_snoc. cbn [FileNameContent.data].
        rewrite string_app_nil_r. cbn [append] in H1.
        rewrite H1. reflexivity.
      * now right.
      * intros E. apply strEmpty_spec in E. now rewrite push_back_not_empty in E.
      * cbn. now rewrite Ec.
      * reflexivity.
      * rewrite forallb_app, H6. cbn. cbn in H5. now rewrite H5.
      * apply alternating_after; [exact H7|]. apply H9. discriminate.
      * intros _. rewrite lastType_snoc. discriminate.
      * intros E. now contradiction E.
      * rewrite digitRunsOf_snoc. cbn. now rewrite Nat.add_0_r.
  - unfold FileNameContent.flushNumber.
    parse_fields.
    destruct num as [|n ns]; cbn [strEmpty].
    + constructor;
        parse_fields;
        try assumption.
      * cbn [append] in *. rewrite push_back_app. now rewrite H1.
      * now left.
      * intros _ E. apply strEmpty_spec in E. now rewrite push_back_not_empty in E.
      * now rewrite noDigits_push_back, H5, Ec.
      * intros _. destruct text as [|t ts]; [|apply H9; discriminate].
        now rewrite H3.
    + assert (text = "") as -> by (destruct H2 as [E|E]; [discriminate E | exact E]).
      constructor;
        parse_fields.
      * rewrite concatData_snoc. cbn [FileNameContent.data].
        rewrite string_app_nil_r in H1. cbn [append].
        change (String c "") with (push_back "" c).
        rewrite push_back_app, string_app_nil_r. now rewrite H1.
      * now left.
      * intros _ E. discriminate E.
      * reflexivity.
      * cbn. now rewrite Ec.
      * rewrite forallb_app, H6. cbn. cbn in H4. now rewrite H4.
      * apply alternating_after; [exact H7|]. apply H8. discriminate.
      * intros E. now contradiction E.
      * intros _. rewrite lastType_snoc. discriminate.
      * rewrite digitRunsOf_snoc. cbn [isFrame FileNameContent.type
          FileNameContent.Type_eqb]. rewrite odd_succ_negb, <- H10.
        now destruct h.
Qed.

Lemma parseLoop_invariant (rest : string) :
  forall (consumed : string) (st : FileNameContent.ParseState),
    ParseInvariant consumed st ->
    ParseInvariant (consumed ++ rest) (FileNameContent.parseLoop rest st).
Proof.
  induction rest as [|c rest IH]; intros consumed st H; cbn [FileNameContent.parseLoop].
  - now rewrite string_app_nil_r.
  - replace (consumed ++ String c rest) with (push_back consumed c ++ rest).
    + apply IH. now apply parseStep_invariant.
    + unfold push_back. now rewrite string_app_assoc.
Qed.

(** The two flushes that follow the loop. *)
Lemma flush_invariant (consumed : string) (st : FileNameContent.ParseState) :
  ParseInvariant consumed st ->
  let st' := FileNameContent.flushText (FileNameContent.flushNumber st) in
  concatData (FileNameContent.p_elements st') = consumed
  /\ forallb isRun (FileNameContent.p_elements st') = true
  /\ alternating (FileNameContent.p_elements st') = true
  /\ FileNameContent.p_hasSingleNumber st'
     = Nat.odd (digitRunsOf (FileNameContent.p_elements st')).
Proof.
  destruct st as [num text elems h].
  intros [H1 H2 H3 H4 H5 H6 H7 H8 H9 H10].
  parse_fields_all.
  unfold FileNameContent.flushText, FileNameContent.flushNumber.
  parse_fields.
  destruct num as [|n ns]; cbn [strEmpty];
    parse_fields;
    destruct text as [|t ts]; cbn [strEmpty];
    parse_fields.
  - cbn [append] in H1. rewrite string_app_nil_r in H1. now repeat split.
  - repeat split.
    + rewrite concatData_snoc. exact H1.
    + rewrite forallb_app, H6. cbn. cbn in H5. now rewrite H5.
    + apply alternating_after; [exact H7|]. apply H9. discriminate.
    + rewrite digitRunsOf_snoc. cbn. now rewrite Nat.add_0_r.
  - repeat split.
    + rewrite concatData_snoc. cbn [FileNameContent.data].
      now rewrite string_app_nil_r in H1.
    + rewrite forallb_app, H6. cbn. cbn in H4. now rewrite H4.
    + apply alternating_after; [exact H7|]. apply H8. discriminate.
    + rewrite digitRunsOf_snoc. cbn [isFrame FileNameContent.type
        FileNameContent.Type_eqb]. rewrite odd_succ_negb, <- H10.
      now destruct h.
  - destruct H2 as [E|E]; discriminate E.
Qed.

(** The elements of a parsed file name: they spell the whole file name,
    they are runs, their kinds alternate, and the flag is the parity of
    the number of digit runs. *)
Lemma parse_elements (absoluteFileName : string) :
  let c := FileNameContent.parse absoluteFileName in
  concatData (FileNameContent.orderedElements c) = FileNameContent.filename c
  /\ forallb isRun (FileNameContent.orderedElements c) = true
  /\ alternating (FileNameContent.orderedElements c) = true
  /\ FileNameContent.hasSingleNumber c = Nat.odd (digitRuns c).
Proof.
  unfold FileNameContent.parse, digitRuns.
  destruct (removePath absoluteFileName) as [filePath filename].
  cbn [FileNameContent.orderedElements FileNameContent.filename
       FileNameContent.hasSingleNumber].
  apply (flush_invariant filename).
  change filename with ("" ++ filename) at 1.
  apply parseLoop_invariant, ParseInvariant_init.
Qed.

(** C4. [hasSingleNumber] is flipped at every digit run instead of being
    compared with a count, so that it tells whether the number of digit runs
    is odd: with the three digit runs of [a1b2c3.png] it is [true] again. *)
Theorem C4_three_runs_single_number :
  (forall absoluteFileName : string,
      FileNameContent.hasSingleNumber (FileNameContent.parse absoluteFileName)
      = Nat.odd (digitRuns (FileNameContent.parse absoluteFileName)))
  /\ digitRuns (FileNameContent.parse "/d/a1b2c3.png") = 3%nat
  /\ FileNameContent.hasSingleNumber (FileNameContent.parse "/d/a1b2c3.png") = true
  /\ FileNameContent.hasSingleNumber (FileNameContent.parse "/d/a1.png") = true
  /\ FileNameContent.hasSingleNumber (FileNameContent.parse "/d/a1b2.png") = false.
Proof.
  split; [|repeat split].
  intros absoluteFileName. apply (parse_elements absoluteFileName).
Qed.

(** The loop that builds the pattern numbers the digit runs from the left. *)
Lemma patternOfElements_canonical (rest : list FileNameContent.FileNameElement) :
  forall seen : list FileNameContent.FileNameElement,
    FileNameContent.patternOfElements rest (Z.of_nat (digitRunsOf seen))
    = canonicalOf seen rest.
Proof.
  induction rest as [|e rest IH]; intros seen; [reflexivity|].
  cbn [FileNameContent.patternOfElements canonicalOf]. unfold canonicalPiece.
  specialize (IH (seen ++ [e])%list). rewrite digitRunsOf_snoc in IH.
  unfold isFrame in IH.
  destruct (FileNameContent.type e); cbn [FileNameContent.Type_eqb] in IH.
  - now rewrite <- IH, Nat.add_0_r.
  - rewrite <- IH. now rewrite Nat2Z.inj_add.
Qed.

(** C6 (as amended). The tokenizer cuts the directory off and nothing else:
    the elements spell the whole file name, extension included, as runs of
    digits and runs of other characters that alternate, and the canonical
    pattern is this file name with every digit run, those of the extension
    too, replaced by one ['#'] per digit followed by its ordinal among the
    digit runs, counted from 0. *)
Theorem C6_elements_spell_file_name (absoluteFileName : string) :
  FileNameContent.filePath (FileNameContent.parse absoluteFileName)
  ++ FileNameContent.filename (FileNameContent.parse absoluteFileName)
  = absoluteFileName
  /\ concatData (FileNameContent.orderedElements
                   (FileNameContent.parse absoluteFileName))
     = FileNameContent.filename (FileNameContent.parse absoluteFileName)
  /\ forallb isRun (FileNameContent.orderedElements
                      (FileNameContent.parse absoluteFileName)) = true
  /\ alternating (FileNameContent.orderedElements
                    (FileNameContent.parse absoluteFileName)) = true
  /\ FileNameContent.generatedPattern (FileNameContent.parse absoluteFileName)
     = canonicalOf [] (FileNameContent.orderedElements
                         (FileNameContent.parse absoluteFileName)).
Proof.
  destruct (parse_elements absoluteFileName) as (H1 & H2 & H3 & _).
  repeat split; try assumption.
  - destruct (removePath_spec absoluteFileName) as (Hcut & _).
    unfold FileNameContent.parse.
    now destruct (removePath absoluteFileName).
  - unfold FileNameContent.parse.
    destruct (removePath absoluteFileName) as [filePath filename].
    cbn [FileNameContent.generatedPattern FileNameContent.orderedElements].
    apply (patternOfElements_canonical _ []).
Qed.

(** C6 (as stated) fails: the elements of [clip.mp4] go through the
    extension [mp4], whose digit is a [FRAME_NUMBER] element, and the
    canonical pattern of [shot_0001.png] ends with [.png]. *)
Lemma C6_counterexample :
  FileNameContent.extension (FileNameContent.parse "/d/clip.mp4") = "mp4"
  /\ FileNameContent.orderedElements (FileNameContent.parse "/d/clip.mp4")
     = [FileNameContent.mkElement "clip.mp" FileNameContent.TEXT;
        FileNameContent.mkElement "4" FileNameContent.FRAME_NUMBER]
  /\ FileNameContent.generatedPattern (FileNameContent.parse "/d/clip.mp4")
     = "clip.mp#0"
  /\ FileNameContent.generatedPattern (FileNameContent.parse "/d/clip.mp4")
     <> "clip"
  /\ concatData (FileNameContent.orderedElements
                   (FileNameContent.parse "/d/shot_0001.png"))
     = "shot_0001.png"
  /\ FileNameContent.generatedPattern (FileNameContent.parse "/d/shot_0001.png")
     = "shot_####0.png"
  /\ FileNameContent.generatedPattern (FileNameContent.parse "/d/shot_0001.png")
     <> "shot_####0".
Proof. repeat split; discriminate. Qed.

(** ** The tokenizer: comparing two file names *)

Lemma getNumberLoop_ge (elements : list FileNameContent.FileNameElement) :
  forall (k n : Z) (a : string),
    FileNameContent.getNumberLoop elements k n = Some a -> k <= n.
Proof.
  induction elements as [|e rest IH]; intros k n a; [discriminate|].
  cbn [FileNameContent.getNumberLoop]. destruct (FileNameContent.type e).
  - apply IH.
  - destruct (Z.eqb_spec k n); [lia|]. intros H. apply IH in H. lia.
Qed.

Lemma getNumberLoop_digits (elements : list FileNameContent.FileNameElement) :
  forallb isRun elements = true ->
  forall (k n : Z) (a : string),
    FileNameContent.getNumberLoop elements k n = Some a -> allDigits a = true.
Proof.
  induction elements as [|e rest IH]; intros Hr k n a; [discriminate|].
  cbn [forallb] in Hr. apply andb_true_iff in Hr as [He Hr].
  cbn [FileNameContent.getNumberLoop]. unfold isRun in He.
  destruct (FileNameContent.type e).
  - now apply IH.
  - destruct (k =? n).
    + intros [= <-]. now apply andb_true_iff in He as [_ He].
    + now apply IH.
Qed.

Lemma Type_eqb_spec (a b : FileNameContent.Type_) :
  FileNameContent.Type_eqb a b = true <-> a = b.
Proof. destruct a, b; simpl; split; congruence. Qed.

(** The first loop collects the candidates, from the left. *)
Lemma potentialLoop_spec (mine : list FileNameContent.FileNameElement) :
  forall (others : list FileNameContent.FileNameElement) (k : Z)
         (acc out : list FileNameContent.Potential),
    List.length mine = List.length others ->
    FileNameContent.potentialLoop (combine mine others) k acc = Ret (Some out) ->
    exists news,
      out = (acc ++ news)%list
      /\ forall n a b,
          In (n, (a, b)) news <-> collectedFrom mine others k n a b.
Proof.
  unfold collectedFrom.
  induction mine as [|e mine IH]; intros [|o others] k acc out Hlen;
    try discriminate Hlen.
  - cbn. intros [= <-]. exists []. split; [now rewrite app_nil_r|].
    intros n a b. split; [intros [] | intros (H & _); discriminate H].
  - injection Hlen as Hlen.
    cbn [combine FileNameContent.potentialLoop FileNameContent.getNumberLoop].
    destruct (FileNameContent.Type_eqb (FileNameContent.type e)
                                       (FileNameContent.type o)) eqn:Et;
      cbn [negb]; [|discriminate].
    apply Type_eqb_spec in Et. rewrite <- Et.
    destruct (FileNameContent.type e).
    + (* a text *)
      destruct (String.eqb_spec (FileNameContent.data e) (FileNameContent.data o));
        cbn [negb]; [|discriminate].
      apply IH, Hlen.
    + (* a digit run *)
      destruct (String.eqb_spec (FileNameContent.data e) (FileNameContent.data o))
        as [Ed|Ed]; cbn [negb].
      * intros H. destruct (IH _ _ _ _ Hlen H) as (news & -> & Hn).
        exists news. split; [reflexivity|].
        intros n a b. rewrite Hn. destruct (Z.eqb_spec k n) as [->|Hk].
        -- split.
           ++ intros (H1 & _). apply getNumberLoop_ge in H1. lia.
           ++ intros (H1 & H2 & H3 & _). congruence.
        -- reflexivity.
      * destruct (FileNameContent.validPair (FileNameContent.data e)
                                            (FileNameContent.data o))
          as [[|]|msg] eqn:Ev; [| |discriminate].
        -- intros H. destruct (IH _ _ _ _ Hlen H) as (news & -> & Hn).
           exists ((k, (FileNameContent.data e, FileNameContent.data o)) :: news).
           split; [now rewrite <- app_assoc|].
           intros n a b. cbn [In]. rewrite Hn.
           destruct (Z.eqb_spec k n) as [->|Hk].
           ++ split.
              ** intros [[= <- <-] | (H1 & _)].
                 --- now repeat split.
                 --- apply getNumberLoop_ge in H1. lia.
              ** intros ([= <-] & [= <-] & _). now left.
           ++ split.
              ** intros [[= Hkn _ _] | H']; [contradiction | exact H'].
              ** intros H'. now right.
        -- intros H. destruct (IH _ _ _ _ Hlen H) as (news & -> & Hn).
           exists news. split; [reflexivity|].
           intros n a b. rewrite Hn. destruct (Z.eqb_spec k n) as [->|Hk].
           ++ split.
              ** intros (H1 & _). apply getNumberLoop_ge in H1. lia.
              ** intros ([= <-] & [= <-] & _ & Hv). congruence.
           ++ reflexivity.
Qed.

Lemma nth_error_snoc (A : Type) (pre : list A) (p q : A) (j : nat) :
  nth_error (pre ++ [p]) j = Some q <->
  nth_error pre j = Some q \/ (j = List.length pre /\ q = p).
Proof.
  destruct (Nat.lt_ge_cases j (List.length pre)) as [Hlt|Hge].
  - rewrite nth_error_app1 by exact Hlt. split; [now left|].
    intros [H|[H _]]; [exact H | lia].
  - rewrite nth_error_app2 by exact Hge.
    assert (Hnone : nth_error pre j = None) by now apply nth_error_None.
    rewrite Hnone.
    destruct (j - List.length pre)%nat as [|d] eqn:Ed; cbn [nth_error].
    + split.
      * intros [= <-]. right. split; [lia | reflexivity].
      * intros [H|[_ ->]]; [discriminate H | reflexivity].
    + split.
      * destruct d; discriminate.
      * intros [H|[H _]]; [discriminate H | lia].
Qed.

(** The second loop selects the positions of the pairs of least
    difference, provided no difference exceeds [INT_MAX]. *)
Lemma minLoop_spec (rest : list FileNameContent.Potential) :
  forall (pre : list FileNameContent.Potential) (minimum : Z)
         (minIndexes : list nat),
    (forall p, In p (pre ++ rest) -> FileNameContent.potentialDiff p <= INT_MAX) ->
    MinInvariant pre minimum minIndexes ->
    forall j,
      In j (FileNameContent.minLoop rest (List.length pre) minimum minIndexes)
      <-> exists p,
          nth_error (pre ++ rest) j = Some p
          /\ forall p', In p' (pre ++ rest) ->
                        FileNameContent.potentialDiff p
                        <= FileNameContent.potentialDiff p'.
Proof.
  induction rest as [|p rest IH]; intros pre minimum minIndexes Hmax (I1 & I2 & I3) j.
  - cbn [FileNameContent.minLoop]. rewrite app_nil_r in *. rewrite I3.
    split; intros (q & Hq & Hd); exists q; (split; [exact Hq|]).
    + intros p' Hp'. rewrite Hd. now apply I1.
    + apply nth_error_In in Hq as Hin. apply Z.le_antisymm; [|now apply I1].
      destruct I2 as [(p0 & Hp0 & <-) | ->]; [now apply Hd | now apply Hmax].
  - cbn [FileNameContent.minLoop].
    replace (pre ++ p :: rest)%list with ((pre ++ [p]) ++ rest)%list in *
      by now rewrite <- app_assoc.
    assert (Hlen : S (List.length pre) = List.length (pre ++ [p])%list)
      by (rewrite List.length_app; cbn; lia).
    rewrite Hlen.
    destruct (Z.ltb_spec (FileNameContent.potentialDiff p) minimum) as [Hlt|Hge].
    + apply IH; [exact Hmax|]. repeat split.
      * intros q Hq. apply in_app_iff in Hq as [Hq|[<-|[]]]; [|lia].
        specialize (I1 q Hq). lia.
      * left. exists p. split; [|reflexivity]. apply in_app_iff. right. now left.
      * intros [<-|[]]. exists p. split; [|reflexivity].
        apply nth_error_snoc. now right.
      * intros (q & Hq & Hd). apply nth_error_snoc in Hq as [Hq|[-> _]];
          [|now left].
        apply nth_error_In in Hq. specialize (I1 q Hq). lia.
    + destruct (Z.eqb_spec (FileNameContent.potentialDiff p) minimum) as [Heq|Hne].
      * apply IH; [exact Hmax|]. repeat split.
        -- intros q Hq. apply in_app_iff in Hq as [Hq|[<-|[]]]; [|lia].
           now apply I1.
        -- left. exists p. split; [|exact Heq]. apply in_app_iff. right. now left.
        -- intros Hj. apply in_app_iff in Hj as [Hj|[<-|[]]].
           ++ apply I3 in Hj as (q & Hq & Hd). exists q. split; [|exact Hd].
              apply nth_error_snoc. now left.
           ++ exists p. split; [|exact Heq]. apply nth_error_snoc. now right.
        -- intros (q & Hq & Hd). apply in_app_iff.
           apply nth_error_snoc in Hq as [Hq|[-> _]].
           ++ left. apply I3. now exists q.
           ++ right. now left.
      * apply IH; [exact Hmax|]. repeat split.
        -- intros q Hq. apply in_app_iff in Hq as [Hq|[<-|[]]]; [|lia].
           now apply I1.
        -- destruct I2 as [(p0 & Hp0 & Hd)|Hm]; [left | now right].
           exists p0. split; [|exact Hd]. apply in_app_iff. now left.
        -- intros Hj. apply I3 in Hj as (q & Hq & Hd). exists q.
           split; [|exact Hd]. apply nth_error_snoc. now left.
        -- intros (q & Hq & Hd). apply I3.
           apply nth_error_snoc in Hq as [Hq|[_ ->]]; [now exists q | lia].
Qed.

Lemma combine_length_eq (A B : Type) (l1 : list A) (l2 : list B) :
  (List.length l2 =? List.length l1)%nat = true ->
  List.length l1 = List.length l2.
Proof. intros H. apply Nat.eqb_eq in H. lia. Qed.

(** The differences of the digit runs of parsed file names are within
    [int]. *)
Lemma collected_diff_range (pathThis pathOther : string) (n : Z) (a b : string) :
  collected (FileNameContent.parse pathThis) (FileNameContent.parse pathOther) n a b ->
  readDiff a b <= INT_MAX.
Proof.
  intros (Ha & Hb & _).
  destruct (parse_elements pathThis) as (_ & Rt & _).
  destruct (parse_elements pathOther) as (_ & Ro & _).
  apply (getNumberLoop_digits _ Rt) in Ha.
  apply (getNumberLoop_digits _ Ro) in Hb.
  apply stringToInt_digits_range in Ha, Hb.
  unfold readDiff, INT_MAX in *. lia.
Qed.


(** *** The padding rule and the values of the digit runs *)

Lemma isRun_not_empty (e : FileNameContent.FileNameElement) :
  isRun e = true -> FileNameContent.data e <> "".
Proof.
  unfold isRun. intros H. apply andb_true_iff in H as [H _].
  now destruct (FileNameContent.data e).
Qed.

Lemma getNumberLoop_not_empty (elements : list FileNameContent.FileNameElement) :
  forallb isRun elements = true ->
  forall (k n : Z) (a : string),
    FileNameContent.getNumberLoop elements k n = Some a -> a <> "".
Proof.
  induction elements as [|e rest IH]; intros Hr k n a; [discriminate|].
  cbn [forallb] in Hr. apply andb_true_iff in Hr as [He Hr].
  cbn [FileNameContent.getNumberLoop].
  destruct (FileNameContent.type e).
  - now apply IH.
  - destruct (k =? n).
    + intros [= <-]. now apply isRun_not_empty.
    + now apply IH.
Qed.

Lemma parsed_numbers_not_empty (path : string) (i : Z) (d : string) :
  FileNameContent.getNumberByIndex (FileNameContent.parse path) i = Some d ->
  d <> "".
Proof.
  destruct (parse_elements path) as (_ & Hr & _).
  apply (getNumberLoop_not_empty _ Hr).
Qed.










(** * Further properties of the code *)

(** ** The string helpers *)





Lemma get_some (s : string) :
  forall i, (i < length s)%nat -> exists c, get i s = Some c.
Proof.
  induction s as [|a s IH]; intros i Hi; [cbn in Hi; lia|].
  destruct i as [|i]; [now exists a|]. cbn [get]. apply IH. cbn in Hi. lia.
Qed.

Lemma get_not_contained (c : ascii) (s : string) :
  contains_char c s = false ->
  forall i x, get i s = Some x -> x <> c.
Proof.
  induction s as [|a s IH]; intros Hc i x; [destruct i; discriminate|].
  cbn [contains_char] in Hc. apply orb_false_iff in Hc as [Ha Hs].
  destruct i as [|i]; cbn [get].
  - intros [= <-]. now apply Ascii.eqb_neq.
  - now apply IH.
Qed.

Lemma substring_none (s : string) : forall n, substring n 0 s = "".
Proof. induction s as [|a s IH]; intros [|n]; cbn [substring]; auto. Qed.

Lemma substring_snoc (s : string) :
  forall n k c,
    get (n + k) s = Some c ->
    substring n (S k) s = substring n k s ++ String c "".
Proof.
  induction s as [|a s IH]; intros n k c; [destruct (n + k)%nat; discriminate|].
  destruct n as [|n].
  - destruct k as [|k]; cbn [Nat.add get substring append].
    + intros [= <-]. now rewrite substring_none.
    + intros H. now rewrite <- (IH 0%nat k c H).
  - cbn [Nat.add get substring]. apply IH.
Qed.

(** The loop of [removeFileExtension] over [k] characters that are not a
    dot. *)
Lemma removeExtLoop_run (filename : string) (stop : nat) :
  forall (k : nat) (extension : string),
    (stop + k <= length filename)%nat ->
    (forall i c, (stop <= i < stop + k)%nat ->
                 get i filename = Some c -> c <> "."%char) ->
    removeExtLoop filename (stop + k) extension
    = removeExtLoop filename stop (substring stop k filename ++ extension).
Proof.
  induction k as [|k IH]; intros extension Hlen Hdot.
  - now rewrite Nat.add_0_r, substring_none.
  - replace (stop + S k)%nat with (S (stop + k)) by lia.
    cbn [removeExtLoop].
    destruct (get_some filename (stop + k)) as (c & Hc); [lia|].
    rewrite Hc. assert (Hne : c <> "."%char) by (apply (Hdot (stop + k)%nat); [lia | exact Hc]).
    apply Ascii.eqb_neq in Hne. rewrite Hne.
    rewrite IH; [|lia|intros i x Hi; apply Hdot; lia].
    rewrite (substring_snoc _ _ _ _ Hc). now rewrite string_app_assoc.
Qed.

Lemma removeFileExtension_cut
      (base ext : string) (H : contains_char "." ext = false) :
  removeFileExtension (base ++ String "." ext) = (ext, base)
  /\ removeFileExtension ext = (ext, ext).
Proof.
  split; unfold removeFileExtension.
  - set (f := base ++ String "." ext).
    assert (Hf : f = (base ++ String "." "") ++ ext)
      by (unfold f; now rewrite string_app_assoc).
    assert (Hlen : length f = (S (length base) + length ext)%nat).
    { unfold f. rewrite str_length_app. cbn [length]. lia. }
    rewrite Hlen.
    rewrite (removeExtLoop_run f (S (length base)) (length ext) ""); [|lia|].
    + assert (Hs : substring (S (length base)) (length ext) f = ext).
      { rewrite Hf.
        replace (S (length base)) with (length (base ++ String "." ""))
          by (rewrite str_length_app; cbn [length]; lia).
        apply substring_app_right. }
      rewrite Hs, string_app_nil_r. cbn [removeExtLoop].
      assert (Hd : get (length base) f = Some "."%char).
      { pose proof (append_correct2 base (String "." ext) 0) as Hd0.
        cbn [Nat.add get] in Hd0. now symmetry. }
      rewrite Hd. cbn [Ascii.eqb Bool.eqb]. unfold f.
      now rewrite substring_app_left.
    + intros i c Hi Hg. rewrite Hf in Hg.
      replace i with ((i - S (length base)) + length (base ++ String "." ""))%nat in Hg
        by (rewrite str_length_app; cbn [length]; lia).
      rewrite <- append_correct2 in Hg.
      now apply (get_not_contained _ _ H) in Hg.
  - change (length ext) with (0 + length ext)%nat at 1.
    rewrite (removeExtLoop_run ext 0 (length ext) ""); [|cbn; lia|].
    + now rewrite substring_all, string_app_nil_r.
    + intros i c _ Hg. now apply (get_not_contained _ _ H) in Hg.
Qed.

(** X3. [removeFileExtension] cuts at the last dot: of [base.ext], where
    [ext] holds no dot, it returns [ext] and leaves [base].  A name without
    any dot is returned whole as the extension and is left as it is. *)
Theorem X3_removeFileExtension_cuts_at_last_dot
        (base ext : string) (H : contains_char "." ext = false) :
  removeFileExtension (base ++ String "." ext) = (ext, base)
  /\ removeFileExtension ext = (ext, ext).
Proof. exact (removeFileExtension_cut base ext H). Qed.

Lemma X3_removeFileExtension_cuts_at_last_dot_witness :
  removeFileExtension "file.####.jpg" = ("jpg", "file.####")
  /\ removeFileExtension "jpg" = ("jpg", "jpg").
Proof.
  apply (X3_removeFileExtension_cuts_at_last_dot "file.####" "jpg"). reflexivity.
Defined.

(** *** Numbers and their decimal writing *)

Lemma readDigits_uint_acc (d : Decimal.uint) :
  forall acc : positive,
    readDigits (NilEmpty.string_of_uint d) (Z.pos acc)
    = Z.pos (Pos.of_uint_acc d acc).
Proof.
  induction d; intros acc; cbn [NilEmpty.string_of_uint readDigits Pos.of_uint_acc];
    try reflexivity;
    match goal with
    | |- context [isdigit ?c] => replace (isdigit c) with true by reflexivity
    end;
    rewrite <- IHd; f_equal; unfold digitValue;
    match goal with
    | |- context [nat_of_ascii ?c] =>
        let v := eval cbv in (Z.of_nat (nat_of_ascii c)) in
        change (Z.of_nat (nat_of_ascii c)) with v
    end; lia.
Qed.

Lemma readDigits_uint (d : Decimal.uint) :
  readDigits (NilEmpty.string_of_uint d) 0 = Z.of_N (Pos.of_uint d).
Proof.
  induction d; cbn [NilEmpty.string_of_uint readDigits Pos.of_uint];
    try reflexivity;
    match goal with
    | |- context [isdigit ?c] => replace (isdigit c) with true by reflexivity
    end;
    [exact IHd | ..];
    match goal with
    | |- readDigits _ ?v = _ =>
        let p := eval cbv in v in change v with p
    end;
    apply readDigits_uint_acc.
Qed.

Lemma allDigits_uint (d : Decimal.uint) :
  allDigits (NilEmpty.string_of_uint d) = true.
Proof.
  induction d; cbn [NilEmpty.string_of_uint]; try reflexivity;
    rewrite allDigits_cons, IHd; reflexivity.
Qed.

(** The writing of a positive number is a non-empty run of digits. *)
Lemma stringFromInt_pos (p : positive) :
  stringFromInt (Z.pos p) = NilEmpty.string_of_uint (Pos.to_uint p)
  /\ allDigits (stringFromInt (Z.pos p)) = true
  /\ stringFromInt (Z.pos p) <> "".
Proof.
  unfold stringFromInt. cbn [Z.to_int NilZero.string_of_int].
  pose proof (DecimalPos.Unsigned.to_uint_nonnil p) as Hn.
  assert (E : NilZero.string_of_uint (Pos.to_uint p)
              = NilEmpty.string_of_uint (Pos.to_uint p)).
  { unfold NilZero.string_of_uint. destruct (Pos.to_uint p); congruence. }
  rewrite E. repeat split.
  - apply allDigits_uint.
  - destruct (Pos.to_uint p); cbn; congruence.
Qed.

Lemma readDigits_stringFromInt_pos (p : positive) :
  readDigits (stringFromInt (Z.pos p)) 0 = Z.pos p.
Proof.
  destruct (stringFromInt_pos p) as (-> & _).
  now rewrite readDigits_uint, DecimalPos.Unsigned.of_to.
Qed.

(** X4. Reading back with [stringToInt] what [stringFromInt] wrote gives
    the number, for every [int]. *)
Theorem X4_stringToInt_stringFromInt
        (nb : Z) (H : INT_MIN <= nb <= INT_MAX) :
  stringToInt (stringFromInt nb) = nb.
Proof.
  unfold INT_MIN, INT_MAX in H. destruct nb as [|p|p].
  - reflexivity.
  - destruct (stringFromInt_pos p) as (_ & Hd & _).
    rewrite (stringToInt_digits _ Hd), readDigits_stringFromInt_pos.
    unfold INT_MAX. lia.
  - unfold stringToInt, stringFromInt.
    cbn [Z.to_int NilZero.string_of_int skipws].
    replace (isspace "-") with false by reflexivity.
    change (NilZero.string_of_uint (Pos.to_uint p)) with (stringFromInt (Z.pos p)).
    rewrite readDigits_stringFromInt_pos.
    unfold clampInt, INT_MAX, INT_MIN.
    destruct (Z.gtb_spec (- Z.pos p) 2147483647); [lia|].
    destruct (Z.ltb_spec (- Z.pos p) (-2147483648)); lia.
Qed.

Lemma X4_stringToInt_stringFromInt_witness :
  stringToInt (stringFromInt (-42)) = -42.
Proof.
  apply X4_stringToInt_stringFromInt. unfold INT_MIN, INT_MAX. lia.
Defined.

(** *** Prefixes and suffixes *)

Lemma substring_split (s : string) :
  forall n, (n <= length s)%nat ->
            substring 0 n s ++ substring n (length s - n) s = s.
Proof.
  induction s as [|a s IH]; intros [|n] Hn; cbn [length] in Hn;
    cbn [substring length Nat.sub append].
  - reflexivity.
  - lia.
  - now rewrite substring_all.
  - rewrite IH; [reflexivity | lia].
Qed.

Lemma substring_is_prefix (p s : string) :
  substring 0 (length p) s = p <-> exists rest, s = p ++ rest.
Proof.
  split.
  - intros H. exists (substring (length p) (length s - length p) s).
    rewrite <- H at 1. symmetry. apply substring_split.
    apply (f_equal length) in H. rewrite length_substring in H. lia.
  - intros (rest & ->). apply substring_app_left.
Qed.

(** X5. [endsWith] holds exactly when [str] is some string followed by
    [suffix]; every string ends with the empty suffix. *)
Theorem X5_endsWith_suffix (str suffix : string) :
  endsWith str suffix = true <-> exists pre, str = pre ++ suffix.
Proof.
  unfold endsWith. rewrite andb_true_iff, Nat.leb_le, String.eqb_eq. split.
  - intros (Hlen & Hs). exists (substring 0 (length str - length suffix) str).
    pose proof (substring_split str (length str - length suffix)) as Hsp.
    replace (length str - (length str - length suffix))%nat
      with (length suffix) in Hsp by lia.
    rewrite Hs in Hsp. symmetry. apply Hsp. lia.
  - intros (pre & ->). rewrite str_length_app. split; [lia|].
    replace (length pre + length suffix - length suffix)%nat with (length pre) by lia.
    apply substring_app_right.
Qed.

(** X6. With case, [startsWith] holds exactly when [str] is [prefix]
    followed by some string.  Without case, the default, a non-empty
    [prefix] is compared up to letter case; the empty prefix is then found
    at the beginning of every string but the empty one. *)
Theorem X6_startsWith_prefix (str prefix : string) :
  (startsWith str prefix true = true <-> exists rest, str = prefix ++ rest)
  /\ (forall c p, prefix = String c p ->
                  (startsWith str prefix false = true <-> ciPrefix prefix str))
  /\ startsWith str "" false = negb (strEmpty str).
Proof.
  split; [split | split].
  - unfold startsWith, findStr, str_find. intros H.
    apply substring_is_prefix. destruct str as [|b s].
    + destruct prefix; [reflexivity | discriminate H].
    + cbn [index] in H. destruct (String.prefix prefix (String b s)) eqn:E.
      * now apply prefix_correct.
      * destruct (index 0 prefix s); discriminate H.
  - intros H. apply substring_is_prefix in H.
    unfold startsWith, findStr, str_find. destruct str as [|b s].
    + destruct prefix; [reflexivity | discriminate H].
    + cbn [index]. apply prefix_correct in H. now rewrite H.
  - intros c p ->. rewrite startsWith_ci by discriminate.
    apply ci_match_here_spec.
  - now destruct str.
Qed.

(** ** The pattern compiler *)

Lemma plainText_cons (c : ascii) (s : string) :
  plainText (String c s) = true ->
  Ascii.eqb c "#" = false /\ Ascii.eqb c "%" = false /\ plainText s = true.
Proof.
  unfold plainText. cbn [contains_char]. rewrite !negb_orb.
  intros H. apply andb_true_iff in H as [H1 H2].
  apply andb_true_iff in H1 as [H1 H1'], H2 as [H2 H2'].
  apply negb_true_iff in H1, H2. repeat split; try assumption.
  now rewrite H1', H2'.
Qed.

Lemma lastChar_plain (s : string) :
  forall prev, plainText s = true -> prev <> "%"%char -> lastChar s prev <> "%"%char.
Proof.
  induction s as [|c s IH]; intros prev Hs Hp; [exact Hp|].
  apply plainText_cons in Hs as (_ & Hc & Hs). cbn [lastChar].
  apply IH; [exact Hs | now apply Ascii.eqb_neq].
Qed.

(** A plain text read while no variable is pending goes to [commonPart]. *)
Lemma patternLoop_text (text : string) :
  forall (rest : string) (prev : ascii) (idx : Z) (cp : string) (ccf : Z)
         (sharp : bool) (parts : list string) (vars : list (string * Z)),
    plainText text = true ->
    patternLoop prev (text ++ rest)
                (mkPatternState false idx cp "" ccf sharp parts vars)
    = patternLoop (lastChar text prev) rest
                  (mkPatternState false idx (cp ++ text) "" ccf sharp parts vars).
Proof.
  induction text as [|c text IH]; intros rest prev idx cp ccf sharp parts vars H.
  - cbn [append lastChar]. now rewrite string_app_nil_r.
  - apply plainText_cons in H as (H1 & H2 & H).
    cbn [append patternLoop]. unfold patternStep. rewrite H1, H2.
    cbn [inPrintfLikeArg]. rewrite andb_false_r.
    unfold appendCommonPart, flushVariable.
    cbn [inPrintfLikeArg printfLikeArgIndex commonPart variable
         commonCharactersFound previousCharIsSharp commonParts
         variablesByOrder strEmpty lastChar].
    rewrite IH by exact H. unfold push_back. now rewrite string_app_assoc.
Qed.

(** A plain text read while a variable is pending closes the variable. *)
Lemma patternLoop_text_after_variable (c : ascii) (text : string) :
  forall (rest : string) (prev : ascii) (idx : Z) (v : ascii) (var : string)
         (ccf : Z) (sharp : bool) (parts : list string) (vars : list (string * Z)),
    plainText (String c text) = true ->
    patternLoop prev (String c text ++ rest)
                (mkPatternState false idx "" (String v var) ccf sharp parts vars)
    = patternLoop (lastChar text c) rest
                  (mkPatternState false idx (String c text) "" ccf sharp parts
                                  (vars ++ [(String v var, ccf)])).
Proof.
  intros rest prev idx v var ccf sharp parts vars H.
  apply plainText_cons in H as (H1 & H2 & H).
  cbn [append patternLoop]. unfold patternStep. rewrite H1, H2.
  cbn [inPrintfLikeArg]. rewrite andb_false_r.
  unfold appendCommonPart, flushVariable.
  cbn [inPrintfLikeArg printfLikeArgIndex commonPart variable
       commonCharactersFound previousCharIsSharp commonParts
       variablesByOrder strEmpty].
  now rewrite (patternLoop_text text rest c idx (push_back "" c)).
Qed.

Lemma hashes_push_back (n : nat) : push_back (hashes n) "#" = hashes (S n).
Proof.
  unfold push_back. induction n as [|n IH]; [reflexivity|].
  cbn [hashes append]. now rewrite IH.
Qed.

Lemma hashes_app (n : nat) (rest : string) :
  hashes (S n) ++ rest = String "#" (hashes n ++ rest).
Proof. reflexivity. Qed.

(** The rest of a run of ['#'], the first one being read. *)
Lemma patternLoop_more_hashes (n : nat) :
  forall (rest : string) (prev : ascii) (k : nat) (idx ccf : Z)
         (parts : list string) (vars : list (string * Z)),
    patternLoop prev (hashes n ++ rest)
                (mkPatternState false idx "" (hashes (S k)) ccf true parts vars)
    = patternLoop (lastChar (hashes n) prev) rest
                  (mkPatternState false idx "" (hashes (S k + n)) ccf true
                                  parts vars).
Proof.
  induction n as [|n IH]; intros rest prev k idx ccf parts vars.
  - cbn [hashes append lastChar]. now rewrite Nat.add_0_r.
  - rewrite hashes_app. cbn [patternLoop]. unfold patternStep.
    cbn [Ascii.eqb Bool.eqb]. unfold flushCommonPart, setSharp, appendVariable.
    cbn [inPrintfLikeArg printfLikeArgIndex commonPart variable
         commonCharactersFound previousCharIsSharp commonParts
         variablesByOrder strEmpty negb hashes lastChar].
    change (push_back (String "#" (hashes k)) "#")
      with (push_back (hashes (S k)) "#").
    rewrite hashes_push_back, IH.
    now replace (S (S k) + n)%nat with (S k + S n)%nat by lia.
Qed.

(** A run of ['#'] read while no variable is pending: the literal read so
    far is closed and the run becomes the pending variable. *)
Lemma patternLoop_hashes (n : nat) :
  forall (rest : string) (prev : ascii) (idx : Z) (cp : string) (ccf : Z)
         (sharp : bool) (parts : list string) (vars : list (string * Z)),
    patternLoop prev (hashes (S n) ++ rest)
                (mkPatternState false idx cp "" ccf sharp parts vars)
    = patternLoop "#" rest
                  (mkPatternState false idx "" (hashes (S n))
                                  (ccf + Z.of_nat (length cp)) true
                                  (parts ++ literals [cp]) vars).
Proof.
  intros rest prev idx cp ccf sharp parts vars.
  rewrite hashes_app. cbn [patternLoop]. unfold patternStep.
  cbn [Ascii.eqb Bool.eqb].
  assert (E : setSharp
                (appendVariable
                   (if negb (previousCharIsSharp
                               (flushCommonPart
                                  (mkPatternState false idx cp "" ccf sharp parts vars)))
                    then flushVariable
                           (flushCommonPart
                              (mkPatternState false idx cp "" ccf sharp parts vars))
                    else flushCommonPart
                           (mkPatternState false idx cp "" ccf sharp parts vars))
                   "#")
              = mkPatternState false idx "" (hashes 1)
                               (ccf + Z.of_nat (length cp)) true
                               (parts ++ literals [cp]) vars).
  { destruct cp as [|x cp], sharp; cbn; rewrite ?app_nil_r, ?Z.add_0_r;
      reflexivity. }
  rewrite E, (patternLoop_more_hashes n rest "#" 0).
  f_equal. clear. induction n as [|n IH]; [reflexivity | exact IH].
Qed.

Lemma patternLoop_end (prev : ascii) (st : PatternState) :
  patternLoop prev "" st = Some st.
Proof. reflexivity. Qed.

(** X7. A pattern without ['#'] and without ['%'] always compiles, to no
    variable and to itself as the only literal (to no literal when it is
    empty), followed by the literal of the extension when there is one. *)
Theorem X7_plain_pattern_is_one_literal
        (pattern patternExtension : string) (H : plainText pattern = true) :
  extractCommonPartsAndVariablesFromPattern pattern patternExtension
  = Some ((literals [pattern] ++ extensionLiteral patternExtension)%list, []).
Proof.
  unfold extractCommonPartsAndVariablesFromPattern, initPatternState.
  rewrite <- (string_app_nil_r pattern) at 1.
  rewrite (patternLoop_text pattern "" zero 0 "" 0 false [] [] H), patternLoop_end.
  cbn [append]. unfold extensionLiteral, literals.
  destruct pattern, (strEmpty patternExtension); reflexivity.
Qed.

Lemma X7_plain_pattern_is_one_literal_witness :
  extractCommonPartsAndVariablesFromPattern "shot_final" "png"
  = Some (["shot_final"; ".png"], []).
Proof. apply (X7_plain_pattern_is_one_literal "shot_final" "png"). reflexivity. Defined.

Lemma hash_field_tokens
      (before after patternExtension : string) (n : nat)
      (Hb : plainText before = true) (Ha : plainText after = true) :
  extractCommonPartsAndVariablesFromPattern
    (before ++ hashes (S n) ++ after) patternExtension
  = Some ((literals [before; after] ++ extensionLiteral patternExtension)%list,
          [(hashes (S n), Z.of_nat (length before))]).
Proof.
  unfold extractCommonPartsAndVariablesFromPattern, initPatternState.
  rewrite (patternLoop_text before _ zero 0 "" 0 false [] [] Hb).
  rewrite patternLoop_hashes. cbn [append app Z.add].
  destruct after as [|c after].
  - rewrite patternLoop_end. unfold extensionLiteral, literals.
    destruct before, (strEmpty patternExtension); reflexivity.
  - rewrite <- (string_app_nil_r (String c after)).
    cbn [hashes].
    rewrite (patternLoop_text_after_variable c after "" "#" 0 "#" (hashes n)
               (Z.of_nat (length before)) true _ [] Ha).
    rewrite patternLoop_end, string_app_nil_r. unfold extensionLiteral, literals.
    destruct before, (strEmpty patternExtension); reflexivity.
Qed.

(** X8. A pattern made of a plain text, a run of ['#'] and a plain text
    compiles to the two texts as literals (an empty one is left out), then
    the literal of the extension, and to the run as the only variable, which
    carries the length of the first text. *)
Theorem X8_hash_field_tokens
        (before after patternExtension : string) (n : nat)
        (Hb : plainText before = true) (Ha : plainText after = true) :
  extractCommonPartsAndVariablesFromPattern
    (before ++ hashes (S n) ++ after) patternExtension
  = Some ((literals [before; after] ++ extensionLiteral patternExtension)%list,
          [(hashes (S n), Z.of_nat (length before))]).
Proof. exact (hash_field_tokens before after patternExtension n Hb Ha). Qed.

Lemma X8_hash_field_tokens_witness :
  extractCommonPartsAndVariablesFromPattern "file.####_v" "jpg"
  = Some (["file."; "_v"; ".jpg"], [("####", 5)]).
Proof.
  apply (X8_hash_field_tokens "file." "_v" "jpg" 3); reflexivity.
Defined.

Lemma isdigit_in_field (c : ascii) :
  isdigit c = true ->
  Ascii.eqb c "#" = false /\ Ascii.eqb c "%" = false
  /\ closingLetter c = false /\ isalpha c = false.
Proof.
  destruct c as [[] [] [] [] [] [] [] []]; intros H; try discriminate H;
    repeat split.
Qed.

(** The digits of a printf-like field, once its ['0'] is read. *)
Lemma patternLoop_field_digits (digits : string) :
  forall (rest : string) (prev : ascii) (idx : Z) (var : string) (ccf : Z)
         (sharp : bool) (parts : list string) (vars : list (string * Z)),
    allDigits digits = true ->
    1 <= idx ->
    patternLoop prev (digits ++ rest)
                (mkPatternState true idx "" var ccf sharp parts vars)
    = patternLoop (lastChar digits prev) rest
                  (mkPatternState true (idx + Z.of_nat (length digits)) ""
                                  (var ++ digits) ccf sharp parts vars).
Proof.
  induction digits as [|c digits IH];
    intros rest prev idx var ccf sharp parts vars Hd Hi.
  - cbn [append lastChar length]. now rewrite Z.add_0_r, string_app_nil_r.
  - rewrite allDigits_cons in Hd. apply andb_true_iff in Hd as [Hc Hd].
    destruct (isdigit_in_field c Hc) as (H1 & H2 & H3 & H4).
    cbn [append patternLoop]. unfold patternStep. rewrite H1, H2.
    fold (closingLetter c). rewrite H3. cbn [andb inPrintfLikeArg].
    unfold appendVariable, setPrintf.
    cbn [inPrintfLikeArg printfLikeArgIndex commonPart variable
         commonCharactersFound previousCharIsSharp commonParts
         variablesByOrder lastChar].
    rewrite H4. destruct (Z.eqb_spec (idx + 1) 1) as [E|_]; [lia|].
    cbn [orb andb]. rewrite IH by (exact Hd || lia).
    unfold push_back. rewrite string_app_assoc. cbn [append length].
    now replace (idx + 1 + Z.of_nat (length digits))
      with (idx + Z.of_nat (S (length digits))) by lia.
Qed.

(** A printf-like field read while no variable is pending. *)
Lemma patternLoop_field (body : string) (t : ascii) :
  forall (rest : string) (prev : ascii) (idx : Z) (cp : string) (ccf : Z)
         (sharp : bool) (parts : list string) (vars : list (string * Z)),
    fieldBody body = true ->
    closingLetter t = true ->
    prev <> "%"%char ->
    exists idx',
      patternLoop prev (String "%" (body ++ String t rest))
                  (mkPatternState false idx cp "" ccf sharp parts vars)
      = patternLoop t rest
                    (mkPatternState false idx' "" ""
                                    (ccf + Z.of_nat (length cp)) sharp
                                    (parts ++ literals [cp])
                                    (vars ++ [(String "%" (body ++ String t ""),
                                               ccf + Z.of_nat (length cp))])).
Proof.
  intros rest prev idx cp ccf sharp parts vars Hbody Ht Hprev.
  assert (Hclose : forall p i var c' s' p' v',
             patternLoop p (String t rest)
                         (mkPatternState true i "" var c' s' p' v')
             = patternLoop t rest
                           (mkPatternState false i "" "" c' s' p'
                                           (v' ++ [(var ++ String t "", c')]))).
  { intros p i var c' s' p' v'. cbn [patternLoop]. unfold patternStep.
    assert (Ht1 : Ascii.eqb t "#" = false /\ Ascii.eqb t "%" = false).
    { unfold closingLetter in Ht.
      destruct (Ascii.eqb_spec t "d") as [->|]; [now split|].
      destruct (Ascii.eqb_spec t "v") as [->|]; [now split|].
      destruct (Ascii.eqb_spec t "V") as [->|]; [now split | discriminate Ht]. }
    destruct Ht1 as [-> ->]. fold (closingLetter t). rewrite Ht.
    cbn [andb inPrintfLikeArg]. unfold flushVariable, appendVariable, setPrintf.
    cbn [inPrintfLikeArg printfLikeArgIndex commonPart variable
         commonCharactersFound previousCharIsSharp commonParts variablesByOrder].
    rewrite push_back_not_empty. reflexivity. }
  assert (Hopen : forall next tail,
             Ascii.eqb next zero = false -> Ascii.eqb next "%" = false ->
             patternLoop prev (String "%" (String next tail))
                         (mkPatternState false idx cp "" ccf sharp parts vars)
             = patternLoop "%" (String next tail)
                           (mkPatternState true 0 "" "%"
                                           (ccf + Z.of_nat (length cp)) sharp
                                           (parts ++ literals [cp]) vars)).
  { intros next tail Hz Hp. cbn [patternLoop]. unfold patternStep.
    cbn [Ascii.eqb Bool.eqb]. rewrite Hz, Hp.
    apply Ascii.eqb_neq in Hprev. rewrite Hprev.
    cbn [negb inPrintfLikeArg].
    destruct cp; cbn; rewrite ?app_nil_r, ?Z.add_0_r; reflexivity. }
  assert (Htz : Ascii.eqb t zero = false /\ Ascii.eqb t "%" = false).
  { unfold closingLetter in Ht.
    destruct (Ascii.eqb_spec t "d") as [->|]; [now split|].
    destruct (Ascii.eqb_spec t "v") as [->|]; [now split|].
    destruct (Ascii.eqb_spec t "V") as [->|]; [now split | discriminate Ht]. }
  destruct body as [|z digits].
  - exists 0. cbn [append]. rewrite (Hopen t rest) by apply Htz.
    rewrite Hclose. reflexivity.
  - cbn [fieldBody] in Hbody. apply andb_true_iff in Hbody as [Hz Hd].
    apply Ascii.eqb_eq in Hz. subst z.
    exists (1 + Z.of_nat (length digits)). cbn [append].
    rewrite (Hopen "0"%char (digits ++ String t rest)) by reflexivity.
    cbn [patternLoop]. unfold patternStep at 1.
    cbn [Ascii.eqb Bool.eqb andb orb inPrintfLikeArg].
    unfold appendVariable, setPrintf.
    cbn [inPrintfLikeArg printfLikeArgIndex commonPart variable
         commonCharactersFound previousCharIsSharp commonParts variablesByOrder].
    replace (isalpha "0") with false by reflexivity.
    cbn [Z.add Z.eqb Pos.eqb Ascii.eqb Bool.eqb negb andb orb].
    change (push_back "%" "0") with "%0".
    rewrite (patternLoop_field_digits digits (String t rest) "0" 1 "%0")
      by (exact Hd || lia).
    rewrite Hclose. unfold push_back. now rewrite string_app_assoc.
Qed.

(** X9. A pattern made of a plain text, a printf-like field and a plain
    text compiles to the two texts as literals and to the field as the only
    variable, which carries the length of the first text.  The field is a
    ['%'], nothing or a ['0'] followed by digits, and one of the letters
    [d], [v] and [V]. *)
Theorem X9_printf_field_tokens
        (before body after patternExtension : string) (t : ascii)
        (Hb : plainText before = true) (Ha : plainText after = true)
        (Hbody : fieldBody body = true) (Ht : closingLetter t = true) :
  extractCommonPartsAndVariablesFromPattern
    (before ++ String "%" (body ++ String t after)) patternExtension
  = Some ((literals [before; after] ++ extensionLiteral patternExtension)%list,
          [(String "%" (body ++ String t ""), Z.of_nat (length before))]).
Proof.
  unfold extractCommonPartsAndVariablesFromPattern, initPatternState.
  rewrite (patternLoop_text before _ zero 0 "" 0 false [] [] Hb).
  assert (Hprev : lastChar before zero <> "%"%char)
    by (apply lastChar_plain; [exact Hb | discriminate]).
  destruct (patternLoop_field body t after (lastChar before zero) 0
                              ("" ++ before) 0 false [] [] Hbody Ht Hprev)
    as (idx' & ->).
  cbn [append app Z.add].
  rewrite <- (string_app_nil_r after).
  rewrite (patternLoop_text after "" t idx' "" _ false _ _ Ha), patternLoop_end.
  rewrite ?string_app_nil_r. cbn [append]. unfold extensionLiteral, literals.
  destruct before, after, (strEmpty patternExtension); reflexivity.
Qed.

Lemma X9_printf_field_tokens_witness :
  extractCommonPartsAndVariablesFromPattern "file%04dname" "jpg"
  = Some (["file"; "name"; ".jpg"], [("%04d", 4)]).
Proof.
  apply (X9_printf_field_tokens "file" "04" "name" "jpg" "d"); reflexivity.
Defined.

(** ** Rendering a file name *)

Lemma find_last_of_none (c : ascii) (s : string) :
  find_last_of c s = None -> contains_char c s = false.
Proof.
  induction s as [|a s IH]; [reflexivity|].
  cbn [find_last_of contains_char].
  destruct (find_last_of c s); [discriminate|].
  destruct (Ascii.eqb a c); [discriminate|]. intros _. now apply IH.
Qed.

(** What [removeFileExtension] returns are pieces of its argument. *)
Lemma removeFileExtension_pieces (filename : string) :
  (removeFileExtension filename = (filename, filename))
  \/ exists base ext,
      filename = base ++ String "." ext
      /\ removeFileExtension filename = (ext, base).
Proof.
  destruct (find_last_of "." filename) as [p|] eqn:E.
  - right. destruct (find_last_of_split _ _ _ E) as (base & ext & -> & _ & Hd).
    exists base, ext. split; [reflexivity|].
    apply (removeFileExtension_cut base ext Hd).
  - left. apply find_last_of_none in E.
    apply (removeFileExtension_cut "" filename E).
Qed.

Lemma plainText_app (a b : string) :
  plainText (a ++ b) = plainText a && plainText b.
Proof.
  unfold plainText. rewrite !contains_char_app, !negb_orb.
  destruct (contains_char "#" a), (contains_char "#" b),
    (contains_char "%" a), (contains_char "%" b); reflexivity.
Qed.

(** A plain text compiles to no variable, also for the callers that ignore
    the boolean. *)
Lemma extractVectors_plain (text patternExtension : string) :
  plainText text = true ->
  snd (snd (extractVectors text patternExtension)) = [].
Proof.
  intros H. unfold extractVectors, initPatternState.
  assert (E : forall t prev idx cp ccf sharp parts vars,
             plainText t = true ->
             patternLoopPartial prev t
               (mkPatternState false idx cp "" ccf sharp parts vars)
             = (true, mkPatternState false idx (cp ++ t) "" ccf sharp parts vars)).
  { induction t as [|c t IH]; intros prev idx cp ccf sharp parts vars Ht.
    - cbn. now rewrite string_app_nil_r.
    - apply plainText_cons in Ht as (H1 & H2 & Ht).
      cbn [patternLoopPartial]. unfold patternStep. rewrite H1, H2.
      cbn [inPrintfLikeArg]. rewrite andb_false_r.
      unfold appendCommonPart, flushVariable.
      cbn [inPrintfLikeArg printfLikeArgIndex commonPart variable
           commonCharactersFound previousCharIsSharp commonParts
           variablesByOrder strEmpty].
      rewrite IH by exact Ht. unfold push_back. now rewrite string_app_assoc. }
  rewrite (E text zero 0 "" 0 false [] [] H). cbn [append].
  now destruct text.
Qed.

(** X10. A pattern without ['#'] and without ['%'] is rendered as itself,
    whatever the frame and the view. *)
Theorem X10_plain_pattern_renders_as_itself
        (pattern : string) (frameNumber viewNumber : Z)
        (H : plainText pattern = true) :
  generateFileNameFromPattern pattern frameNumber viewNumber = Ret pattern.
Proof.
  unfold generateFileNameFromPattern.
  destruct (removePath_spec pattern) as (Hcut & _).
  assert (Hu : plainText (snd (removePath pattern)) = true).
  { rewrite <- Hcut, plainText_app in H. now apply andb_true_iff in H. }
  destruct (removeFileExtension_pieces (snd (removePath pattern)))
    as [-> | (base & ext & Hf & ->)].
  - destruct (strEmpty (snd (removePath pattern)));
      now rewrite extractVectors_plain.
  - rewrite Hf, plainText_app in Hu. apply andb_true_iff in Hu as [Hbase Hext].
    apply plainText_cons in Hext as (_ & _ & Hext).
    destruct (strEmpty base); now rewrite extractVectors_plain.
Qed.

Lemma X10_plain_pattern_renders_as_itself_witness :
  generateFileNameFromPattern "/dir/plain.png" 12 1 = Ret "/dir/plain.png".
Proof. apply X10_plain_pattern_renders_as_itself. reflexivity. Defined.

(** The writing of a positive number does not begin with ['0']. *)
Lemma to_uint_no_leading_zero (p : positive) (l : Decimal.uint) :
  Pos.to_uint p <> Decimal.D0 l.
Proof.
  intros E.
  pose proof (DecimalPos.Unsigned.to_of (Pos.to_uint p)) as Hn.
  rewrite DecimalPos.Unsigned.of_to in Hn. cbn [N.to_uint] in Hn.
  rewrite E in Hn. unfold Decimal.unorm in Hn.
  rewrite DecimalFacts.nzhead_D0 in Hn.
  destruct (Decimal.nzhead l) eqn:Ez; try discriminate Hn.
  - injection Hn as ->. now apply (DecimalPos.Unsigned.to_uint_nonzero p).
  - apply (DecimalFacts.nzhead_nonzero l l). rewrite Ez. exact (eq_sym Hn).
Qed.

Lemma stringFromInt_pos_no_leading_zero (p : positive) :
  countPrepending0s (stringFromInt (Z.pos p)) = 0%nat.
Proof.
  destruct (stringFromInt_pos p) as (-> & _).
  pose proof (to_uint_no_leading_zero p) as Hz.
  destruct (Pos.to_uint p); try reflexivity. now contradiction (Hz u).
Qed.

Lemma prependZeros_length (k : nat) :
  forall s, length (prependZeros k s) = (k + length s)%nat.
Proof.
  induction k as [|k IH]; intros s; [reflexivity|].
  cbn [prependZeros]. rewrite IH. cbn [length]. lia.
Qed.

Lemma prependZeros_digits (k : nat) :
  forall s, allDigits (prependZeros k s) = allDigits s.
Proof.
  induction k as [|k IH]; intros s; [reflexivity|].
  cbn [prependZeros]. now rewrite IH.
Qed.

Lemma prependZeros_value (k : nat) :
  forall s, readDigits (prependZeros k s) 0 = readDigits s 0.
Proof.
  induction k as [|k IH]; intros s; [reflexivity|].
  cbn [prependZeros]. now rewrite IH.
Qed.

(** The writing of a number that is not negative: digits, not empty, read
    back as the number. *)
Lemma stringFromInt_nonneg (nb : Z) :
  0 <= nb ->
  allDigits (stringFromInt nb) = true
  /\ (1 <= length (stringFromInt nb))%nat
  /\ readDigits (stringFromInt nb) 0 = nb
  /\ ((1 < length (stringFromInt nb))%nat ->
      countPrepending0s (stringFromInt nb) = 0%nat).
Proof.
  intros H. destruct nb as [|p|p]; [| |lia].
  - split; [reflexivity|]. split; [cbn; lia|]. split; [reflexivity|].
    cbn. lia.
  - destruct (stringFromInt_pos p) as (_ & Hd & Hne).
    split; [|split; [|split]].
    + exact Hd.
    + destruct (stringFromInt (Z.pos p)); [contradiction | cbn; lia].
    + apply readDigits_stringFromInt_pos.
    + intros _. apply stringFromInt_pos_no_leading_zero.
Qed.

(** What a frame field of [width] characters accepts among the zero-padded
    writings. *)
Lemma padded_frame_checked (width : nat) (frameNumber : Z) :
  (1 <= width)%nat ->
  0 <= frameNumber <= INT_MAX ->
  let text := padFrame width (stringFromInt frameNumber) in
  (width <= length text)%nat
  /\ ((width <? length text)%nat && (0 <? countPrepending0s text)%nat = false)
  /\ stringToInt text = frameNumber.
Proof.
  intros Hw [H0 Hmax]. cbv zeta. unfold padFrame.
  destruct (stringFromInt_nonneg frameNumber H0) as (Hd & Hlen & Hv & Hz).
  set (s := stringFromInt frameNumber) in *.
  split; [|split].
  - rewrite prependZeros_length. lia.
  - destruct (Nat.ltb_spec width (length (prependZeros (width - length s) s)))
      as [Hlt|]; [|reflexivity].
    rewrite prependZeros_length in Hlt.
    replace (width - length s)%nat with 0%nat by lia. cbn [prependZeros andb].
    rewrite Hz by lia. reflexivity.
  - rewrite stringToInt_digits by now rewrite prependZeros_digits.
    rewrite prependZeros_value, Hv. unfold INT_MAX in *. lia.
Qed.

(** X11. What is rendered for a run of ['#'] is what this run validates:
    the frame number written by [generateFileNameFromPattern] for the field,
    padded with ['0'] to the length of the run, is accepted by
    [checkVariable] as a frame number, with the frame number as value. *)
Theorem X11_rendered_hash_field_is_validated
        (pattern : string) (n : nat) (frameNumber viewNumber : Z)
        (H : 0 <= frameNumber <= INT_MAX) :
  exists text,
    renderVariable pattern (hashes (S n)) frameNumber viewNumber = Ret text
    /\ checkVariable (hashes (S n)) text 0 = Ret (Some frameNumber).
Proof.
  assert (Hl : forall k, length (hashes k) = k)
    by (induction k as [|k IH]; cbn; congruence).
  exists (padFrame (S n) (stringFromInt frameNumber)). split.
  - unfold renderVariable. cbn [hashes contains_char Ascii.eqb Bool.eqb orb].
    change (String "#" (hashes n)) with (hashes (S n)). now rewrite Hl.
  - destruct (padded_frame_checked (S n) frameNumber (le_n_S _ _ (Nat.le_0_l n)) H)
      as (H1 & H2 & H3).
    unfold checkVariable.
    cbn [hashes String.eqb Ascii.eqb Bool.eqb contains_char orb Z.eqb negb].
    change (String "#" (hashes n)) with (hashes (S n)). rewrite Hl.
    destruct (Nat.ltb_spec (length (padFrame (S n) (stringFromInt frameNumber)))
                           (S n)); [lia|].
    now rewrite H2, H3.
Qed.

Lemma X11_rendered_hash_field_is_validated_witness :
  exists text,
    renderVariable "file.####.jpg" "####" 7 (-1) = Ret text
    /\ checkVariable "####" text 0 = Ret (Some 7).
Proof.
  apply (X11_rendered_hash_field_is_validated "file.####.jpg" 3 7 (-1)).
  unfold INT_MAX. lia.
Defined.

(** *** Printf-like frame fields *)

Lemma removeAll_single (str toRemove : string) (cs : bool) (j : nat) :
  str <> "" ->
  findStr str toRemove 0 cs = Some j ->
  findStr (erase str j (length toRemove)) toRemove j cs = None ->
  removeAllOccurences str toRemove cs = erase str j (length toRemove).
Proof.
  intros Hne H1 H2. unfold removeAllOccurences.
  destruct str as [|a str]; [contradiction|].
  cbn [length Nat.eqb removeAllLoop]. rewrite H1.
  destruct (length str); cbn [removeAllLoop]; now rewrite H2.
Qed.

Lemma ci_search_digits_none (c : ascii) (r digits : string) :
  (forall a, isdigit a = true -> my_equal a c = false) ->
  allDigits digits = true ->
  ci_search digits (String c r) = length digits.
Proof.
  intros Hc. induction digits as [|a digits IH]; [reflexivity|].
  rewrite allDigits_cons, andb_true_iff. intros [Ha Hd].
  cbn [ci_search ci_match_here length]. now rewrite (Hc a Ha), (IH Hd).
Qed.

Lemma ci_search_after_digits (c : ascii) (r digits tail : string) :
  (forall a, isdigit a = true -> my_equal a c = false) ->
  allDigits digits = true ->
  ci_search (digits ++ tail) (String c r)
  = (length digits + ci_search tail (String c r))%nat.
Proof.
  intros Hc. induction digits as [|a digits IH]; [reflexivity|].
  rewrite allDigits_cons, andb_true_iff. intros [Ha Hd].
  cbn [append ci_search ci_match_here length]. now rewrite (Hc a Ha), (IH Hd).
Qed.

Lemma isdigit_not_field_char (a : ascii) :
  isdigit a = true ->
  my_equal a "%" = false /\ my_equal a "d" = false
  /\ Ascii.eqb a "#" = false /\ Ascii.eqb a "v" = false /\ Ascii.eqb a "V" = false.
Proof.
  destruct a as [[] [] [] [] [] [] [] []]; intros H; try discriminate H;
    repeat split.
Qed.

Lemma digits_hold_no (c : ascii) (digits : string) :
  (forall a, isdigit a = true -> Ascii.eqb a c = false) ->
  allDigits digits = true -> contains_char c digits = false.
Proof.
  intros Hc. induction digits as [|a digits IH]; [reflexivity|].
  rewrite allDigits_cons, andb_true_iff. intros [Ha Hd].
  cbn [contains_char]. now rewrite (Hc a Ha), (IH Hd).
Qed.

(** The count of a field [%0<digits>d] is what its digits spell. *)
Lemma field_count (digits : string) :
  allDigits digits = true ->
  removeAllOccurences
    (removeAllOccurences (String "%" (String "0" (digits ++ "d"))) "%0" false)
    "d" false
  = digits.
Proof.
  intros Hd.
  assert (Hp : forall a, isdigit a = true -> my_equal a "%" = false)
    by (intros a Ha; apply (isdigit_not_field_char a Ha)).
  assert (Hdd : forall a, isdigit a = true -> my_equal a "d" = false)
    by (intros a Ha; apply (isdigit_not_field_char a Ha)).
  assert (E1 : removeAllOccurences (String "%" (String "0" (digits ++ "d")))
                                   "%0" false = digits ++ "d").
  { rewrite (removeAll_single _ "%0" false 0).
    - unfold erase. cbn [length substring Nat.add Nat.sub append].
      rewrite Nat.sub_0_r. apply substring_all.
    - discriminate.
    - unfold findStr, ci_find_substr. cbn [ci_search ci_match_here].
      replace (my_equal "%" "%") with true by reflexivity.
      replace (my_equal "0" "0") with true by reflexivity.
      now destruct (digits ++ "d").
    - unfold erase. cbn [length substring Nat.add Nat.sub append].
      rewrite Nat.sub_0_r, substring_all.
      unfold findStr, ci_find_substr.
      rewrite (ci_search_after_digits "%" "0" digits "d" Hp Hd).
      rewrite str_length_app. cbn [ci_search ci_match_here length].
      rewrite andb_false_r. now rewrite Nat.eqb_refl. }
  rewrite E1.
  assert (Hs : ci_search (digits ++ "d") "d" = length digits).
  { rewrite (ci_search_after_digits "d" "" digits "d" Hdd Hd).
    cbn [ci_search ci_match_here].
    replace (my_equal "d" "d") with true by reflexivity. cbn [andb]. lia. }
  assert (Hf : findStr (digits ++ "d") "d" 0 false = Some (length digits)).
  { unfold findStr, ci_find_substr. rewrite Hs, str_length_app. cbn [length].
    destruct (Nat.eqb_spec (length digits) (length digits + 1)); [lia | reflexivity]. }
  assert (He : erase (digits ++ "d") (length digits) (length "d") = digits).
  { unfold erase. rewrite substring_app_left, str_length_app. cbn [length].
    replace (length digits + 1 - (length digits + 1))%nat with 0%nat by lia.
    now rewrite substring_none, string_app_nil_r. }
  rewrite (removeAll_single _ "d" false (length digits)).
  - exact He.
  - destruct digits; discriminate.
  - exact Hf.
  - rewrite He. unfold findStr, ci_find_substr.
    rewrite (ci_search_digits_none "d" "" digits Hdd Hd). now rewrite Nat.eqb_refl.
Qed.

Lemma endsWith_app (pre suffix : string) : endsWith (pre ++ suffix) suffix = true.
Proof.
  unfold endsWith. rewrite str_length_app.
  replace (length pre + length suffix - length suffix)%nat with (length pre) by lia.
  rewrite substring_app_right, String.eqb_refl.
  destruct (Nat.leb_spec (length suffix) (length pre + length suffix)); [reflexivity | lia].
Qed.

Lemma hashes_length (k : nat) : length (hashes k) = k.
Proof. induction k as [|k IH]; cbn; congruence. Qed.

(** X12. A field [%0<N>d], [N] being at least 1, is validated and rendered
    exactly like a run of [N] characters ['#']: [checkVariable] gives the
    same answer for every substring and kind, and the same text is written
    for every frame. *)
Theorem X12_printf_field_is_a_hash_run
        (digits variable pattern : string) (type frameNumber viewNumber : Z)
        (Hd : allDigits digits = true) (Hn : 1 <= stringToInt digits) :
  checkVariable (String "%" (String "0" (digits ++ "d"))) variable type
  = checkVariable (hashes (Z.to_nat (stringToInt digits))) variable type
  /\ renderVariable pattern (String "%" (String "0" (digits ++ "d")))
                    frameNumber viewNumber
     = renderVariable pattern (hashes (Z.to_nat (stringToInt digits)))
                      frameNumber viewNumber.
Proof.
  assert (Hhash : contains_char "#" (String "%" (String "0" (digits ++ "d"))) = false).
  { cbn [contains_char Ascii.eqb Bool.eqb orb]. rewrite contains_char_app.
    rewrite (digits_hold_no "#" digits); [reflexivity | | exact Hd].
    intros a Ha. apply (isdigit_not_field_char a Ha). }
  assert (Hstart : startsWith (String "%" (String "0" (digits ++ "d"))) "%0" false
                   = true).
  { rewrite startsWith_ci by discriminate. cbn [ci_match_here].
    replace (my_equal "%" "%") with true by reflexivity.
    replace (my_equal "0" "0") with true by reflexivity.
    now destruct (digits ++ "d"). }
  assert (Hend : endsWith (String "%" (String "0" (digits ++ "d"))) "d" = true).
  { change (String "%" (String "0" (digits ++ "d")))
      with (String "%" (String "0" digits) ++ "d").
    replace (String "%" (String "0" (digits ++ "d")))
      with ((String "%" (String "0" digits)) ++ "d") by reflexivity.
    apply endsWith_app. }
  destruct (Z.to_nat (stringToInt digits)) as [|m] eqn:Em; [lia|].
  assert (HN : stringToInt digits = Z.of_nat (S m)) by lia.
  split.
  - unfold checkVariable.
    cbn [String.eqb Ascii.eqb Bool.eqb hashes].
    rewrite Hhash, Hstart, Hend, (field_count digits Hd). cbn [andb contains_char
      Ascii.eqb Bool.eqb orb].
    change (String "#" (hashes m)) with (hashes (S m)). rewrite hashes_length, HN.
    destruct (negb (type =? 0)); [reflexivity|].
    destruct (Z.ltb_spec (Z.of_nat (length variable)) (Z.of_nat (S m)));
      destruct (Nat.ltb_spec (length variable) (S m)); try lia; [reflexivity|].
    destruct (Z.ltb_spec (Z.of_nat (S m)) (Z.of_nat (length variable)));
      destruct (Nat.ltb_spec (S m) (length variable)); try lia; reflexivity.
  - unfold renderVariable. cbn [hashes].
    rewrite Hhash, Hstart, Hend, (field_count digits Hd).
    cbn [contains_char Ascii.eqb Bool.eqb orb andb].
    change (String "#" (hashes m)) with (hashes (S m)). rewrite hashes_length, Em.
    assert (Hv : forall c, (c = "v" \/ c = "V")%char ->
                           str_find (String "%" (String "0" (digits ++ "d")))
                                    (String "%" (String c "")) 0 = None).
    { intros c Hc. apply (str_find_absent c).
      - cbn [contains_char]. rewrite Ascii.eqb_refl. now destruct (Ascii.eqb "%" c).
      - cbn [contains_char]. rewrite contains_char_app.
        rewrite (digits_hold_no c digits); [|intros a Ha|exact Hd].
        + destruct Hc as [-> | ->]; reflexivity.
        + destruct Hc as [-> | ->]; apply (isdigit_not_field_char a Ha). }
    rewrite (Hv "v"%char), (Hv "V"%char) by auto. reflexivity.
Qed.

Lemma X12_printf_field_is_a_hash_run_witness :
  checkVariable "%04d" "0012" 0 = checkVariable "####" "0012" 0
  /\ renderVariable "f%04d" "%04d" 7 0 = renderVariable "f%04d" "####" 7 0.
Proof.
  apply (X12_printf_field_is_a_hash_run "4" "0012" "f%04d" 0 7 0);
    [reflexivity | vm_compute; discriminate].
Defined.

(** *** Rendering a pattern with one run of ['#'] *)

Lemma patternLoopPartial_ok (rest : string) :
  forall (prev : ascii) (st st' : PatternState),
    patternLoop prev rest st = Some st' ->
    patternLoopPartial prev rest st = (true, st').
Proof.
  induction rest as [|c rest IH]; intros prev st st'.
  - now intros [= <-].
  - cbn [patternLoop patternLoopPartial].
    destruct (patternStep prev c _ st) as [st1|]; [apply IH | discriminate].
Qed.

(** When the pattern compiles, the callers that ignore the boolean get the
    same vectors. *)
Lemma extractVectors_ok (pattern patternExtension : string)
      (tokens : list string * list (string * Z)) :
  extractCommonPartsAndVariablesFromPattern pattern patternExtension = Some tokens ->
  extractVectors pattern patternExtension = (true, tokens).
Proof.
  unfold extractCommonPartsAndVariablesFromPattern, extractVectors.
  destruct (patternLoop zero pattern initPatternState) as [st|] eqn:E;
    [|discriminate].
  rewrite (patternLoopPartial_ok _ _ _ _ E). now intros [= <-].
Qed.

Lemma contains_none_find_last (c : ascii) (s : string) :
  contains_char c s = false -> find_last_of c s = None.
Proof.
  induction s as [|a s IH]; [reflexivity|].
  cbn [contains_char find_last_of]. intros H.
  apply orb_false_iff in H as [Ha Hs]. now rewrite (IH Hs), Ha.
Qed.

Lemma removePath_no_separator (s : string) :
  noSeparator s = true -> removePath s = ("", s).
Proof.
  unfold noSeparator, removePath. intros H.
  apply andb_true_iff in H as [H1 H2]. apply negb_true_iff in H1, H2.
  now rewrite (contains_none_find_last _ _ H1), (contains_none_find_last _ _ H2).
Qed.

Lemma noSeparator_app (a b : string) :
  noSeparator (a ++ b) = noSeparator a && noSeparator b.
Proof.
  unfold noSeparator. rewrite !contains_char_app, !negb_orb.
  destruct (contains_char "/" a), (contains_char "/" b),
    (contains_char "\" a), (contains_char "\" b); reflexivity.
Qed.

Lemma noSeparator_hashes (n : nat) : noSeparator (hashes n) = true.
Proof. induction n as [|n IH]; [reflexivity | exact IH]. Qed.

Lemma my_equal_hash (a : ascii) : my_equal a "#" = Ascii.eqb a "#".
Proof. destruct a as [[] [] [] [] [] [] [] []]; reflexivity. Qed.

Lemma ci_match_here_hashes (n : nat) (rest : string) :
  ci_match_here (hashes n ++ rest) (hashes n) = true.
Proof.
  induction n as [|n IH]; cbn [hashes append ci_match_here].
  - now destruct rest.
  - now rewrite IH.
Qed.

(** The first run of ['#'] of a text that begins without any. *)
Lemma ci_find_hashes (before rest : string) (n : nat) :
  contains_char "#" before = false ->
  ci_find_substr (before ++ hashes (S n) ++ rest) (hashes (S n))
  = Some (length before).
Proof.
  intros Hb. unfold ci_find_substr.
  assert (Hs : ci_search (before ++ hashes (S n) ++ rest) (hashes (S n))
               = length before).
  { induction before as [|a before IH].
    - cbn [append length].
      pose proof (ci_match_here_hashes (S n) rest) as Hm.
      destruct (hashes (S n) ++ rest); cbn [ci_search]; now rewrite Hm.
    - cbn [contains_char] in Hb. apply orb_false_iff in Hb as [Ha Hb].
      cbn [append length]. rewrite <- (IH Hb).
      cbn [hashes ci_search ci_match_here].
      now rewrite my_equal_hash, Ha. }
  rewrite Hs, !str_length_app, hashes_length.
  destruct (Nat.eqb_spec (length before) (length before + (S n + length rest)));
    [lia | reflexivity].
Qed.

Lemma replace_middle (before middle rest text : string) :
  replace (before ++ middle ++ rest) (length before) (length middle) text
  = before ++ text ++ rest.
Proof.
  unfold replace. rewrite substring_app_left. f_equal. f_equal.
  rewrite <- string_app_assoc.
  replace (length before + length middle)%nat with (length (before ++ middle))
    by apply str_length_app.
  rewrite (str_length_app (before ++ middle) rest).
  replace (length (before ++ middle) + length rest - length (before ++ middle))%nat
    with (length rest) by lia.
  apply substring_app_right.
Qed.

Lemma hash_pattern_rendering
      (before after ext : string) (n : nat) (frameNumber viewNumber : Z)
      (Hb : plainText before = true) (Ha : plainText after = true)
      (Hsep : noSeparator (before ++ after ++ ext) = true)
      (Hdot : contains_char "." ext = false) :
  generateFileNameFromPattern
    (before ++ hashes (S n) ++ after ++ String "." ext) frameNumber viewNumber
  = Ret (before ++ padFrame (S n) (stringFromInt frameNumber)
                ++ after ++ String "." ext).
Proof.
  unfold generateFileNameFromPattern.
  rewrite !noSeparator_app in Hsep.
  apply andb_true_iff in Hsep as [Hs1 Hs2]. apply andb_true_iff in Hs2 as [Hs2 Hs3].
  rewrite removePath_no_separator.
  2:{ rewrite !noSeparator_app, Hs1, Hs2, noSeparator_hashes.
      change (String "." ext) with ("." ++ ext). now rewrite noSeparator_app, Hs3. }
  cbn [snd].
  replace (before ++ hashes (S n) ++ after ++ String "." ext)
    with ((before ++ hashes (S n) ++ after) ++ String "." ext) at 1
    by now rewrite !string_app_assoc.
  destruct (removeFileExtension_cut (before ++ hashes (S n) ++ after) ext Hdot)
    as [-> _].
  assert (Hne : strEmpty (before ++ hashes (S n) ++ after) = false)
    by (destruct before; reflexivity).
  rewrite Hne.
  rewrite (extractVectors_ok _ _ _ (hash_field_tokens before after ext n Hb Ha)).
  cbn [snd renderLoop].
  assert (Hh : contains_char "#" (hashes (S n)) = true) by reflexivity.
  unfold renderVariable. rewrite Hh, hashes_length. unfold findStr.
  assert (Hbh : contains_char "#" before = false).
  { unfold plainText in Hb. apply andb_true_iff in Hb as [Hb _].
    now apply negb_true_iff in Hb. }
  rewrite (ci_find_hashes before _ n Hbh).
  pose proof (replace_middle before (hashes (S n)) (after ++ String "." ext)
                (padFrame (S n) (stringFromInt frameNumber))) as Hr.
  rewrite hashes_length in Hr. now rewrite Hr.
Qed.

(** X13. A pattern without directory made of a plain text, a run of ['#'],
    a plain text and an extension is rendered by writing, in place of the
    run, the frame number padded with ['0'] to the length of the run; the
    view plays no part. *)
Theorem X13_hash_pattern_rendering
        (before after ext : string) (n : nat) (frameNumber viewNumber : Z)
        (Hb : plainText before = true) (Ha : plainText after = true)
        (Hsep : noSeparator (before ++ after ++ ext) = true)
        (Hdot : contains_char "." ext = false) :
  generateFileNameFromPattern
    (before ++ hashes (S n) ++ after ++ String "." ext) frameNumber viewNumber
  = Ret (before ++ padFrame (S n) (stringFromInt frameNumber)
                ++ after ++ String "." ext).
Proof.
  exact (hash_pattern_rendering before after ext n frameNumber viewNumber
                                Hb Ha Hsep Hdot).
Qed.

Lemma X13_hash_pattern_rendering_witness :
  generateFileNameFromPattern "file.####.jpg" 7 (-1) = Ret "file.0007.jpg".
Proof.
  apply (X13_hash_pattern_rendering "file." "" "jpg" 3 7 (-1)); reflexivity.
Defined.

(** *** A rendered file name is matched by its pattern *)

Lemma matchLoop_more_fuel (filename : string) (vars : list (string * Z))
      (r : MatchResult) :
  forall fuel st,
    matchLoop fuel filename vars st = Some r ->
    matchLoop (S fuel) filename vars st = Some r.
Proof.
  induction fuel as [|fuel IH]; intros st; [discriminate|].
  intros H. cbn [matchLoop] in H.
  change (matchLoop (S (S fuel)) filename vars st)
    with (if (m_i st <? length filename)%nat then
            match matchStep filename vars st with
            | Stop r => Some r
            | Continue st' => matchLoop (S fuel) filename vars st'
            end
          else if m_variableChecked st =? Z.of_nat (List.length vars)
               then Some (Matched (m_frameNumber st) (m_viewNumber st))
               else Some NoMatch).
  destruct (m_i st <? length filename)%nat; [|exact H].
  destruct (matchStep filename vars st) as [st'|r']; [now apply IH | exact H].
Qed.

Lemma matchLoop_fuel_le (filename : string) (vars : list (string * Z))
      (r : MatchResult) (st : MatchState) (a : nat) :
  matchLoop a filename vars st = Some r ->
  forall b, (a <= b)%nat -> matchLoop b filename vars st = Some r.
Proof.
  intros H b Hab. induction Hab as [|b _ IH]; [exact H|].
  now apply matchLoop_more_fuel.
Qed.

(** What the loop ends with is what [matchesPattern] returns, once every
    literal occurs and there is a variable to look for. *)
Lemma matchesPattern_runs (filename : string) (parts : list string)
      (vars : list (string * Z)) (r : MatchResult) :
  forallb (occursIn filename) parts = true ->
  vars <> [] ->
  runs filename vars initMatchState r ->
  matchesPattern filename parts vars = r.
Proof.
  intros Hparts Hvars [fuel Hrun]. unfold matchesPattern.
  rewrite commonPartsLoop_occurs, Hparts. cbn [negb].
  destruct vars as [|v vars]; [contradiction|].
  destruct (matchLoop (S (length filename)) filename (v :: vars) initMatchState)
    as [r'|] eqn:E.
  - pose proof (matchLoop_fuel_le _ _ _ _ _ Hrun (Nat.max fuel (S (length filename)))
                                  (Nat.le_max_l _ _)) as H1.
    pose proof (matchLoop_fuel_le _ _ _ _ _ E (Nat.max fuel (S (length filename)))
                                  (Nat.le_max_r _ _)) as H2.
    congruence.
  - exfalso. revert E. apply matchLoop_total. cbn [initMatchState m_i]. lia.
Qed.

Lemma runs_step (filename : string) (vars : list (string * Z))
      (st st' : MatchState) (r : MatchResult) :
  (m_i st < length filename)%nat ->
  matchStep filename vars st = Continue st' ->
  runs filename vars st' r -> runs filename vars st r.
Proof.
  intros Hi Hs [fuel H]. exists (S fuel). cbn [matchLoop].
  apply Nat.ltb_lt in Hi. now rewrite Hi, Hs.
Qed.

Lemma runs_end (filename : string) (vars : list (string * Z)) (st : MatchState) :
  m_i st = length filename ->
  m_variableChecked st = Z.of_nat (List.length vars) ->
  runs filename vars st (Matched (m_frameNumber st) (m_viewNumber st)).
Proof.
  intros Hi Hc. exists 1%nat. cbn [matchLoop].
  rewrite Hi, Nat.ltb_irrefl, Hc, Z.eqb_refl. reflexivity.
Qed.

Lemma get_in_range (s : string) :
  forall i c, get i s = Some c -> (i < length s)%nat.
Proof.
  induction s as [|a s IH]; intros i c; [destruct i; discriminate|].
  destruct i as [|i]; cbn [get length]; [lia|].
  intros H. apply IH in H. lia.
Qed.

Lemma get_middle (pre q post : string) (k : nat) (c : ascii) :
  get k q = Some c -> get (length pre + k) (pre ++ q ++ post) = Some c.
Proof.
  intros H. rewrite Nat.add_comm, <- append_correct2.
  rewrite <- append_correct1 by exact (get_in_range _ _ _ H). exact H.
Qed.

(** One turn of the loop at a character that is neither a digit nor the
    start of a view name: the pending digits are checked, and the character
    is counted as ordinary. *)
Lemma quiet_char_step (filename : string) (vars : list (string * Z))
      (c : ascii) (i : nat) (var : string) (ccf : Z) (p fs vs : bool) (vc : Z)
      (nvi : nat) (fn : option Z) (vn : Z) (st1 : MatchState) :
  get i filename = Some c ->
  isdigit c = false -> viewTrigger c = false ->
  flushDigits vars (mkMatchState i var ccf false fs vs vc nvi fn vn) = Continue st1 ->
  matchStep filename vars (mkMatchState i var ccf p fs vs vc nvi fn vn)
  = Continue (commonSkipped st1 1).
Proof.
  intros Hg Hd Hv Hf. unfold matchStep.
  cbn [m_i m_variable m_commonCharactersFound m_wasFrameNumberSet
       m_wasViewNumberSet m_variableChecked m_nextVariableIndex m_frameNumber
       m_viewNumber].
  rewrite Hg, Hd, Hf. unfold viewPhase. unfold viewTrigger in Hv.
  cbv zeta in Hv. now rewrite Hv.
Qed.

(** The loop walks over a quiet text, counting its characters. *)
Lemma runs_skip (filename : string) (vars : list (string * Z)) (r : MatchResult)
      (fs vs : bool) (vc : Z) (nvi : nat) (fn : option Z) (vn : Z) :
  forall (q : string) (i : nat) (ccf : Z),
    quietText q = true ->
    (forall k c, get k q = Some c -> get (i + k) filename = Some c) ->
    runs filename vars
         (mkMatchState (i + length q) "" (ccf + Z.of_nat (length q)) false
                       fs vs vc nvi fn vn) r ->
    runs filename vars (mkMatchState i "" ccf false fs vs vc nvi fn vn) r.
Proof.
  induction q as [|c q IH]; intros i ccf Hq Hget Hrun.
  - cbn [length] in Hrun. now rewrite Nat.add_0_r, Z.add_0_r in Hrun.
  - cbn [quietText] in Hq. apply andb_true_iff in Hq as [Hc Hq].
    apply andb_true_iff in Hc as [Hd Hv]. apply negb_true_iff in Hd, Hv.
    assert (H0 : get i filename = Some c)
      by (rewrite <- (Nat.add_0_r i); now apply Hget).
    eapply runs_step.
    + cbn [m_i]. exact (get_in_range _ _ _ H0).
    + apply (quiet_char_step filename vars c i "" ccf false fs vs vc nvi fn vn
                             (mkMatchState i "" ccf false fs vs vc nvi fn vn)
                             H0 Hd Hv). reflexivity.
    + unfold commonSkipped.
      cbn [m_i m_commonCharactersFound m_previousCharIsDigit
           m_wasFrameNumberSet m_wasViewNumberSet m_variableChecked
           m_nextVariableIndex m_frameNumber m_viewNumber].
      apply IH; [exact Hq | |].
      * intros k x Hk. replace (i + 1 + k)%nat with (i + S k)%nat by lia.
        now apply Hget.
      * cbn [length] in Hrun.
        replace (i + 1 + length q)%nat with (i + S (length q))%nat by lia.
        replace (ccf + Z.of_nat 1 + Z.of_nat (length q))
          with (ccf + Z.of_nat (S (length q))) by lia.
        exact Hrun.
Qed.

(** The loop collects a run of digits in [variable]. *)
Lemma runs_digits (filename : string) (vars : list (string * Z)) (r : MatchResult)
      (ccf : Z) (fs vs : bool) (vc : Z) (nvi : nat) (fn : option Z) (vn : Z) :
  forall (d : string) (i : nat) (var : string),
    allDigits d = true ->
    (forall k c, get k d = Some c -> get (i + k) filename = Some c) ->
    runs filename vars
         (mkMatchState (i + length d) (var ++ d) ccf true fs vs vc nvi fn vn) r ->
    runs filename vars (mkMatchState i var ccf true fs vs vc nvi fn vn) r.
Proof.
  induction d as [|c d IH]; intros i var Hd Hget Hrun.
  - cbn [length] in Hrun. now rewrite Nat.add_0_r, string_app_nil_r in Hrun.
  - rewrite allDigits_cons in Hd. apply andb_true_iff in Hd as [Hc Hd].
    assert (H0 : get i filename = Some c)
      by (rewrite <- (Nat.add_0_r i); now apply Hget).
    eapply runs_step.
    + cbn [m_i]. exact (get_in_range _ _ _ H0).
    + unfold matchStep. cbn [m_i]. rewrite H0, Hc. reflexivity.
    + cbn [m_variable m_commonCharactersFound m_wasFrameNumberSet
           m_wasViewNumberSet m_variableChecked m_nextVariableIndex
           m_frameNumber m_viewNumber].
      apply IH; [exact Hd | |].
      * intros k x Hk. replace (S i + k)%nat with (i + S k)%nat by lia.
        now apply Hget.
      * unfold push_back. rewrite string_app_assoc. cbn [append].
        cbn [length] in Hrun.
        replace (S i + length d)%nat with (i + S (length d))%nat by lia.
        exact Hrun.
Qed.

Lemma quietText_app (a b : string) :
  quietText (a ++ b) = quietText a && quietText b.
Proof.
  induction a as [|c a IH]; [reflexivity|].
  cbn [append quietText]. rewrite IH. now rewrite andb_assoc.
Qed.

Lemma substring_skip (pre s : string) (k : nat) :
  substring (length pre) k (pre ++ s) = substring 0 k s.
Proof. induction pre as [|x pre IH]; [reflexivity | exact IH]. Qed.

Lemma occursIn_middle (pre part post : string) :
  occursIn (pre ++ part ++ post) part = true.
Proof.
  unfold occursIn, str_find.
  destruct (index 0 part (pre ++ part ++ post)) as [m|] eqn:E; [reflexivity|].
  destruct part as [|c part].
  - destruct (pre ++ "" ++ post); discriminate.
  - exfalso.
    apply (index_correct3 0 (length pre) _ _ E); [discriminate | lia |].
    rewrite substring_skip. apply substring_app_left.
Qed.

Lemma runs_stop (filename : string) (vars : list (string * Z))
      (st : MatchState) (r : MatchResult) :
  (m_i st < length filename)%nat ->
  matchStep filename vars st = Stop r ->
  runs filename vars st r.
Proof.
  intros Hi Hs. exists 1%nat. cbn [matchLoop].
  apply Nat.ltb_lt in Hi. now rewrite Hi, Hs.
Qed.

(** The loop over a file name made of a quiet text, a run of digits and a
    quiet text that is not empty, when one variable is expected. *)
Lemma single_field_runs (before rest token : string) (c c2 : ascii)
      (d rest' : string) (cnt : Z) :
  quietText before = true ->
  allDigits (String c d) = true ->
  quietText (String c2 rest') = true ->
  runs (before ++ String c d ++ String c2 rest') [(token, cnt)] initMatchState
       (if cnt =? Z.of_nat (length before)
        then verdictOf (checkVariable token (String c d) 0)
        else NoMatch).
Proof.
  intros Hb Hd Hr.
  set (name := before ++ String c d ++ String c2 rest').
  set (vars := [(token, cnt)]).
  set (r := if cnt =? Z.of_nat (length before)
            then verdictOf (checkVariable token (String c d) 0) else NoMatch).
  assert (Hname : name = (before ++ String c d) ++ String c2 rest' ++ "")
    by (unfold name; now rewrite string_app_nil_r, string_app_assoc).
  assert (Hlen : length name
                 = (S (length before) + length d + S (length rest'))%nat)
    by (unfold name; rewrite !str_length_app; cbn [length]; lia).
  unfold initMatchState.
  apply (runs_skip name vars r false false 0 0%nat None (-1) before 0%nat 0).
  { exact Hb. }
  { intros k x Hk. exact (get_middle "" before _ k x Hk). }
  change (0 + length before)%nat with (length before).
  change (0 + Z.of_nat (length before)) with (Z.of_nat (length before)).
  rewrite allDigits_cons in Hd. apply andb_true_iff in Hd as [Hc Hd].
  assert (Hgc : get (length before) name = Some c).
  { rewrite <- (Nat.add_0_r (length before)).
    exact (get_middle before (String c d) _ 0 c eq_refl). }
  eapply runs_step.
  { cbn [m_i]. exact (get_in_range _ _ _ Hgc). }
  { unfold matchStep. cbn [m_i]. rewrite Hgc, Hc. reflexivity. }
  cbn [m_variable m_commonCharactersFound m_wasFrameNumberSet
       m_wasViewNumberSet m_variableChecked m_nextVariableIndex
       m_frameNumber m_viewNumber push_back append].
  apply (runs_digits name vars r (Z.of_nat (length before)) false false 0 0%nat
                     None (-1) d (S (length before)) (String c "")).
  { exact Hd. }
  { intros k x Hk.
    replace (S (length before) + k)%nat with (length before + S k)%nat by lia.
    exact (get_middle before (String c d) _ (S k) x Hk). }
  cbn [append].
  assert (Hg2 : get (S (length before) + length d) name = Some c2).
  { rewrite Hname.
    replace (S (length before) + length d)%nat
      with (length (before ++ String c d) + 0)%nat
      by (rewrite str_length_app; cbn [length]; lia).
    exact (get_middle (before ++ String c d) (String c2 rest') "" 0 c2 eq_refl). }
  cbn [quietText] in Hr. apply andb_true_iff in Hr as [Hq2 Hr].
  apply andb_true_iff in Hq2 as [Hd2 Hv2]. apply negb_true_iff in Hd2, Hv2.
  destruct (Z.eqb_spec cnt (Z.of_nat (length before))) as [Hcnt|Hcnt].
  2:{ apply runs_stop; [cbn [m_i]; lia|].
      unfold matchStep. cbn [m_i]. rewrite Hg2, Hd2.
      unfold flushDigits, vars.
      cbn [m_variable strEmpty m_nextVariableIndex nth_error
           m_commonCharactersFound].
      destruct (Z.eqb_spec cnt (Z.of_nat (length before))); [contradiction|].
      reflexivity. }
  subst r.
  destruct (checkVariable token (String c d) 0) as [[fnumber|]|msg] eqn:Hcheck;
    cbn [verdictOf].
  - eapply runs_step.
    + cbn [m_i]. lia.
    + apply (quiet_char_step name vars c2 _ (String c d) _ true false false 0
                             0%nat None (-1)
               (frameChecked
                  (mkMatchState (S (length before) + length d) (String c d)
                     (Z.of_nat (length before)) false false false 0 0%nat
                     None (-1)) fnumber) Hg2 Hd2 Hv2).
      unfold flushDigits, vars.
      cbn [m_variable strEmpty m_nextVariableIndex nth_error
           m_commonCharactersFound].
      rewrite Hcnt, Z.eqb_refl, Hcheck. reflexivity.
    + unfold commonSkipped, frameChecked.
      cbn [m_i m_commonCharactersFound m_previousCharIsDigit
           m_wasFrameNumberSet m_wasViewNumberSet m_variableChecked
           m_nextVariableIndex m_frameNumber m_viewNumber].
      apply (runs_skip name vars _ _ _ _ _ _ _ rest'); [exact Hr | |].
      * intros k x Hk. rewrite Hname.
        replace (S (length before) + length d + 1 + k)%nat
          with (length (before ++ String c d) + S k)%nat
          by (rewrite str_length_app; cbn [length]; lia).
        exact (get_middle (before ++ String c d) (String c2 rest') "" (S k) x Hk).
      * match goal with
        | |- runs _ _ ?st _ =>
            apply (runs_end name vars st); [cbn [m_i]; lia | reflexivity]
        end.
  - apply runs_stop; [cbn [m_i]; lia|].
    unfold matchStep. cbn [m_i]. rewrite Hg2, Hd2.
    unfold flushDigits, vars.
    cbn [m_variable strEmpty m_nextVariableIndex nth_error
         m_commonCharactersFound].
    rewrite Hcnt, Z.eqb_refl, Hcheck. reflexivity.
  - apply runs_stop; [cbn [m_i]; lia|].
    unfold matchStep. cbn [m_i]. rewrite Hg2, Hd2.
    unfold flushDigits, vars.
    cbn [m_variable strEmpty m_nextVariableIndex nth_error
         m_commonCharactersFound].
    rewrite Hcnt, Z.eqb_refl, Hcheck. reflexivity.
Qed.

(** X14. For a file name made of a text without digit nor view letter, a
    run of digits and such a text that is not empty, and one expected
    variable, the matcher answers as [checkVariable] does on the run of
    digits, provided every literal occurs in the name and the variable is
    expected after as many characters as the first text has; with another
    count the name is rejected. *)
Theorem X14_single_field_verdict
        (before digits rest token : string) (parts : list string) (cnt : Z)
        (Hb : quietText before = true)
        (Hd : allDigits digits = true) (Hdne : digits <> "")
        (Hr : quietText rest = true) (Hrne : rest <> "")
        (Hparts : forallb (occursIn (before ++ digits ++ rest)) parts = true) :
  matchesPattern (before ++ digits ++ rest) parts [(token, cnt)]
  = if cnt =? Z.of_nat (length before)
    then verdictOf (checkVariable token digits 0)
    else NoMatch.
Proof.
  destruct digits as [|c d]; [contradiction|].
  destruct rest as [|c2 rest']; [contradiction|].
  apply matchesPattern_runs; [exact Hparts | discriminate |].
  now apply single_field_runs.
Qed.

Lemma X14_single_field_verdict_witness :
  matchesPattern "img.0012.png" ["img."; ".png"] [("####", 4)]
  = Matched (Some 12) (-1).
Proof.
  exact (X14_single_field_verdict "img." "0012" ".png" "####" ["img."; ".png"] 4
           eq_refl eq_refl ltac:(discriminate) eq_refl ltac:(discriminate)
           eq_refl).
Defined.

Lemma hash_field_checked (n : nat) (frameNumber : Z) :
  0 <= frameNumber <= INT_MAX ->
  checkVariable (hashes (S n)) (padFrame (S n) (stringFromInt frameNumber)) 0
  = Ret (Some frameNumber).
Proof.
  intros H.
  destruct (padded_frame_checked (S n) frameNumber (le_n_S _ _ (Nat.le_0_l n)) H)
    as (H1 & H2 & H3).
  unfold checkVariable.
  cbn [hashes String.eqb Ascii.eqb Bool.eqb contains_char orb Z.eqb negb].
  change (String "#" (hashes n)) with (hashes (S n)). rewrite hashes_length.
  destruct (Nat.ltb_spec (length (padFrame (S n) (stringFromInt frameNumber)))
                         (S n)); [lia|].
  now rewrite H2, H3.
Qed.

(** X15. Rendering and matching agree on a pattern made of a text, a run
    of ['#'], a text and an extension, when the texts and the extension
    hold no digit, none of the letters l, r and v in either case, no ['#'],
    ['%'] nor separator, and the extension no dot: the file name
    [generateFileNameFromPattern] writes for a frame number from 0 to
    [INT_MAX] is accepted by [matchesPattern] with the tokens of the
    pattern, and the frame number read back is the one that was rendered. *)
Theorem X15_rendered_name_is_matched
        (before after ext : string) (n : nat) (frameNumber viewNumber : Z)
        (Hb : plainText before = true) (Ha : plainText after = true)
        (Hsep : noSeparator (before ++ after ++ ext) = true)
        (Hdot : contains_char "." ext = false)
        (Hq : quietText (before ++ after ++ ext) = true)
        (Hf : 0 <= frameNumber <= INT_MAX) :
  exists (name : string) (parts : list string) (vars : list (string * Z)),
    generateFileNameFromPattern
      (before ++ hashes (S n) ++ after ++ String "." ext) frameNumber viewNumber
    = Ret name
    /\ extractCommonPartsAndVariablesFromPattern
         (before ++ hashes (S n) ++ after) ext = Some (parts, vars)
    /\ matchesPattern name parts vars = Matched (Some frameNumber) (-1).
Proof.
  eexists _, _, _. split; [|split].
  - exact (hash_pattern_rendering before after ext n frameNumber viewNumber
                                  Hb Ha Hsep Hdot).
  - exact (hash_field_tokens before after ext n Hb Ha).
  - set (digits := padFrame (S n) (stringFromInt frameNumber)).
    set (name := before ++ digits ++ after ++ String "." ext).
    rewrite !quietText_app in Hq.
    apply andb_true_iff in Hq as [Hq1 Hq2]. apply andb_true_iff in Hq2 as [Hq2 Hq3].
    assert (Hrest : quietText (after ++ String "." ext) = true)
      by (rewrite quietText_app, Hq2; cbn [quietText]; now rewrite Hq3).
    assert (O1 : occursIn name before = true)
      by exact (occursIn_middle "" before _).
    assert (O2 : occursIn name after = true).
    { unfold name. rewrite <- (string_app_assoc before digits).
      apply occursIn_middle. }
    assert (O3 : occursIn name (String "." ext) = true).
    { replace name with ((before ++ digits ++ after) ++ String "." ext ++ "")
        by (unfold name; now rewrite string_app_nil_r, !string_app_assoc).
      apply occursIn_middle. }
    assert (Hdigits : allDigits digits = true /\ (1 <= length digits)%nat).
    { destruct (stringFromInt_nonneg frameNumber (proj1 Hf)) as (Hd & Hl & _).
      unfold digits, padFrame. rewrite prependZeros_digits, prependZeros_length.
      split; [exact Hd | lia]. }
    destruct Hdigits as [Hd Hl].
    pose proof (hash_field_checked n frameNumber Hf) as Hcheck.
    fold digits in Hcheck.
    apply matchesPattern_runs; [| discriminate |].
    + rewrite forallb_app. unfold literals, extensionLiteral.
      cbn [filter].
      destruct (strEmpty before), (strEmpty after), (strEmpty ext);
        cbn [negb forallb]; now rewrite ?O1, ?O2, ?O3.
    + unfold name. clearbody digits.
      destruct digits as [|c d]; [cbn [length] in Hl; lia|].
      destruct (after ++ String "." ext) as [|c2 rest'] eqn:E;
        [destruct after; discriminate|].
      pose proof (single_field_runs before (String c2 rest') (hashes (S n))
                    c c2 d rest' (Z.of_nat (length before)) Hq1 Hd Hrest) as Hrun.
      now rewrite Z.eqb_refl, Hcheck in Hrun.
Qed.

Lemma X15_rendered_name_is_matched_witness :
  exists (name : string) (parts : list string) (vars : list (string * Z)),
    generateFileNameFromPattern "img.####.png" 12 0 = Ret name
    /\ extractCommonPartsAndVariablesFromPattern "img.####" "png"
       = Some (parts, vars)
    /\ matchesPattern name parts vars = Matched (Some 12) (-1).
Proof.
  apply (X15_rendered_name_is_matched "img." "" "png" 3 12 0);
    try reflexivity. unfold INT_MAX. lia.
Defined.

(** *** Comparing two tokenized file names *)

Lemma validPair_sym (a b : string) :
  FileNameContent.validPair a b = FileNameContent.validPair b a.
Proof.
  unfold FileNameContent.validPair.
  destruct (Nat.eqb_spec (length a) (length b)) as [E|E];
    destruct (Nat.eqb_spec (length b) (length a)) as [E'|E']; try lia;
    cbn [negb]; [reflexivity|].
  destruct (Nat.ltb_spec (length b) (length a));
    destruct (Nat.ltb_spec (length a) (length b)); try lia; reflexivity.
Qed.

Lemma Type_eqb_sym (a b : FileNameContent.Type_) :
  FileNameContent.Type_eqb a b = FileNameContent.Type_eqb b a.
Proof. now destruct a, b. Qed.

(** With the two lists exchanged the first loop collects the same
    candidates, their numbers exchanged. *)
Lemma potentialLoop_swap (mine : list FileNameContent.FileNameElement) :
  forall (others : list FileNameContent.FileNameElement) (k : Z)
         (acc : list FileNameContent.Potential),
    FileNameContent.potentialLoop (combine others mine) k (map swapPotential acc)
    = match FileNameContent.potentialLoop (combine mine others) k acc with
      | Ret (Some l) => Ret (Some (map swapPotential l))
      | Ret None => Ret None
      | Throw msg => Throw msg
      end.
Proof.
  induction mine as [|e mine IH]; intros [|o others] k acc;
    try reflexivity.
  cbn [combine FileNameContent.potentialLoop].
  rewrite (Type_eqb_sym (FileNameContent.type o)).
  destruct (FileNameContent.Type_eqb (FileNameContent.type e)
                                     (FileNameContent.type o)) eqn:Et;
    cbn [negb]; [|reflexivity].
  apply Type_eqb_spec in Et. rewrite <- Et.
  rewrite (String.eqb_sym (FileNameContent.data o)).
  destruct (FileNameContent.type e).
  - destruct (FileNameContent.data e =? FileNameContent.data o)%string;
      cbn [negb]; [apply IH | reflexivity].
  - destruct (FileNameContent.data e =? FileNameContent.data o)%string;
      cbn [negb]; [apply IH|].
    rewrite (validPair_sym (FileNameContent.data o)).
    destruct (FileNameContent.validPair (FileNameContent.data e)
                                        (FileNameContent.data o)) as [[]|msg];
      [| apply IH | reflexivity].
    rewrite <- IH. now rewrite map_app.
Qed.

Lemma potentialDiff_swap (p : FileNameContent.Potential) :
  FileNameContent.potentialDiff (swapPotential p)
  = FileNameContent.potentialDiff p.
Proof.
  unfold FileNameContent.potentialDiff, swapPotential. cbn [fst snd]. lia.
Qed.

Lemma minLoop_swap (l : list FileNameContent.Potential) :
  forall (i : nat) (minimum : Z) (minIndexes : list nat),
    FileNameContent.minLoop (map swapPotential l) i minimum minIndexes
    = FileNameContent.minLoop l i minimum minIndexes.
Proof.
  induction l as [|p l IH]; intros i minimum minIndexes; [reflexivity|].
  cbn [map FileNameContent.minLoop]. cbv zeta. rewrite potentialDiff_swap.
  now rewrite !IH.
Qed.

(** X16. The comparison of two tokenized file names does not depend on
    which of the two is taken as the reference: [matchesPattern] gives the
    same verdict, the same ordinals and the same exception both ways. *)
Theorem X16_matchesPattern_symmetric (this other : FileNameContent.t) :
  FileNameContent.matchesPattern this other
  = FileNameContent.matchesPattern other this.
Proof.
  unfold FileNameContent.matchesPattern.
  rewrite (Nat.eqb_sym (List.length (FileNameContent.orderedElements this))).
  destruct (List.length (FileNameContent.orderedElements other)
            =? List.length (FileNameContent.orderedElements this))%nat;
    cbn [negb]; [|reflexivity].
  pose proof (potentialLoop_swap (FileNameContent.orderedElements this)
                (FileNameContent.orderedElements other) 0 []) as H.
  cbn [map] in H. rewrite H.
  destruct (FileNameContent.potentialLoop
              (combine (FileNameContent.orderedElements this)
                       (FileNameContent.orderedElements other)) 0 [])
    as [[l|]|msg]; try reflexivity.
  destruct l as [|p l]; [reflexivity|].
  change (map swapPotential (p :: l))
    with (swapPotential p :: map swapPotential l) at 1.
  cbv iota.
  change (swapPotential p :: map swapPotential l)
    with (map swapPotential (p :: l)).
  rewrite minLoop_swap. do 2 f_equal.
  apply map_ext. intros i.
  change (0, ("", "")) with (swapPotential (0, ("", ""))) at 2.
  now rewrite map_nth.
Qed.

Lemma potentialLoop_same (elements : list FileNameContent.FileNameElement) :
  forall (k : Z) (acc : list FileNameContent.Potential),
    FileNameContent.potentialLoop (combine elements elements) k acc
    = Ret (Some acc).
Proof.
  induction elements as [|e elements IH]; intros k acc; [reflexivity|].
  cbn [combine FileNameContent.potentialLoop].
  replace (FileNameContent.Type_eqb (FileNameContent.type e)
                                    (FileNameContent.type e)) with true
    by now destruct (FileNameContent.type e).
  rewrite String.eqb_refl. cbn [negb].
  destruct (FileNameContent.type e); apply IH.
Qed.

(** X17. Two file names with the same elements, such as one name in two
    directories or a name against itself, are never taken for two frames
    of a sequence: no digit run differs, and [matchesPattern] returns
    [false]. *)
Theorem X17_same_elements_do_not_match
        (this other : FileNameContent.t)
        (H : FileNameContent.orderedElements this
             = FileNameContent.orderedElements other) :
  FileNameContent.matchesPattern this other = Ret None.
Proof.
  unfold FileNameContent.matchesPattern. rewrite H, Nat.eqb_refl.
  cbn [negb]. now rewrite potentialLoop_same.
Qed.

Lemma X17_same_elements_do_not_match_witness :
  FileNameContent.matchesPattern (FileNameContent.parse "/a/img01.png")
                                 (FileNameContent.parse "/b/img01.png")
  = Ret None.
Proof.
  apply (X17_same_elements_do_not_match (FileNameContent.parse "/a/img01.png")
           (FileNameContent.parse "/b/img01.png")).
  reflexivity.
Defined.

Lemma paddingValid_returns (longer shorter : string) :
  longer <> "" -> shorter <> "" ->
  exists b, FileNameContent.paddingValid longer shorter = Ret b.
Proof.
  intros Hl Hs. unfold FileNameContent.paddingValid.
  destruct shorter as [|c1 shorter]; [contradiction|].
  destruct longer as [|c2 longer]; [contradiction|].
  cbn [FileNameContent.at0IsZero].
  destruct (Ascii.eqb c1 "0" && (1 <? length (String c1 shorter))%nat);
    [now eexists|].
  destruct ((0 <? length (String c2 longer))%nat
            && (0 <? length (String c2 longer) - length (String c1 shorter))%nat);
    now eexists.
Qed.

Lemma potentialLoop_returns (mine : list FileNameContent.FileNameElement) :
  forall (others : list FileNameContent.FileNameElement) (k : Z)
         (acc : list FileNameContent.Potential),
    forallb isRun mine = true -> forallb isRun others = true ->
    exists r, FileNameContent.potentialLoop (combine mine others) k acc = Ret r.
Proof.
  induction mine as [|e mine IH]; intros [|o others] k acc Hm Ho;
    try (now eexists).
  cbn [forallb] in Hm, Ho.
  apply andb_true_iff in Hm as [He Hm]. apply andb_true_iff in Ho as [Hoo Ho].
  apply isRun_not_empty in He, Hoo.
  cbn [combine FileNameContent.potentialLoop].
  destruct (negb (FileNameContent.Type_eqb (FileNameContent.type e)
                                           (FileNameContent.type o)));
    [now eexists|].
  destruct (FileNameContent.type e).
  - destruct (negb (FileNameContent.data e =? FileNameContent.data o)%string);
      [now eexists | now apply IH].
  - destruct (negb (FileNameContent.data e =? FileNameContent.data o)%string);
      [|now apply IH].
    assert (Hv : exists b, FileNameContent.validPair (FileNameContent.data e)
                             (FileNameContent.data o) = Ret b).
    { unfold FileNameContent.validPair.
      destruct (negb (length (FileNameContent.data e)
                      =? length (FileNameContent.data o))%nat); [|now eexists].
      destruct (length (FileNameContent.data o)
                <? length (FileNameContent.data e))%nat;
        now apply paddingValid_returns. }
    destruct Hv as [b ->]. now apply IH.
Qed.

Lemma parsed_compare_returns (pathThis pathOther : string) :
  exists r,
    FileNameContent.matchesPattern (FileNameContent.parse pathThis)
                                   (FileNameContent.parse pathOther) = Ret r.
Proof.
  destruct (parse_elements pathThis) as (_ & Rt & _).
  destruct (parse_elements pathOther) as (_ & Ro & _).
  unfold FileNameContent.matchesPattern.
  destruct (negb (List.length (FileNameContent.orderedElements
                                 (FileNameContent.parse pathOther))
                  =? List.length (FileNameContent.orderedElements
                                    (FileNameContent.parse pathThis)))%nat);
    [now eexists|].
  destruct (potentialLoop_returns _ _ 0 [] Rt Ro) as [r ->].
  destruct r as [[|p l]|]; now eexists.
Qed.

(** X18. Comparing two tokenized paths never raises: the digit runs the
    tokenizer produces are not empty, so that the first character read by
    the padding rule is always there. *)
Theorem X18_parsed_names_compare_without_exception (pathThis pathOther : string) :
  exists r,
    FileNameContent.matchesPattern (FileNameContent.parse pathThis)
                                   (FileNameContent.parse pathOther) = Ret r.
Proof. exact (parsed_compare_returns pathThis pathOther). Qed.

(** *** The digit runs by ordinal, and the pattern of a sequence *)

Lemma getNumberLoop_nth (elements : list FileNameContent.FileNameElement) :
  forall k index : Z,
    k <= index ->
    FileNameContent.getNumberLoop elements k index
    = nth_error (numbersOf elements) (Z.to_nat (index - k)).
Proof.
  unfold numbersOf.
  induction elements as [|e elements IH]; intros k index Hk.
  - cbn. now destruct (Z.to_nat (index - k)).
  - cbn [FileNameContent.getNumberLoop filter]. unfold isFrame at 1.
    destruct (FileNameContent.type e); cbn [FileNameContent.Type_eqb].
    + now apply IH.
    + cbn [map]. destruct (Z.eqb_spec k index) as [->|Hne].
      * now rewrite Z.sub_diag.
      * rewrite IH by lia.
        replace (Z.to_nat (index - k)) with (S (Z.to_nat (index - (k + 1))))
          by lia.
        reflexivity.
Qed.

(** X19. [getNumberByIndex] gives the digit run of the given ordinal,
    counted from 0 from the left, and fails for a negative ordinal and for
    one that is not less than the number of digit runs. *)
Theorem X19_getNumberByIndex_is_nth_digit_run
        (c : FileNameContent.t) (index : Z) :
  FileNameContent.getNumberByIndex c index
  = (if index <? 0 then None
     else nth_error (numbersOf (FileNameContent.orderedElements c))
                    (Z.to_nat index))
  /\ (FileNameContent.getNumberByIndex c index = None
      <-> index < 0 \/ Z.of_nat (digitRuns c) <= index).
Proof.
  assert (E : FileNameContent.getNumberByIndex c index
              = if index <? 0 then None
                else nth_error (numbersOf (FileNameContent.orderedElements c))
                               (Z.to_nat index)).
  { unfold FileNameContent.getNumberByIndex.
    destruct (Z.ltb_spec index 0) as [Hneg|Hpos].
    - destruct (FileNameContent.getNumberLoop
                  (FileNameContent.orderedElements c) 0 index) as [a|] eqn:E;
        [|reflexivity].
      apply getNumberLoop_ge in E. lia.
    - rewrite getNumberLoop_nth by exact Hpos. now rewrite Z.sub_0_r. }
  split; [exact E|]. rewrite E.
  assert (Hlen : List.length (numbersOf (FileNameContent.orderedElements c))
                 = digitRuns c)
    by (unfold numbersOf, digitRuns, digitRunsOf; apply length_map).
  destruct (Z.ltb_spec index 0) as [Hneg|Hpos].
  - split; [intros _; now left | reflexivity].
  - rewrite nth_error_None, Hlen. lia.
Qed.

Lemma index_hash_pending (pending r : string) :
  contains_char "#" pending = false ->
  index 0 "#" (pending ++ String "#" r) = Some (length pending).
Proof.
  induction pending as [|a pending IH]; intros H.
  - cbn [append index length].
    assert (E : prefix "#" (String "#" r) = true)
      by (apply prefix_correct; now destruct r).
    now rewrite E.
  - cbn [contains_char] in H. apply orb_false_iff in H as [Ha H].
    cbn [append index prefix length].
    destruct (ascii_dec "#" a) as [<-|_]; [discriminate Ha|].
    now rewrite (IH H).
Qed.

Lemma index_hash_from (done pending r : string) :
  contains_char "#" pending = false ->
  index (length done) "#" (done ++ pending ++ String "#" r)
  = Some (length done + length pending)%nat.
Proof.
  intros H. induction done as [|a done IH].
  - now apply index_hash_pending.
  - cbn [append length index]. now rewrite IH.
Qed.

Lemma countHashes_none (ch : ascii) (r : string) :
  ch <> "#"%char -> countHashes (String ch r) = 0%nat.
Proof.
  intros H. destruct ch as [[] [] [] [] [] [] [] []]; try reflexivity.
  now contradiction H.
Qed.

Lemma countHashes_run (k : nat) (ch : ascii) (r : string) :
  ch <> "#"%char -> countHashes (hashes k ++ String ch r) = k.
Proof.
  intros H. induction k as [|k IH].
  - now apply countHashes_none.
  - cbn [hashes append countHashes]. now rewrite IH.
Qed.

Lemma substr_from_app (a b : string) : substr_from (a ++ b) (length a) = b.
Proof.
  unfold substr_from. rewrite str_length_app.
  replace (length a + length b - length a)%nat with (length b) by lia.
  apply substring_app_right.
Qed.

(** The ordinals up to 9 are written with one character. *)
Lemma one_digit_ordinal (n : Z) :
  0 <= n <= 9 ->
  exists ch, stringFromInt n = String ch "" /\ ch <> "#"%char.
Proof.
  intros H. rewrite <- (Z2Nat.id n) by lia.
  assert (Hk : (Z.to_nat n < 10)%nat) by lia.
  revert Hk. generalize (Z.to_nat n) as k. intros k Hk.
  do 10 (destruct k as [|k];
         [eexists; split; [reflexivity | discriminate]|]).
  lia.
Qed.

(** One digit run of the canonical pattern is expanded, or its ordinal is
    taken away. *)
Lemma tagStep_spec (indexes : list Z) (e : FileNameContent.FileNameElement)
      (done pending P : string) (n : Z) :
  0 <= n <= 9 ->
  contains_char "#" pending = false ->
  FileNameContent.data e <> "" ->
  let piece := if existsb (Z.eqb n) indexes
               then hashes (length (FileNameContent.data e))
               else FileNameContent.data e in
  FileNameContent.tagStep indexes e
    (FileNameContent.mkTagState n (length done)
       (done ++ pending
             ++ (hashes (length (FileNameContent.data e)) ++ stringFromInt n)
             ++ P))
  = Ret (FileNameContent.mkTagState (n + 1)
           (length (done ++ pending ++ piece))
           ((done ++ pending ++ piece) ++ P)).
Proof.
  intros Hn Hp Hd piece.
  destruct (one_digit_ordinal n Hn) as (ch & -> & Hch).
  set (k := length (FileNameContent.data e)) in *.
  assert (Hk : exists k', k = S k').
  { unfold k. destruct (FileNameContent.data e); [contradiction|].
    now eexists. }
  destruct Hk as [k' Hk].
  set (tag := hashes k ++ String ch "").
  assert (Hpat : done ++ pending ++ tag ++ P
                 = (done ++ pending) ++ tag ++ P)
    by now rewrite string_app_assoc.
  assert (Hpos : index (length done) "#" (done ++ pending ++ tag ++ P)
                 = Some (length (done ++ pending))).
  { unfold tag. rewrite Hk. cbn [hashes append].
    rewrite str_length_app. now apply index_hash_from. }
  unfold FileNameContent.tagStep.
  cbn [FileNameContent.indexedPattern FileNameContent.lastNumberPos
       FileNameContent.numbersCount].
  unfold findStr, str_find. rewrite Hpos.
  assert (Hsub : substr_from (done ++ pending ++ tag ++ P)
                             (length (done ++ pending)) = tag ++ P)
    by (rewrite Hpat; apply substr_from_app).
  assert (Hcount : countHashes (tag ++ P) = k).
  { unfold tag. rewrite string_app_assoc. cbn [append].
    now apply countHashes_run. }
  cbv zeta. rewrite !Hsub, !Hcount. f_equal.
  assert (Hlt : length tag = (k + 1)%nat)
    by (unfold tag; rewrite str_length_app, hashes_length; reflexivity).
  assert (Hend : (length (done ++ pending) + k)%nat
                 = length (done ++ pending ++ piece)).
  { rewrite <- string_app_assoc, (str_length_app (done ++ pending)).
    f_equal. unfold piece.
    destruct (existsb (Z.eqb n) indexes); [now rewrite hashes_length | reflexivity]. }
  rewrite Hend. f_equal.
  unfold piece. destruct (existsb (Z.eqb n) indexes); cbn [negb].
  - assert (Hin : (length (done ++ pending ++ hashes k)
                   <? length (done ++ pending ++ tag ++ P))%nat = true).
    { apply Nat.ltb_lt. unfold tag. rewrite !str_length_app. cbn [length]. lia. }
    rewrite Hin.
    replace (done ++ pending ++ tag ++ P)
      with ((done ++ pending ++ hashes k) ++ String ch "" ++ P)
      by (unfold tag; now rewrite !string_app_assoc).
    change 1%nat with (length (String ch "")).
    exact (replace_middle (done ++ pending ++ hashes k) (String ch "") P "").
  - replace (length (done ++ pending ++ FileNameContent.data e)
             - length (done ++ pending) + 1)%nat with (length tag)
      by (unfold piece in Hend; rewrite <- Hend, Hlt; lia).
    rewrite Hpat.
    rewrite (replace_middle (done ++ pending) tag P (FileNameContent.data e)).
    now rewrite !string_app_assoc.
Qed.

Lemma digitRunsOf_cons (e : FileNameContent.FileNameElement)
      (rest : list FileNameContent.FileNameElement) :
  digitRunsOf (e :: rest)
  = ((if isFrame e then 1 else 0) + digitRunsOf rest)%nat.
Proof.
  unfold digitRunsOf. cbn [filter]. now destruct (isFrame e).
Qed.

(** The loop of [generatePatternWithFrameNumberAtIndexes] over the canonical
    pattern of the elements, when the texts hold no ['#'] and the ordinals
    are written with one character. *)
Lemma tagLoop_spec (indexes : list Z)
      (rest : list FileNameContent.FileNameElement) :
  forall (done pending : string) (n : Z),
    0 <= n -> n + Z.of_nat (digitRunsOf rest) <= 10 ->
    contains_char "#" pending = false ->
    contains_char "#" (concatData rest) = false ->
    forallb isRun rest = true ->
    exists lp,
      FileNameContent.tagLoop indexes rest
        (FileNameContent.mkTagState n (length done)
           (done ++ pending ++ FileNameContent.patternOfElements rest n))
      = Ret (FileNameContent.mkTagState (n + Z.of_nat (digitRunsOf rest)) lp
               (done ++ pending ++ patternWith indexes rest n)).
Proof.
  induction rest as [|e rest IH]; intros done pending n H0 H10 Hp Hh Hr.
  - exists (length done). cbn. now rewrite Z.add_0_r.
  - cbn [concatData] in Hh. rewrite contains_char_app in Hh.
    apply orb_false_iff in Hh as [Hhe Hh].
    cbn [forallb] in Hr. apply andb_true_iff in Hr as [He Hr].
    rewrite digitRunsOf_cons in *. unfold isFrame in *.
    cbn [FileNameContent.tagLoop FileNameContent.patternOfElements patternWith].
    destruct (FileNameContent.type e) eqn:Et; cbn [FileNameContent.Type_eqb] in *.
    + destruct (IH done (pending ++ FileNameContent.data e) n H0 H10) as [lp Hlp];
        [now rewrite contains_char_app, Hp | exact Hh | exact Hr |].
      exists lp. rewrite !string_app_assoc in Hlp. exact Hlp.
    + rewrite tagStep_spec;
        [| lia | exact Hp | exact (isRun_not_empty e He)].
      set (piece := if existsb (Z.eqb n) indexes
                    then hashes (length (FileNameContent.data e))
                    else FileNameContent.data e).
      destruct (IH (done ++ pending ++ piece) "" (n + 1)) as [lp Hlp];
        [lia | lia | reflexivity | exact Hh | exact Hr |].
      cbn [append] in Hlp. exists lp. rewrite Hlp. f_equal. f_equal.
      * lia.
      * now rewrite !string_app_assoc.
Qed.

Lemma parse_pieces (path : string) :
  FileNameContent.filePath (FileNameContent.parse path)
  ++ FileNameContent.filename (FileNameContent.parse path) = path
  /\ FileNameContent.generatedPattern (FileNameContent.parse path)
     = FileNameContent.patternOfElements
         (FileNameContent.orderedElements (FileNameContent.parse path)) 0.
Proof.
  destruct (removePath_spec path) as (Hcut & _).
  unfold FileNameContent.parse.
  destruct (removePath path) as [filePath filename]. now split.
Qed.

Lemma pattern_with_frame_numbers (path : string) (indexes : list Z) :
  contains_char "#" path = false ->
  (digitRuns (FileNameContent.parse path) <= 10)%nat ->
  FileNameContent.generatePatternWithFrameNumberAtIndexes
    (FileNameContent.parse path) indexes
  = Ret (if existsb (fun idx =>
                       Z.of_nat (digitRuns (FileNameContent.parse path)) <=? idx)
                    indexes
         then None
         else Some (FileNameContent.filePath (FileNameContent.parse path)
                    ++ patternWith indexes
                         (FileNameContent.orderedElements
                            (FileNameContent.parse path)) 0)).
Proof.
  intros Hh Hn.
  destruct (parse_elements path) as (Hspell & Hruns & _).
  destruct (parse_pieces path) as (Hcut & Hpat).
  cbv zeta in Hspell. unfold digitRuns in *.
  set (c := FileNameContent.parse path) in *.
  assert (Hf : contains_char "#" (concatData (FileNameContent.orderedElements c))
               = false).
  { rewrite Hspell. rewrite <- Hcut, contains_char_app in Hh.
    now apply orb_false_iff in Hh as [_ Hh]. }
  destruct (tagLoop_spec indexes (FileNameContent.orderedElements c) "" "" 0)
    as [lp Hlp]; [lia | lia | reflexivity | exact Hf | exact Hruns |].
  cbn [append length] in Hlp.
  unfold FileNameContent.generatePatternWithFrameNumberAtIndexes,
    FileNameContent.getFilePattern, FileNameContent.getPath.
  rewrite Hpat, Hlp.
  cbn [FileNameContent.numbersCount FileNameContent.indexedPattern].
  rewrite Z.add_0_l.
  now destruct (existsb _ indexes).
Qed.

(** X20. For a path without ['#'] whose name has at most ten digit runs,
    [generatePatternWithFrameNumberAtIndexes] fails exactly when an ordinal
    asked for is not less than the number of digit runs (a negative one
    is let through), and gives otherwise the path with the digit runs of
    the given ordinals written as one ['#'] per digit, every other
    character as it is. *)
Theorem X20_pattern_with_frame_numbers
        (path : string) (indexes : list Z)
        (Hh : contains_char "#" path = false)
        (Hn : (digitRuns (FileNameContent.parse path) <= 10)%nat) :
  FileNameContent.generatePatternWithFrameNumberAtIndexes
    (FileNameContent.parse path) indexes
  = Ret (if existsb (fun idx =>
                       Z.of_nat (digitRuns (FileNameContent.parse path)) <=? idx)
                    indexes
         then None
         else Some (FileNameContent.filePath (FileNameContent.parse path)
                    ++ patternWith indexes
                         (FileNameContent.orderedElements
                            (FileNameContent.parse path)) 0)).
Proof. exact (pattern_with_frame_numbers path indexes Hh Hn). Qed.

Lemma X20_pattern_with_frame_numbers_witness :
  FileNameContent.generatePatternWithFrameNumberAtIndexes
    (FileNameContent.parse "/d/a1_b22.png") [1]
  = Ret (Some "/d/a1_b##.png").
Proof.
  exact (X20_pattern_with_frame_numbers "/d/a1_b22.png" [1] eq_refl
           ltac:(vm_compute; lia)).
Defined.

Lemma patternWith_nil (elements : list FileNameContent.FileNameElement) :
  forall n, patternWith [] elements n = concatData elements.
Proof.
  induction elements as [|e elements IH]; intros n; [reflexivity|].
  cbn [patternWith concatData existsb].
  destruct (FileNameContent.type e); now rewrite IH.
Qed.

(** X21. With no ordinal to keep, the pattern generated for a tokenized
    path is the path itself: expanding every tag of the canonical pattern
    gives the file name back, and the directory is put in front again. *)
Theorem X21_pattern_without_index_is_the_path
        (path : string)
        (Hh : contains_char "#" path = false)
        (Hn : (digitRuns (FileNameContent.parse path) <= 10)%nat) :
  FileNameContent.generatePatternWithFrameNumberAtIndexes
    (FileNameContent.parse path) []
  = Ret (Some path).
Proof.
  rewrite (pattern_with_frame_numbers path [] Hh Hn). cbn [existsb].
  rewrite patternWith_nil.
  destruct (parse_elements path) as (Hspell & _). cbv zeta in Hspell.
  rewrite Hspell. now rewrite (proj1 (parse_pieces path)).
Qed.

Lemma X21_pattern_without_index_is_the_path_witness :
  FileNameContent.generatePatternWithFrameNumberAtIndexes
    (FileNameContent.parse "/d/a1_b22.png") []
  = Ret (Some "/d/a1_b22.png").
Proof.
  apply (X21_pattern_without_index_is_the_path "/d/a1_b22.png");
    [reflexivity | vm_compute; lia].
Defined.

(** *** What a call of [tryInsertFile] may change *)

Lemma map_find_place (k' : Z) (v' : string) (m : IntMap) :
  map_find k' m = None ->
  forall k, map_find k (map_place k' v' m)
            = if k =? k' then Some v' else map_find k m.
Proof.
  induction m as [|[k2 v2] m IH]; intros Hn k; [reflexivity|].
  cbn [map_find] in Hn. cbn [map_place].
  destruct (Z.eqb_spec k' k2) as [|Hne]; [discriminate|].
  destruct (k' <? k2); [reflexivity|].
  cbn [map_find]. rewrite (IH Hn).
  destruct (Z.eqb_spec k k2) as [->|]; [|reflexivity].
  destruct (Z.eqb_spec k2 k'); [congruence | reflexivity].
Qed.

Lemma map_insert_keeps (k' : Z) (v' : string) (m : IntMap) (k : Z) (v : string) :
  map_find k m = Some v -> map_find k (map_insert k' v' m) = Some v.
Proof.
  intros H. unfold map_insert.
  destruct (map_find k' m) eqn:E; [exact H|].
  rewrite (map_find_place k' v' m E).
  destruct (Z.eqb_spec k k'); [congruence | exact H].
Qed.

Lemma map_insert_key (k : Z) (v : string) (m : IntMap) :
  map_find k (map_insert k v m) <> None.
Proof.
  unfold map_insert. destruct (map_find k m) eqn:E; [now rewrite E|].
  rewrite (map_find_place k v m E), Z.eqb_refl. discriminate.
Qed.

Lemma Extends_refl (s : SequenceFromFiles.t) : Extends s s.
Proof.
  split; [|split; [|split]]; try tauto.
  exists []. cbn [map]. now rewrite !app_nil_r.
Qed.

Lemma Extends_insertFrame (s s' : SequenceFromFiles.t) (k : Z) (v : string) :
  Extends s s' -> Extends s (SequenceFromFiles.insertFrame k v s').
Proof.
  intros (H1 & H2 & H3 & H4). split; [|split; [|split]]; try assumption.
  intros k0 v0 H. cbn [SequenceFromFiles.insertFrame SequenceFromFiles.filesMap].
  apply map_insert_keeps. now apply H2.
Qed.

Lemma Extends_pushFile (tellg : string -> Z) (file : FileNameContent.t)
      (s s' : SequenceFromFiles.t) :
  Extends s s' -> Extends s (SequenceFromFiles.pushFile tellg file s').
Proof.
  intros ((added & Ha & Hf) & H2 & H3 & H4).
  split; [|split; [|split]]; try assumption.
  exists (added ++ [file])%list.
  cbn [SequenceFromFiles.pushFile SequenceFromFiles.sequence
       SequenceFromFiles.filesList].
  rewrite Ha, Hf, map_app, !app_assoc. now split.
Qed.

Lemma Extends_setIndexes (indexes : list Z) (s : SequenceFromFiles.t) :
  SequenceFromFiles.frameNumberStringIndexes s = [] ->
  Extends s (SequenceFromFiles.setIndexes indexes s).
Proof.
  intros H. split; [|split; [|split]];
    [| tauto | intros Hne; now rewrite H in Hne | reflexivity].
  exists []. cbn [map SequenceFromFiles.setIndexes SequenceFromFiles.sequence
                  SequenceFromFiles.filesList]. now rewrite !app_nil_r.
Qed.

Lemma Extends_insertMember (tellg : string -> Z) (file : FileNameContent.t)
      (indexes : list Z) (s s' : SequenceFromFiles.t) :
  Extends s s' ->
  Extends s (snd (SequenceFromFiles.insertMember tellg file indexes s')).
Proof.
  intros H. unfold SequenceFromFiles.insertMember.
  apply (frameLoop_preserves (Extends s)); [|exact H].
  intros _ str s'' _ _ H'.
  now apply Extends_insertFrame, Extends_pushFile.
Qed.

(** X22. Whatever it returns, a call of [tryInsertFile] only adds to the
    sequence: members and files are appended together, no entry of the
    frame map is removed or overwritten, the frame slots are not changed
    once they are fixed, and the size estimation stays on or off. *)
Theorem X22_tryInsertFile_only_adds
        (tellg : string -> Z) (file : FileNameContent.t)
        (s : SequenceFromFiles.t) :
  Extends s (after (SequenceFromFiles.tryInsertFile tellg file s) s).
Proof.
  unfold SequenceFromFiles.tryInsertFile.
  destruct (SequenceFromFiles.filesList s) as [|name names].
  { cbn [after]. apply Extends_pushFile, Extends_refl. }
  destruct (SequenceFromFiles.sequence s) as [|first rest] eqn:Es;
    [apply Extends_refl|].
  destruct (negb (FileNameContent.getPath file =? FileNameContent.getPath first)%string);
    [apply Extends_refl|].
  destruct (FileNameContent.matchesPattern file first) as [[l|]|msg];
    try apply Extends_refl.
  destruct (SequenceFromFiles.inFilesList (FileNameContent.absoluteFileName file) s);
    [apply Extends_refl|].
  destruct (SequenceFromFiles.frameNumberStringIndexes s) as [|i0 is0] eqn:Ei.
  - cbv zeta.
    assert (Hloop : Extends s
              (snd (SequenceFromFiles.frameLoop first
                      (fun frameNumberStr s' =>
                         SequenceFromFiles.insertFrame
                           (stringToInt frameNumberStr)
                           (FileNameContent.absoluteFileName file) s')
                      l "" (SequenceFromFiles.setIndexes l s)))).
    { apply (frameLoop_preserves (Extends s));
        [| now apply Extends_setIndexes].
      intros _ str s'' _ _ H'. now apply Extends_insertFrame. }
    destruct (fst _); cbn [after].
    + pose proof (Extends_insertMember tellg file l s _ Hloop) as H.
      now destruct (SequenceFromFiles.insertMember tellg file l _).
    + exact Hloop.
  - destruct (SequenceFromFiles.listZ_eqb l (i0 :: is0)); [|apply Extends_refl].
    pose proof (Extends_insertMember tellg file l s s (Extends_refl s)) as H.
    cbn [after]. now destruct (SequenceFromFiles.insertMember tellg file l s).
Qed.

(** X23. A file of another directory, a file that does not match the first
    member, a file whose path is listed already and, once the frame slots
    are fixed, a file that varies at other slots are refused before anything
    is written: [tryInsertFile] returns [false] and the sequence is as it
    was. *)
Theorem X23_refusals_that_change_nothing
        (tellg : string -> Z) (file first : FileNameContent.t)
        (s : SequenceFromFiles.t) (name : string) (names : list string)
        (rest : list FileNameContent.t)
        (Hfiles : SequenceFromFiles.filesList s = name :: names)
        (Hmembers : SequenceFromFiles.sequence s = first :: rest)
        (H : FileNameContent.getPath file <> FileNameContent.getPath first
             \/ FileNameContent.matchesPattern file first = Ret None
             \/ (exists l, FileNameContent.matchesPattern file first = Ret (Some l)
                           /\ SequenceFromFiles.inFilesList
                                (FileNameContent.absoluteFileName file) s = true)
             \/ (exists l, FileNameContent.matchesPattern file first = Ret (Some l)
                           /\ SequenceFromFiles.frameNumberStringIndexes s <> []
                           /\ l <> SequenceFromFiles.frameNumberStringIndexes s)) :
  SequenceFromFiles.tryInsertFile tellg file s = Ret (false, s).
Proof.
  exact (early_rejections_keep_state tellg file first s name names rest
           Hfiles Hmembers H).
Qed.

Lemma X23_refusals_that_change_nothing_witness :
  SequenceFromFiles.tryInsertFile noSize (FileNameContent.parse "/e/a2.png")
                                  seq_seeded
  = Ret (false, seq_seeded).
Proof.
  apply (X23_refusals_that_change_nothing
           noSize (FileNameContent.parse "/e/a2.png")
           (FileNameContent.parse "/d/a1.png") seq_seeded "/d/a1.png" [] []);
    [reflexivity | reflexivity | left; vm_compute; discriminate].
Defined.

(** *** What an accepted file adds *)

Lemma frameLoop_locked (content : FileNameContent.t)
      (record : string -> SequenceFromFiles.t -> SequenceFromFiles.t) :
  forall (indexes : list Z) (first : string) (s : SequenceFromFiles.t),
    first <> "" ->
    snd (SequenceFromFiles.frameLoop content record indexes first s) = s.
Proof.
  induction indexes as [|index rest IH]; intros first s Hne; [reflexivity|].
  cbn [SequenceFromFiles.frameLoop].
  assert (E : strEmpty first = false) by now destruct first.
  rewrite E, andb_false_r. cbn [negb andb].
  destruct (negb (stringToInt _ =? stringToInt first)); [reflexivity|].
  now apply IH.
Qed.

(** The loop over the slots records the first digit run it can read, and
    nothing else, when no digit run of the file is empty. *)
Lemma frameLoop_state (content : FileNameContent.t)
      (record : string -> SequenceFromFiles.t -> SequenceFromFiles.t) :
  (forall i d, FileNameContent.getNumberByIndex content i = Some d -> d <> "") ->
  forall (indexes : list Z) (s : SequenceFromFiles.t),
    snd (SequenceFromFiles.frameLoop content record indexes "" s)
    = match firstNumber content indexes with
      | Some d => record d s
      | None => s
      end.
Proof.
  intros Hne. induction indexes as [|index rest IH]; intros s; [reflexivity|].
  cbn [SequenceFromFiles.frameLoop firstNumber].
  destruct (FileNameContent.getNumberByIndex content index) as [d|] eqn:E;
    cbn [fst snd strEmpty andb negb].
  - apply frameLoop_locked. exact (Hne _ _ E).
  - apply IH.
Qed.

Lemma firstNumber_some (content : FileNameContent.t) (indexes : list Z) :
  indexes <> [] ->
  (forall n, In n indexes ->
             exists a, FileNameContent.getNumberByIndex content n = Some a) ->
  exists n d, In n indexes
              /\ FileNameContent.getNumberByIndex content n = Some d
              /\ firstNumber content indexes = Some d.
Proof.
  destruct indexes as [|n rest]; [contradiction|]. intros _ H.
  destruct (H n (or_introl eq_refl)) as [a Ha].
  exists n, a. cbn [firstNumber]. rewrite Ha. repeat split. now left.
Qed.

Lemma least_potential (pots : list FileNameContent.Potential) :
  pots <> [] ->
  exists p, In p pots
            /\ forall p', In p' pots ->
                          FileNameContent.potentialDiff p
                          <= FileNameContent.potentialDiff p'.
Proof.
  induction pots as [|q pots IH]; [contradiction|]. intros _.
  destruct pots as [|q' pots].
  - exists q. split; [now left|]. intros p' [<-|[]]. lia.
  - destruct (IH ltac:(discriminate)) as (p & Hin & Hmin).
    destruct (Z.le_gt_cases (FileNameContent.potentialDiff q)
                            (FileNameContent.potentialDiff p)) as [Hle|Hgt].
    + exists q. split; [now left|].
      intros p' [<-|Hp']; [lia|]. specialize (Hmin p' Hp'). lia.
    + exists p. split; [now right|].
      intros p' [<-|Hp']; [lia|]. now apply Hmin.
Qed.

(** The ordinals [matchesPattern] returns for two tokenized paths: there is
    one at least, and each is that of a digit run of the first path. *)
Lemma accepted_slots (pathThis pathOther : string) (l : list Z) :
  FileNameContent.matchesPattern (FileNameContent.parse pathThis)
                                 (FileNameContent.parse pathOther)
  = Ret (Some l) ->
  l <> []
  /\ forall n, In n l ->
               exists a, FileNameContent.getNumberByIndex
                           (FileNameContent.parse pathThis) n = Some a.
Proof.
  intros H.
  pose proof (collected_diff_range pathThis pathOther) as Hrange.
  revert H Hrange. unfold collected, FileNameContent.getNumberByIndex.
  generalize (FileNameContent.parse pathThis) as this.
  generalize (FileNameContent.parse pathOther) as other.
  intros other this H Hrange.
  unfold FileNameContent.matchesPattern in H.
  destruct (List.length (FileNameContent.orderedElements other)
            =? List.length (FileNameContent.orderedElements this))%nat eqn:El;
    cbn [negb] in H; [|discriminate H].
  apply combine_length_eq in El.
  destruct (FileNameContent.potentialLoop
              (combine (FileNameContent.orderedElements this)
                       (FileNameContent.orderedElements other)) 0 [])
    as [[pots|]|msg] eqn:Ep; try discriminate H.
  destruct (potentialLoop_spec _ _ _ _ _ El Ep) as (news & Hp & Hn).
  cbn [app] in Hp. subst news. unfold collectedFrom in Hn.
  assert (Hmax : forall p, In p ([] ++ pots) ->
                           FileNameContent.potentialDiff p <= INT_MAX).
  { intros [m [a' b']] Hin. cbn [app] in Hin. apply Hn in Hin.
    apply (Hrange m a' b' Hin). }
  assert (Hinit : MinInvariant [] INT_MAX []).
  { repeat split.
    - intros p [].
    - now right.
    - intros [].
    - intros (p & Hq & _). destruct j; discriminate Hq. }
  pose proof (minLoop_spec pots [] INT_MAX [] Hmax Hinit) as Hsel.
  cbn [app List.length] in Hsel.
  assert (Hne : pots <> []) by (destruct pots; [discriminate H | discriminate]).
  assert (Hl : l = map (fun i => fst (nth i pots (0, ("", ""))))
                       (FileNameContent.minLoop pots 0 INT_MAX [])).
  { destruct pots; [discriminate H | now injection H as <-]. }
  split.
  - destruct (least_potential pots Hne) as (p & Hin & Hmin).
    apply In_nth_error in Hin as (i & Hi).
    assert (Hsel' : In i (FileNameContent.minLoop pots 0 INT_MAX []))
      by (apply Hsel; now exists p).
    rewrite Hl. intros E. apply map_eq_nil in E. now rewrite E in Hsel'.
  - intros n Hin. rewrite Hl, in_map_iff in Hin.
    destruct Hin as (i & Hi & Hsel').
    apply Hsel in Hsel' as ([m [a b]] & Hq & _).
    rewrite (nth_error_nth _ _ _ Hq) in Hi. cbn [fst] in Hi. subst m.
    apply nth_error_In in Hq. apply Hn in Hq. exists a. exact (proj1 Hq).
Qed.

Lemma parse_absoluteFileName (path : string) :
  FileNameContent.absoluteFileName (FileNameContent.parse path) = path.
Proof.
  unfold FileNameContent.parse. now destruct (removePath path).
Qed.

(** What the loop that inserts a tokenized path does to the sequence once
    the slots are known to be digit runs of the path. *)
Lemma insertMember_parsed (tellg : string -> Z) (path : string)
      (indexes : list Z) (s : SequenceFromFiles.t) :
  indexes <> [] ->
  (forall n, In n indexes ->
             exists a, FileNameContent.getNumberByIndex
                         (FileNameContent.parse path) n = Some a) ->
  exists n d,
    In n indexes
    /\ FileNameContent.getNumberByIndex (FileNameContent.parse path) n = Some d
    /\ snd (SequenceFromFiles.insertMember tellg (FileNameContent.parse path)
                                           indexes s)
       = SequenceFromFiles.insertFrame (stringToInt d) path
           (SequenceFromFiles.pushFile tellg (FileNameContent.parse path) s).
Proof.
  intros Hne Hall.
  destruct (firstNumber_some _ _ Hne Hall) as (n & d & Hin & Hd & Hfirst).
  exists n, d. repeat split; try assumption.
  unfold SequenceFromFiles.insertMember.
  rewrite (frameLoop_state _ _ (parsed_numbers_not_empty path)), Hfirst.
  now rewrite parse_absoluteFileName.
Qed.

(** X24. When [tryInsertFile] accepts a tokenized path into a sequence that
    is not empty and whose first member is a tokenized path, the path is
    appended exactly once to the members and to the files, and the number
    read in the path at one of the frame slots is a key of the frame map
    afterwards. *)
Theorem X24_accepted_file_is_appended
        (tellg : string -> Z) (path pathFirst : string)
        (rest : list FileNameContent.t) (s s' : SequenceFromFiles.t)
        (Hfiles : SequenceFromFiles.filesList s <> [])
        (Hfirst : SequenceFromFiles.sequence s
                  = FileNameContent.parse pathFirst :: rest)
        (Hacc : SequenceFromFiles.tryInsertFile tellg (FileNameContent.parse path) s
                = Ret (true, s')) :
  SequenceFromFiles.sequence s'
  = (SequenceFromFiles.sequence s ++ [FileNameContent.parse path])%list
  /\ SequenceFromFiles.filesList s'
     = (SequenceFromFiles.filesList s ++ [path])%list
  /\ exists n a,
      In n (SequenceFromFiles.frameNumberStringIndexes s')
      /\ FileNameContent.getNumberByIndex (FileNameContent.parse path) n = Some a
      /\ SequenceFromFiles.isInSequence s' (stringToInt a) = true.
Proof.
  revert Hacc. unfold SequenceFromFiles.tryInsertFile. rewrite Hfirst.
  destruct (SequenceFromFiles.filesList s) as [|name names] eqn:Ef;
    [contradiction|].
  destruct (negb (FileNameContent.getPath (FileNameContent.parse path)
                  =? FileNameContent.getPath (FileNameContent.parse pathFirst))%string);
    [discriminate|].
  destruct (FileNameContent.matchesPattern (FileNameContent.parse path)
                                           (FileNameContent.parse pathFirst))
    as [[l|]|msg] eqn:Em; try discriminate.
  destruct (accepted_slots _ _ _ Em) as (Hne & Hall).
  destruct (SequenceFromFiles.inFilesList _ s); [discriminate|].
  assert (Hkey : forall k v s0,
             SequenceFromFiles.isInSequence
               (SequenceFromFiles.insertFrame k v s0) k = true).
  { intros k v s0. unfold SequenceFromFiles.isInSequence.
    cbn [SequenceFromFiles.insertFrame SequenceFromFiles.filesMap].
    pose proof (map_insert_key k v (SequenceFromFiles.filesMap s0)) as Hk.
    now destruct (map_find k (map_insert k v (SequenceFromFiles.filesMap s0))). }
  destruct (SequenceFromFiles.frameNumberStringIndexes s) as [|i0 is0] eqn:Ei.
  - cbv zeta.
    set (s1 := snd (SequenceFromFiles.frameLoop _ _ l ""
                      (SequenceFromFiles.setIndexes l s))).
    assert (Hs1 : SequenceFromFiles.sequence s1 = SequenceFromFiles.sequence s
                  /\ SequenceFromFiles.filesList s1 = SequenceFromFiles.filesList s
                  /\ SequenceFromFiles.frameNumberStringIndexes s1 = l).
    { unfold s1.
      apply (frameLoop_preserves
               (fun s0 => SequenceFromFiles.sequence s0 = SequenceFromFiles.sequence s
                          /\ SequenceFromFiles.filesList s0
                             = SequenceFromFiles.filesList s
                          /\ SequenceFromFiles.frameNumberStringIndexes s0 = l));
        [|now repeat split].
      intros _ str s0 _ _ H0. exact H0. }
    destruct Hs1 as (Hq1 & Hf1 & Hi1).
    destruct (fst _); [|discriminate].
    destruct (insertMember_parsed tellg path l s1 Hne Hall)
      as (n & d & Hin & Hd & Hs').
    destruct (SequenceFromFiles.insertMember tellg (FileNameContent.parse path) l s1)
      as [b s2] eqn:Eins.
    cbn [snd] in Hs'. intros [= -> <-]. subst s2.
    cbn [SequenceFromFiles.insertFrame SequenceFromFiles.pushFile
         SequenceFromFiles.sequence SequenceFromFiles.filesList
         SequenceFromFiles.frameNumberStringIndexes].
    rewrite Hq1, Hf1, Hi1, Hfirst, Ef, parse_absoluteFileName.
    repeat split. exists n, d. repeat split; try assumption. apply Hkey.
  - destruct (SequenceFromFiles.listZ_eqb l (i0 :: is0)) eqn:El; [|discriminate].
    assert (Hl : l = i0 :: is0).
    { unfold SequenceFromFiles.listZ_eqb in El.
      now destruct (list_eq_dec Z.eq_dec l (i0 :: is0)). }
    destruct (insertMember_parsed tellg path l s Hne Hall)
      as (n & d & Hin & Hd & Hs').
    destruct (SequenceFromFiles.insertMember tellg (FileNameContent.parse path) l s)
      as [b s2] eqn:Eins.
    cbn [snd] in Hs'. intros [= -> <-]. subst s2.
    cbn [SequenceFromFiles.insertFrame SequenceFromFiles.pushFile
         SequenceFromFiles.sequence SequenceFromFiles.filesList
         SequenceFromFiles.frameNumberStringIndexes].
    rewrite Ei, Hfirst, Ef, parse_absoluteFileName, <- Hl.
    repeat split. exists n, d. repeat split; try assumption. apply Hkey.
Qed.

Lemma X24_accepted_file_is_appended_witness :
  SequenceFromFiles.sequence seq_a1_a2
  = (SequenceFromFiles.sequence seq_seeded
       ++ [FileNameContent.parse "/d/a2.png"])%list
  /\ SequenceFromFiles.filesList seq_a1_a2
     = (SequenceFromFiles.filesList seq_seeded ++ ["/d/a2.png"])%list
  /\ exists n a,
      In n (SequenceFromFiles.frameNumberStringIndexes seq_a1_a2)
      /\ FileNameContent.getNumberByIndex
           (FileNameContent.parse "/d/a2.png") n = Some a
      /\ SequenceFromFiles.isInSequence seq_a1_a2 (stringToInt a) = true.
Proof.
  apply (X24_accepted_file_is_appended noSize "/d/a2.png" "/d/a1.png" []
           seq_seeded seq_a1_a2);
    [vm_compute; discriminate | reflexivity | reflexivity].
Defined.

(** *** The ranges of the friendly pattern *)

Lemma skipHole_spec (s : SequenceFromFiles.t) :
  forall (budget : nat) (first breakCounter first1 breakCounter1 : Z),
    SequenceFromFiles.skipHole s budget first breakCounter
    = Some (first1, breakCounter1) ->
    first <= first1
    /\ (forall k, first <= k < first1 ->
                  SequenceFromFiles.isInSequence s k = false)
    /\ (breakCounter1 < breakCounter + Z.of_nat budget ->
        SequenceFromFiles.isInSequence s first1 = true).
Proof.
  induction budget as [|budget IH]; intros first bc first1 bc1;
    cbn [SequenceFromFiles.skipHole].
  - intros [= <- <-]. split; [lia | split; [intros k Hk; lia | lia]].
  - destruct (SequenceFromFiles.isInSequence s first) eqn:E; cbn [negb].
    + intros [= <- <-]. split; [lia | split; [intros k Hk; lia | now intros _]].
    + destruct (int_add first 1) as [first'|] eqn:Ea; [|discriminate].
      apply int_add_sum in Ea. subst first'.
      intros H. apply IH in H as (H1 & H2 & H3). split; [lia | split].
      * intros k Hk. destruct (Z.eq_dec k first) as [->|]; [exact E|].
        apply H2. lia.
      * intros Hb. apply H3. lia.
Qed.

Lemma extendChunk_spec (s : SequenceFromFiles.t) :
  forall (fuel : nat) (next prev count next' count' : Z),
    SequenceFromFiles.extendChunk s fuel next prev count
    = Finished (next', count') ->
    prev + 1 = next ->
    next <= next'
    /\ count' - count = next' - next
    /\ (forall k, next <= k < next' ->
                  SequenceFromFiles.isInSequence s k = true
                  /\ k <= SequenceFromFiles.getLastFrame s)
    /\ (SequenceFromFiles.getLastFrame s < next'
        \/ SequenceFromFiles.isInSequence s next' = false).
Proof.
  induction fuel as [|fuel IH]; intros next prev count next' count';
    [discriminate|].
  cbn [SequenceFromFiles.extendChunk]. intros H Hp.
  destruct (Z.leb_spec next (SequenceFromFiles.getLastFrame s)) as [Hle|Hgt];
    cbn [andb] in H.
  - destruct (SequenceFromFiles.isInSequence s next) eqn:E.
    + destruct (int_add prev 1) as [prev1|] eqn:Ep; [|discriminate H].
      apply int_add_sum in Ep. subst prev1.
      destruct (Z.eqb_spec next (prev + 1)) as [_|Hne]; [|lia].
      destruct (int_add next 1) as [next1|] eqn:En; [|discriminate H].
      destruct (int_add count 1) as [count1|] eqn:Ec; [|discriminate H].
      apply int_add_sum in En, Ec. subst next1 count1.
      apply IH in H as (H1 & H2 & H3 & H4); [|reflexivity].
      split; [lia | split; [lia | split; [|exact H4]]].
      intros k Hk. destruct (Z.eq_dec k next) as [->|]; [now split|].
      apply H3. lia.
    + injection H as <- <-.
      split; [lia | split; [lia | split; [intros k Hk; lia | now right]]].
  - injection H as <- <-.
    split; [lia | split; [lia | split; [intros k Hk; lia | now left]]].
Qed.

Lemma map_find_in (k : Z) (v : string) (m : IntMap) :
  In (k, v) m -> map_find k m <> None.
Proof.
  induction m as [|[k2 v2] m IH]; [intros []|].
  cbn [map_find]. intros [[= -> ->]|H].
  - now rewrite Z.eqb_refl.
  - destruct (k =? k2); [discriminate | now apply IH].
Qed.

Lemma last_frame_present (s : SequenceFromFiles.t) (k : Z) :
  SequenceFromFiles.isInSequence s k = true ->
  SequenceFromFiles.isInSequence s (SequenceFromFiles.getLastFrame s) = true.
Proof.
  unfold SequenceFromFiles.isInSequence, SequenceFromFiles.getLastFrame.
  destruct (SequenceFromFiles.filesMap s) as [|e rest]; [discriminate|].
  intros _.
  assert (Hin : In (last rest e) (e :: rest)).
  { destruct rest as [|x rest']; [now left|]. right.
    pose proof (@app_removelast_last _ (x :: rest') e ltac:(discriminate)) as H.
    set (final := last (x :: rest') e) in *. rewrite H.
    apply in_or_app. right. now left. }
  destruct (last rest e) as [kl vl] eqn:El. cbn [fst].
  pose proof (map_find_in kl vl (e :: rest) Hin) as H.
  now destruct (map_find kl (e :: rest)).
Qed.

Lemma chunksLoop_ranges (s : SequenceFromFiles.t) :
  forall (fuel : nat) (first : Z) (chunks out : list (Z * Z)),
    Forall (isRange s) chunks ->
    SequenceFromFiles.chunksLoop s fuel first chunks = Finished out ->
    Forall (isRange s) out.
Proof.
  induction fuel as [|fuel IH]; intros first chunks out Hc; [discriminate|].
  cbn [SequenceFromFiles.chunksLoop].
  destruct (Z.leb_spec first (SequenceFromFiles.getLastFrame s)) as [Hin|Hout];
    [|now intros [= <-]].
  destruct (SequenceFromFiles.skipHole s NATRON_DIALOG_MAX_SEQUENCES_HOLE first 0)
    as [[first1 breakCounter]|] eqn:Es; [|discriminate].
  apply skipHole_spec in Es as (Hf & Habsent & Hpresent).
  destruct (Z.leb_spec (Z.of_nat NATRON_DIALOG_MAX_SEQUENCES_HOLE) breakCounter)
    as [Hbreak|Hgo]; [now intros [= <-]|].
  specialize (Hpresent ltac:(lia)).
  assert (Hlast : first1 <= SequenceFromFiles.getLastFrame s).
  { pose proof (last_frame_present s first1 Hpresent) as Hl.
    destruct (Z.le_gt_cases first1 (SequenceFromFiles.getLastFrame s))
      as [|Hgt]; [assumption|].
    rewrite Habsent in Hl by lia. discriminate Hl. }
  destruct (int_add first1 1) as [next0|] eqn:En; [|discriminate].
  apply int_add_sum in En. subst next0.
  destruct (SequenceFromFiles.extendChunk
              s (S (Z.to_nat (SequenceFromFiles.getLastFrame s - first1)))
              (first1 + 1) first1 1) as [[next count]| |] eqn:Ee;
    try discriminate.
  apply extendChunk_spec in Ee as (H1 & H2 & H3 & H4); [|reflexivity].
  destruct (int_add first1 count) as [first2|]; [|discriminate].
  apply IH. apply Forall_app. split; [exact Hc|].
  constructor; [|constructor]. unfold isRange. cbn [fst snd].
  split; [|split].
  - split; [lia|].
    destruct (Z.eq_dec (next - 1) first1) as [->|Hne]; [exact Hlast|].
    apply (H3 (next - 1)). lia.
  - intros k Hk. destruct (Z.eq_dec k first1) as [->|Hne]; [exact Hpresent|].
    apply (H3 k). lia.
  - replace (next - 1 + 1) with next by lia.
    destruct H4 as [H4|H4]; [left | now right].
    destruct (Z.eq_dec (next - 1) first1) as [E|Hne]; [lia|].
    pose proof (proj2 (H3 (next - 1) ltac:(lia))). lia.
Qed.

(** A frame of the sequence is a key of the frame map. *)
Lemma isInSequence_key (s : SequenceFromFiles.t) (k : Z) :
  SequenceFromFiles.isInSequence s k = true ->
  In k (map_keys (SequenceFromFiles.filesMap s)).
Proof.
  unfold SequenceFromFiles.isInSequence, map_keys.
  induction (SequenceFromFiles.filesMap s) as [|[k2 v2] m IH]; [discriminate|].
  cbn [map_find map fst].
  destruct (Z.eqb_spec k k2) as [->|]; [now left | right; now apply IH].
Qed.

(** The first inner loop does not overflow when a frame of the sequence
    lies ahead, nor when [first] is far enough from [INT_MAX]. *)
Lemma skipHole_no_overflow (s : SequenceFromFiles.t) :
  forall (budget : nat) (first breakCounter : Z),
    INT_MIN <= first ->
    (exists p, first <= p <= INT_MAX
               /\ SequenceFromFiles.isInSequence s p = true)
    \/ first + Z.of_nat budget <= INT_MAX ->
    SequenceFromFiles.skipHole s budget first breakCounter <> None.
Proof.
  induction budget as [|budget IH]; intros first bc Hmin Hroom;
    cbn [SequenceFromFiles.skipHole]; [discriminate|].
  destruct (SequenceFromFiles.isInSequence s first) eqn:E; cbn [negb];
    [discriminate|].
  assert (Hnext : first + 1 <= INT_MAX).
  { destruct Hroom as [(p & Hp & Hin)|Hroom]; [|lia].
    destruct (Z.eq_dec p first) as [->|]; [congruence | lia]. }
  rewrite int_add_in_range by lia. apply IH; [lia|].
  destruct Hroom as [(p & Hp & Hin)|Hroom]; [left | right; lia].
  exists p. split; [|exact Hin].
  destruct (Z.eq_dec p first) as [->|]; [congruence | lia].
Qed.

Lemma extendChunk_no_overflow (s : SequenceFromFiles.t) :
  Forall (fun k => 0 <= k < INT_MAX) (map_keys (SequenceFromFiles.filesMap s)) ->
  forall (fuel : nat) (next prev count : Z),
    prev + 1 = next -> INT_MIN <= prev -> next <= INT_MAX ->
    1 <= count <= next ->
    SequenceFromFiles.extendChunk s fuel next prev count <> SignedOverflow.
Proof.
  intros Hkeys. rewrite Forall_forall in Hkeys.
  induction fuel as [|fuel IH]; intros next prev count Hp Hmin Hmax Hc;
    [discriminate|].
  cbn [SequenceFromFiles.extendChunk].
  destruct (next <=? SequenceFromFiles.getLastFrame s); cbn [andb];
    [|discriminate].
  destruct (SequenceFromFiles.isInSequence s next) eqn:E; [|discriminate].
  apply isInSequence_key, Hkeys in E.
  rewrite (int_add_in_range prev 1) by lia.
  destruct (next =? prev + 1); [|discriminate].
  unfold INT_MIN in *.
  rewrite (int_add_in_range next 1), (int_add_in_range count 1)
    by (unfold INT_MIN; lia).
  apply IH; lia.
Qed.

Lemma chunksLoop_no_overflow (s : SequenceFromFiles.t) :
  Forall (fun k => 0 <= k < INT_MAX) (map_keys (SequenceFromFiles.filesMap s)) ->
  SequenceFromFiles.filesMap s <> [] ->
  forall (fuel : nat) (first : Z) (chunks : list (Z * Z)),
    INT_MIN <= first ->
    SequenceFromFiles.chunksLoop s fuel first chunks <> SignedOverflow.
Proof.
  intros Hkeys Hne.
  assert (Hkey : forall k, SequenceFromFiles.isInSequence s k = true ->
                           0 <= k < INT_MAX).
  { intros k Hk. apply isInSequence_key in Hk.
    rewrite Forall_forall in Hkeys. now apply Hkeys. }
  assert (Hlast : SequenceFromFiles.isInSequence
                    s (SequenceFromFiles.getLastFrame s) = true).
  { unfold SequenceFromFiles.isInSequence, SequenceFromFiles.getLastFrame.
    destruct (SequenceFromFiles.filesMap s) as [|e rest] eqn:Em;
      [contradiction|].
    assert (Hin : In (last rest e) (e :: rest)).
    { destruct rest as [|x rest']; [now left|]. right.
      pose proof (@app_removelast_last _ (x :: rest') e ltac:(discriminate)) as H.
      set (final := last (x :: rest') e) in *. rewrite H.
      apply in_or_app. right. now left. }
    destruct (last rest e) as [kl vl]. cbn [fst].
    pose proof (map_find_in kl vl (e :: rest) Hin) as H.
    now destruct (map_find kl (e :: rest)). }
  induction fuel as [|fuel IH]; intros first chunks Hmin; [discriminate|].
  cbn [SequenceFromFiles.chunksLoop].
  destruct (Z.leb_spec first (SequenceFromFiles.getLastFrame s)) as [Hin|Hout];
    [|discriminate].
  pose proof (Hkey _ Hlast) as Hl.
  destruct (SequenceFromFiles.skipHole s NATRON_DIALOG_MAX_SEQUENCES_HOLE first 0)
    as [[first1 breakCounter]|] eqn:Es.
  2:{ exfalso. revert Es. apply skipHole_no_overflow; [exact Hmin|].
      left. exists (SequenceFromFiles.getLastFrame s).
      split; [lia | exact Hlast]. }
  apply skipHole_spec in Es as (Hf & _ & Hpresent).
  destruct (Z.leb_spec (Z.of_nat NATRON_DIALOG_MAX_SEQUENCES_HOLE) breakCounter)
    as [Hbreak|Hgo]; [discriminate|].
  specialize (Hpresent ltac:(lia)). apply Hkey in Hpresent.
  rewrite (int_add_in_range first1 1) by (unfold INT_MIN; lia).
  destruct (SequenceFromFiles.extendChunk
              s (S (Z.to_nat (SequenceFromFiles.getLastFrame s - first1)))
              (first1 + 1) first1 1) as [[next count]| |] eqn:Ee.
  - apply extendChunk_spec in Ee as (H1 & H2 & H3 & _); [|reflexivity].
    assert (Hnext : next <= INT_MAX).
    { destruct (Z.eq_dec next (first1 + 1)) as [->|]; [lia|].
      destruct (H3 (next - 1) ltac:(lia)) as [Hk _]. apply Hkey in Hk. lia. }
    rewrite (int_add_in_range first1 count) by (unfold INT_MIN; lia).
    apply IH. unfold INT_MIN. lia.
  - exfalso. revert Ee.
    apply (extendChunk_no_overflow s Hkeys); unfold INT_MIN; lia.
  - discriminate.
Qed.

(** Without any frame the first hole is already too long. *)
Lemma skipHole_absent (s : SequenceFromFiles.t) :
  (forall k, SequenceFromFiles.isInSequence s k = false) ->
  forall (budget : nat) (first breakCounter : Z),
    INT_MIN <= first -> first + Z.of_nat budget <= INT_MAX ->
    SequenceFromFiles.skipHole s budget first breakCounter
    = Some (first + Z.of_nat budget, breakCounter + Z.of_nat budget).
Proof.
  intros Habsent.
  induction budget as [|budget IH]; intros first bc Hmin Hmax;
    cbn [SequenceFromFiles.skipHole].
  - now rewrite !Z.add_0_r.
  - rewrite Habsent. cbn [negb]. rewrite int_add_in_range by lia.
    rewrite IH by lia. f_equal. f_equal; lia.
Qed.

Lemma computeChunks_no_frame (s : SequenceFromFiles.t) :
  SequenceFromFiles.filesMap s = [] ->
  SequenceFromFiles.computeChunks s = Finished [].
Proof.
  intros Hm.
  assert (Habsent : forall k, SequenceFromFiles.isInSequence s k = false)
    by (intros k; unfold SequenceFromFiles.isInSequence; now rewrite Hm).
  unfold SequenceFromFiles.computeChunks.
  cbn [SequenceFromFiles.chunksLoop].
  unfold SequenceFromFiles.getFirstFrame, SequenceFromFiles.getLastFrame.
  rewrite Hm.
  replace (INT_MIN <=? INT_MAX) with true by reflexivity.
  rewrite (skipHole_absent s Habsent) by (vm_compute; discriminate).
  reflexivity.
Qed.

(** X25. In a sequence whose frames are at least 0 and below [INT_MAX],
    no counter of the loop of [generateUserFriendlySequencePattern] that
    builds the ranges leaves the range of [int], the loop ends, and each
    range it gives is a range of frames of the sequence: its bounds are in
    order, every frame in between is a key of the frame map, and it ends
    at the last frame or just before a missing frame. *)
Theorem X25_ranges_are_runs_of_frames
        (s : SequenceFromFiles.t)
        (H : Forall (fun k => 0 <= k < INT_MAX)
                    (map_keys (SequenceFromFiles.filesMap s))) :
  exists chunks,
    SequenceFromFiles.computeChunks s = Finished chunks
    /\ Forall (isRange s) chunks.
Proof.
  destruct (SequenceFromFiles.computeChunks s) as [chunks| |] eqn:E.
  - exists chunks. split; [reflexivity|].
    unfold SequenceFromFiles.computeChunks in E.
    apply (chunksLoop_ranges s _ _ [] chunks (Forall_nil _) E).
  - exfalso.
    destruct (SequenceFromFiles.filesMap s) as [|e rest] eqn:Em.
    + rewrite (computeChunks_no_frame s Em) in E. discriminate E.
    + revert E. unfold SequenceFromFiles.computeChunks.
      apply chunksLoop_no_overflow;
        [now rewrite Em | now rewrite Em |].
      unfold SequenceFromFiles.getFirstFrame. rewrite Em.
      destruct e as [k v]. cbn [map_keys map fst] in H.
      inversion H as [|? ? Hk _]. unfold INT_MIN. lia.
  - now apply computeChunks_total in E.
Qed.

Lemma X25_ranges_are_runs_of_frames_witness :
  exists chunks,
    SequenceFromFiles.computeChunks seq_1_3_7_9 = Finished chunks
    /\ Forall (isRange seq_1_3_7_9) chunks.
Proof.
  apply (X25_ranges_are_runs_of_frames seq_1_3_7_9).
  replace (map_keys (SequenceFromFiles.filesMap seq_1_3_7_9))
    with [1; 2; 3; 7; 8; 9] by reflexivity.
  unfold INT_MAX. repeat (constructor; [lia|]). constructor.
Defined.

(** *** The order of the frame map *)

Lemma map_place_increasing (k : Z) (v : string) (m : IntMap) :
  increasing (map_keys m) -> map_find k m = None ->
  increasing (map_keys (map_place k v m)).
Proof.
  unfold map_keys.
  induction m as [|[k2 v2] m IH]; intros Hi Hn; [now split|].
  cbn [map_find] in Hn. cbn [map_place].
  destruct (Z.eqb_spec k k2) as [|Hne]; [discriminate|].
  destruct (Z.ltb_spec k k2) as [Hlt|Hge].
  - cbn [map fst increasing]. cbn [map fst increasing] in Hi. now split.
  - cbn [map fst increasing] in Hi. destruct Hi as [Hhd Hi].
    specialize (IH Hi Hn). cbn [map fst increasing]. split; [|exact IH].
    destruct m as [|[k3 v3] m]; cbn [map_place map fst]; [lia|].
    cbn [map fst] in Hhd. destruct (k <? k3); cbn [map fst]; lia.
Qed.

Lemma map_insert_increasing (k : Z) (v : string) (m : IntMap) :
  increasing (map_keys m) -> increasing (map_keys (map_insert k v m)).
Proof.
  intros H. unfold map_insert.
  destruct (map_find k m) eqn:E; [exact H | now apply map_place_increasing].
Qed.

Lemma last_cons (A : Type) (rest : list A) :
  forall e d : A, last (e :: rest) d = last rest e.
Proof.
  induction rest as [|a rest IH]; intros e d; [reflexivity|].
  change (last (e :: a :: rest) d) with (last (a :: rest) d).
  rewrite (IH a d). symmetry. apply IH.
Qed.

Lemma increasing_bounds (rest : IntMap) :
  forall (e : Z * string) (k : Z),
    increasing (map_keys (e :: rest)) ->
    map_find k (e :: rest) <> None ->
    fst e <= k <= fst (last rest e).
Proof.
  unfold map_keys.
  induction rest as [|e2 rest IH]; intros [k1 v1] k Hi Hk.
  - cbn [map_find] in Hk. cbn [last fst].
    destruct (Z.eqb_spec k k1); [lia | contradiction].
  - cbn [map fst increasing] in Hi. destruct Hi as [Hlt Hi].
    cbn [map_find] in Hk.
    assert (Hl : fst e2 <= fst (last rest e2)).
    { apply (IH e2 (fst e2) Hi). destruct e2 as [k2 v2].
      cbn [map_find fst]. now rewrite Z.eqb_refl. }
    rewrite last_cons.
    cbn [fst]. destruct (Z.eqb_spec k k1) as [->|Hne]; [lia|].
    specialize (IH e2 k Hi Hk). lia.
Qed.

(** X26. The frame map stays in increasing order of its keys through a call
    of [tryInsertFile], whatever it returns, and in such a map every frame
    of the sequence lies between [getFirstFrame] and [getLastFrame]. *)
Theorem X26_frames_between_first_and_last
        (tellg : string -> Z) (file : FileNameContent.t)
        (s : SequenceFromFiles.t)
        (H : increasing (map_keys (SequenceFromFiles.filesMap s))) :
  increasing (map_keys (SequenceFromFiles.filesMap
                          (after (SequenceFromFiles.tryInsertFile tellg file s) s)))
  /\ forall k,
      SequenceFromFiles.isInSequence
        (after (SequenceFromFiles.tryInsertFile tellg file s) s) k = true ->
      SequenceFromFiles.getFirstFrame
        (after (SequenceFromFiles.tryInsertFile tellg file s) s)
      <= k
      <= SequenceFromFiles.getLastFrame
           (after (SequenceFromFiles.tryInsertFile tellg file s) s).
Proof.
  set (P := fun s0 => increasing (map_keys (SequenceFromFiles.filesMap s0))).
  assert (Hframe : forall k v s0, P s0 -> P (SequenceFromFiles.insertFrame k v s0))
    by (intros k v s0 H0; now apply map_insert_increasing).
  assert (Hmember : forall l s0,
             P s0 -> P (snd (SequenceFromFiles.insertMember tellg file l s0))).
  { intros l s0 H0. unfold SequenceFromFiles.insertMember.
    apply (frameLoop_preserves P); [|exact H0].
    intros _ str s1 _ _ H1. apply Hframe. exact H1. }
  assert (Hafter : P (after (SequenceFromFiles.tryInsertFile tellg file s) s)).
  { unfold SequenceFromFiles.tryInsertFile.
    destruct (SequenceFromFiles.filesList s) as [|name names]; [exact H|].
    destruct (SequenceFromFiles.sequence s) as [|first rest]; [exact H|].
    destruct (negb (FileNameContent.getPath file
                    =? FileNameContent.getPath first)%string); [exact H|].
    destruct (FileNameContent.matchesPattern file first) as [[l|]|msg];
      try exact H.
    destruct (SequenceFromFiles.inFilesList _ s); [exact H|].
    destruct (SequenceFromFiles.frameNumberStringIndexes s) as [|i0 is0].
    - cbv zeta.
      assert (Hloop : P (snd (SequenceFromFiles.frameLoop first
                      (fun frameNumberStr s' =>
                         SequenceFromFiles.insertFrame
                           (stringToInt frameNumberStr)
                           (FileNameContent.absoluteFileName file) s')
                      l "" (SequenceFromFiles.setIndexes l s)))).
      { apply (frameLoop_preserves P); [|exact H].
        intros _ str s1 _ _ H1. apply Hframe. exact H1. }
      destruct (fst _); cbn [after]; [|exact Hloop].
      pose proof (Hmember l _ Hloop) as Hm.
      now destruct (SequenceFromFiles.insertMember tellg file l _).
    - destruct (SequenceFromFiles.listZ_eqb l (i0 :: is0)); [|exact H].
      pose proof (Hmember l s H) as Hm. cbn [after].
      now destruct (SequenceFromFiles.insertMember tellg file l s). }
  split; [exact Hafter|].
  generalize dependent (after (SequenceFromFiles.tryInsertFile tellg file s) s).
  intros s' Hs' k Hk. unfold P in Hs'.
  unfold SequenceFromFiles.isInSequence in Hk.
  unfold SequenceFromFiles.getFirstFrame, SequenceFromFiles.getLastFrame.
  destruct (SequenceFromFiles.filesMap s') as [|[k1 v1] rest]; [discriminate Hk|].
  apply (increasing_bounds rest (k1, v1) k Hs').
  now destruct (map_find k ((k1, v1) :: rest)).
Qed.

Lemma X26_frames_between_first_and_last_witness :
  increasing (map_keys (SequenceFromFiles.filesMap
                          (after call_a5_b2 seq_locked)))
  /\ forall k,
      SequenceFromFiles.isInSequence (after call_a5_b2 seq_locked) k = true ->
      SequenceFromFiles.getFirstFrame (after call_a5_b2 seq_locked)
      <= k
      <= SequenceFromFiles.getLastFrame (after call_a5_b2 seq_locked).
Proof.
  apply (X26_frames_between_first_and_last
           noSize (FileNameContent.parse "/d/a5_b2.png") seq_locked).
  vm_compute. repeat split.
Defined.

(** *** Rendering a view *)

Lemma view_text_read_back (viewNumber : Z) :
  2 <= viewNumber <= INT_MAX ->
  let text := "view" ++ stringFromInt viewNumber in
  startsWith text "view" false = true
  /\ stringToInt (removeAllOccurences text "view" false) = viewNumber.
Proof.
  intros H. cbv zeta.
  destruct viewNumber as [|p|p]; try lia.
  destruct (stringFromInt_pos p) as (_ & Hd & _).
  split.
  - rewrite startsWith_ci by discriminate.
    now destruct (stringFromInt (Z.pos p)).
  - rewrite (removeAll_view_digits _ Hd), (stringToInt_digits _ Hd).
    rewrite readDigits_stringFromInt_pos. lia.
Qed.

(** X27. What is rendered for a view variable is what this variable
    validates: the text [generateFileNameFromPattern] writes for [%v] or
    [%V] and a view from 0 to [INT_MAX] is accepted by [checkVariable] as a
    view of that kind, with the view as value. *)
Theorem X27_rendered_view_is_validated
        (pattern : string) (long : bool) (frameNumber viewNumber : Z)
        (H : 0 <= viewNumber <= INT_MAX) :
  exists text,
    renderVariable pattern (if long then "%V" else "%v") frameNumber viewNumber
    = Ret text
    /\ checkVariable (if long then "%V" else "%v") text (if long then 2 else 1)
       = Ret (Some viewNumber).
Proof.
  exists (viewText long viewNumber). split.
  - now destruct long.
  - unfold viewText.
    destruct (Z.eqb_spec viewNumber 0) as [->|H0]; [now destruct long|].
    destruct (Z.eqb_spec viewNumber 1) as [->|H1]; [now destruct long|].
    destruct (view_text_read_back viewNumber ltac:(lia)) as (Hs & Hv).
    cbv zeta in Hs, Hv.
    destruct long; unfold checkVariable;
      cbn [String.eqb Ascii.eqb Bool.eqb Z.eqb Pos.eqb negb];
      replace (("view" ++ stringFromInt viewNumber =? "r")%string)
        with false by reflexivity;
      replace (("view" ++ stringFromInt viewNumber =? "l")%string)
        with false by reflexivity;
      replace (("view" ++ stringFromInt viewNumber =? "right")%string)
        with false by reflexivity;
      replace (("view" ++ stringFromInt viewNumber =? "left")%string)
        with false by reflexivity;
      now rewrite Hs, Hv.
Qed.

Lemma X27_rendered_view_is_validated_witness :
  exists text,
    renderVariable "img.%V.png" "%V" 7 3 = Ret text
    /\ checkVariable "%V" text 2 = Ret (Some 3).
Proof.
  apply (X27_rendered_view_is_validated "img.%V.png" true 7 3).
  unfold INT_MAX. lia.
Defined.

(** *** The sequence collected around a file *)

(** A call with a tokenized path, on a sequence whose first member is a
    tokenized path, returns, and either leaves members and files as they
    are or appends the path, which is of the directory of the first member
    and was not listed. *)
Lemma tryInsertFile_parsed_shape
      (tellg : string -> Z) (path path0 : string)
      (rest : list FileNameContent.t) (s : SequenceFromFiles.t) :
  SequenceFromFiles.filesList s <> [] ->
  SequenceFromFiles.sequence s = FileNameContent.parse path0 :: rest ->
  exists b s',
    SequenceFromFiles.tryInsertFile tellg (FileNameContent.parse path) s
    = Ret (b, s')
    /\ ((SequenceFromFiles.sequence s' = SequenceFromFiles.sequence s
         /\ SequenceFromFiles.filesList s' = SequenceFromFiles.filesList s)
        \/ (SequenceFromFiles.sequence s'
            = (SequenceFromFiles.sequence s ++ [FileNameContent.parse path])%list
            /\ SequenceFromFiles.filesList s'
               = (SequenceFromFiles.filesList s ++ [path])%list
            /\ FileNameContent.getPath (FileNameContent.parse path)
               = FileNameContent.getPath (FileNameContent.parse path0)
            /\ ~ In path (SequenceFromFiles.filesList s))).
Proof.
  intros Hfiles Hfirst. unfold SequenceFromFiles.tryInsertFile. rewrite Hfirst.
  destruct (SequenceFromFiles.filesList s) as [|name names] eqn:Ef;
    [contradiction|].
  destruct (String.eqb_spec
              (FileNameContent.getPath (FileNameContent.parse path))
              (FileNameContent.getPath (FileNameContent.parse path0)))
    as [Hpath|Hpath]; cbn [negb]; [|exists false, s; split; [reflexivity | now left]].
  destruct (parsed_compare_returns path path0) as [m Em]. rewrite Em.
  destruct m as [l|]; [|exists false, s; split; [reflexivity | now left]].
  destruct (accepted_slots _ _ _ Em) as (Hne & Hall).
  destruct (SequenceFromFiles.inFilesList
              (FileNameContent.absoluteFileName (FileNameContent.parse path)) s)
    eqn:Ein; [exists false, s; split; [reflexivity | now left]|].
  assert (Hnew : ~ In path (name :: names)).
  { intros Hin. rewrite parse_absoluteFileName in Ein.
    unfold SequenceFromFiles.inFilesList in Ein. rewrite Ef in Ein.
    assert (Ht : existsb (String.eqb path) (name :: names) = true)
      by (apply existsb_exists; exists path; split;
          [exact Hin | apply String.eqb_refl]).
    congruence. }
  assert (Hmember : forall s1,
             SequenceFromFiles.sequence s1 = SequenceFromFiles.sequence s ->
             SequenceFromFiles.filesList s1 = SequenceFromFiles.filesList s ->
             exists b s',
               SequenceFromFiles.insertMember tellg (FileNameContent.parse path)
                                              l s1 = (b, s')
               /\ SequenceFromFiles.sequence s'
                  = (FileNameContent.parse path0 :: rest
                       ++ [FileNameContent.parse path])%list
               /\ SequenceFromFiles.filesList s' = ((name :: names) ++ [path])%list).
  { intros s1 Hq1 Hf1.
    destruct (insertMember_parsed tellg path l s1 Hne Hall)
      as (n & d & _ & _ & Hs').
    destruct (SequenceFromFiles.insertMember tellg (FileNameContent.parse path) l s1)
      as [b s2]. cbn [snd] in Hs'. subst s2. exists b. eexists.
    split; [reflexivity|].
    cbn [SequenceFromFiles.insertFrame SequenceFromFiles.pushFile
         SequenceFromFiles.sequence SequenceFromFiles.filesList].
    now rewrite Hq1, Hf1, Hfirst, Ef, parse_absoluteFileName. }
  destruct (SequenceFromFiles.frameNumberStringIndexes s) as [|i0 is0] eqn:Ei.
  - cbv zeta.
    set (s1 := snd (SequenceFromFiles.frameLoop _ _ l ""
                      (SequenceFromFiles.setIndexes l s))).
    assert (Hs1 : SequenceFromFiles.sequence s1 = SequenceFromFiles.sequence s
                  /\ SequenceFromFiles.filesList s1 = SequenceFromFiles.filesList s).
    { unfold s1.
      apply (frameLoop_preserves
               (fun s0 => SequenceFromFiles.sequence s0 = SequenceFromFiles.sequence s
                          /\ SequenceFromFiles.filesList s0
                             = SequenceFromFiles.filesList s));
        [|now split].
      intros _ str s0 _ _ H0. exact H0. }
    destruct Hs1 as (Hq1 & Hf1).
    destruct (fst _).
    + destruct (Hmember s1 Hq1 Hf1) as (b & s' & -> & Hq & Hf).
      exists b, s'. split; [reflexivity|]. right. now rewrite Hq, Hf.
    + exists false, s1. split; [reflexivity|]. left.
      now rewrite Hq1, Hf1, Hfirst, Ef.
  - destruct (SequenceFromFiles.listZ_eqb l (i0 :: is0));
      [|exists false, s; split; [reflexivity | left; now rewrite Hfirst, Ef]].
    destruct (Hmember s eq_refl eq_refl) as (b & s' & -> & Hq & Hf).
    exists b, s'. split; [reflexivity|]. right. now rewrite Hq, Hf.
Qed.

Lemma Listed_files (path0 : string) (s : SequenceFromFiles.t) :
  Listed path0 s -> SequenceFromFiles.filesList s <> [].
Proof.
  intros (Hm & (rest & Hq) & _). unfold Members in Hm. rewrite Hm, Hq.
  discriminate.
Qed.

Lemma tryInsertFile_listed (tellg : string -> Z) (path path0 : string)
      (s : SequenceFromFiles.t) :
  Listed path0 s ->
  exists b s',
    SequenceFromFiles.tryInsertFile tellg (FileNameContent.parse path) s
    = Ret (b, s')
    /\ Listed path0 s'.
Proof.
  intros HL. pose proof (Listed_files _ _ HL) as Hfiles.
  destruct HL as (Hm & (rest & Hq) & Hdir & Hnd).
  destruct (tryInsertFile_parsed_shape tellg path path0 rest s Hfiles Hq)
    as (b & s' & E & [(Hq' & Hf') | (Hq' & Hf' & Hp & Hnew)]);
    exists b, s'; (split; [exact E|]); unfold Listed, Members in *.
  - rewrite Hq', Hf'. repeat split; try assumption. now exists rest.
  - rewrite Hq', Hf'. split; [|split; [|split]].
    + rewrite map_app, Hm. cbn [map].
      now rewrite (parse_absoluteFileName path).
    + exists (rest ++ [FileNameContent.parse path])%list. now rewrite Hq.
    + apply Forall_app. split; [exact Hdir|]. now constructor.
    + apply NoDup_app; [exact Hnd | repeat constructor; intros [] |].
      intros a Ha [<-|[]]. contradiction.
Qed.

Lemma insertAll_listed (tellg : string -> Z) (path0 : string)
      (names : list string) :
  forall s : SequenceFromFiles.t,
    Listed path0 s ->
    exists s', insertAll tellg names s = Ret s' /\ Listed path0 s'.
Proof.
  induction names as [|name names IH]; intros s HL; [now exists s|].
  cbn [insertAll].
  destruct (tryInsertFile_listed tellg name path0 s HL) as (b & s1 & -> & HL1).
  cbn [snd]. now apply IH.
Qed.

(** X28. Started on an empty sequence, [getSequenceOutOfFile] never raises
    and returns [true] exactly when the directory of the file can be
    opened; in the sequence it leaves, the first member is the file named,
    every member is of the directory of that file, the files list names
    the members in order, and no file is listed twice. *)
Theorem X28_sequence_collected_around_a_file
        (tellg : string -> Z)
        (opendir : string -> option (list (string * bool)))
        (absoluteFileName : string) (enableSizeEstimation : bool) :
  exists b s,
    getSequenceOutOfFile tellg opendir absoluteFileName
                         (SequenceFromFiles.create enableSizeEstimation)
    = Ret (b, s)
    /\ Listed absoluteFileName s
    /\ (b = true
        <-> opendir (FileNameContent.getPath
                       (FileNameContent.parse absoluteFileName)) <> None).
Proof.
  unfold getSequenceOutOfFile. cbv zeta. rewrite first_insertion. cbn [snd].
  assert (HL : Listed absoluteFileName
                 (SequenceFromFiles.createWith
                    tellg (FileNameContent.parse absoluteFileName)
                    enableSizeEstimation)).
  { unfold Listed, Members. cbn. split; [reflexivity|].
    split; [now exists []|]. split; repeat constructor. intros []. }
  destruct (opendir _) as [dir|].
  - destruct (insertAll_listed tellg absoluteFileName
                (map (fun name =>
                        FileNameContent.getPath
                          (FileNameContent.parse absoluteFileName) ++ name)
                     (getFilesFromDir dir)) _ HL) as (s' & -> & HL').
    exists true, s'. repeat split; try apply HL'. discriminate.
  - eexists false, _. split; [reflexivity|]. split; [exact HL|].
    split; [discriminate | intros H; now contradiction H].
Qed.
